(** * AlgorithmicTrading: walk-forward backtest of EWMA crossover forecasts

    A shallow embedding of the four numerical components of the repository
    ([signals/ewma_signal.py], [position_sizing/vol_target_sizing.py],
    [backtesting/rolling_window_backtest.py],
    [portfolio_u/portfolio_optimizer.py]) together with the pandas / numpy /
    Python primitives they call, followed by the properties of the
    specification that were checked against them.

    Numeric model.  A float64 is modelled as an extended real number: [NaN],
    the two infinities, or a finite real.  Arithmetic follows IEEE 754 on the
    special values (x/0, 0*inf, inf-inf, comparisons with NaN) and is exact on
    finite values: rounding, overflow and the sign of zero are not modelled.
    pandas' "missing" value is [NaN].

    Series model.  A [pd.Series] is the list of its (label, value) pairs in
    index order; labels (timestamps) are integers. *)

From Stdlib Require Import Reals Lra Lia ZArith Bool String List Sorted.
Import ListNotations.

(* ================================================================== *)
(** * Part I.  The embedding                                           *)
(* ================================================================== *)

(** ** Python exceptions and the error monad *)

Inductive exn : Type :=
| TypeError
| ValueError
| KeyError
| IndexError.

Inductive outcome (A : Type) : Type :=
| Returned (a : A)
| Raised (e : exn).
Arguments Returned {A} a.
Arguments Raised {A} e.

Definition bind {A B : Type} (m : outcome A) (k : A -> outcome B) : outcome B :=
  match m with
  | Returned a => k a
  | Raised e => Raised e
  end.

Notation "'do' x <- m ; k" := (bind m (fun x => k))
  (at level 10, x name, m at level 100, k at level 200).

(** ** float64 as an extended real *)

Module Float.
Local Open Scope R_scope.

Inductive float : Type :=
| NaN
| NInf
| PInf
| Fin (r : R).

Definition Rltb (a b : R) : bool := if Rlt_dec a b then true else false.
Definition Reqb (a b : R) : bool := if Req_dec_T a b then true else false.

Definition isnan (x : float) : bool :=
  match x with NaN => true | _ => false end.

Definition notna (x : float) : bool := negb (isnan x).

(** [np.isfinite] *)
Definition isfinite (x : float) : bool :=
  match x with Fin _ => true | _ => false end.

Definition fopp (x : float) : float :=
  match x with
  | NaN => NaN
  | NInf => PInf
  | PInf => NInf
  | Fin a => Fin (- a)
  end.

Definition fadd (x y : float) : float :=
  match x, y with
  | NaN, _ | _, NaN => NaN
  | PInf, NInf | NInf, PInf => NaN
  | PInf, _ | _, PInf => PInf
  | NInf, _ | _, NInf => NInf
  | Fin a, Fin b => Fin (a + b)
  end.

Definition fsub (x y : float) : float := fadd x (fopp y).

(** The infinity with the sign of [a], NaN when [a] is zero (0 * inf). *)
Definition signed_inf (a : R) (pos : float) (neg : float) : float :=
  if Reqb a 0 then NaN else if Rltb 0 a then pos else neg.

Definition fmul (x y : float) : float :=
  match x, y with
  | NaN, _ | _, NaN => NaN
  | Fin a, Fin b => Fin (a * b)
  | Fin a, PInf | PInf, Fin a => signed_inf a PInf NInf
  | Fin a, NInf | NInf, Fin a => signed_inf a NInf PInf
  | PInf, PInf | NInf, NInf => PInf
  | PInf, NInf | NInf, PInf => NInf
  end.

(** numpy division: a finite value over zero is an infinity (0/0 is NaN),
    never an exception. *)
Definition fdiv (x y : float) : float :=
  match x, y with
  | NaN, _ | _, NaN => NaN
  | Fin a, Fin b => if Reqb b 0 then signed_inf a PInf NInf else Fin (a / b)
  | Fin _, PInf | Fin _, NInf => Fin 0
  | PInf, Fin b => if Rltb b 0 then NInf else PInf
  | NInf, Fin b => if Rltb b 0 then PInf else NInf
  | _, _ => NaN
  end.

Definition fabs (x : float) : float :=
  match x with
  | NaN => NaN
  | NInf | PInf => PInf
  | Fin a => Fin (Rabs a)
  end.

Definition fsqrt (x : float) : float :=
  match x with
  | NaN | NInf => NaN
  | PInf => PInf
  | Fin a => if Rltb a 0 then NaN else Fin (sqrt a)
  end.

(** Comparisons; every comparison with NaN is false. *)
Definition flt (x y : float) : bool :=
  match x, y with
  | NaN, _ | _, NaN => false
  | NInf, NInf => false
  | NInf, _ => true
  | _, NInf => false
  | PInf, _ => false
  | _, PInf => true
  | Fin a, Fin b => Rltb a b
  end.

Definition fgt (x y : float) : bool := flt y x.

Definition feqb (x y : float) : bool :=
  match x, y with
  | NInf, NInf | PInf, PInf => true
  | Fin a, Fin b => Reqb a b
  | _, _ => false
  end.

Definition fle (x y : float) : bool := flt x y || feqb x y.

(** [np.clip] / [Series.clip]: NaN stays NaN. *)
Definition clip (lo hi x : float) : float :=
  if flt x lo then lo else if fgt x hi then hi else x.

(** Python's builtin [max(a, b)]: [b] only when [b > a]. *)
Definition py_max (a b : float) : float := if fgt b a then b else a.

Definition of_nat (n : nat) : float := Fin (INR n).

End Float.
Export Float.

(** ** Python sequences: [range] and slices *)

Module Py.
Local Open Scope Z_scope.

(** Number of elements of [range(start, stop, step)] for [step <> 0]. *)
Definition range_len (start stop step : Z) : Z :=
  if 0 <? step then
    (if start <? stop then (stop - start - 1) / step + 1 else 0)
  else
    (if stop <? start then (start - stop - 1) / (- step) + 1 else 0).

Fixpoint count_from (n : nat) (start step : Z) : list Z :=
  match n with
  | O => []
  | S n' => start :: count_from n' (start + step) step
  end.

(** [range(start, stop, step)]; a zero step is a [ValueError]. *)
Definition range (start stop step : Z) : outcome (list Z) :=
  if step =? 0 then Raised ValueError
  else Returned (count_from (Z.to_nat (range_len start stop step)) start step).

(** A slice bound [i] resolved against a sequence of length [n]:
    negative bounds count from the end, and everything is clamped. *)
Definition slice_bound (n i : Z) : Z :=
  if i <? 0 then Z.max (i + n) 0 else Z.min i n.

(** [l[a:b]] *)
Definition slice {A : Type} (l : list A) (a b : Z) : list A :=
  let n := Z.of_nat (length l) in
  let s := slice_bound n a in
  let e := slice_bound n b in
  firstn (Z.to_nat (e - s)) (skipn (Z.to_nat s) l).

End Py.

(** ** pandas: Series, alignment, reductions, exponentially weighted windows *)

Module Pandas.
Local Open Scope R_scope.

(** A Series: (label, value) pairs in index order. *)
Definition Series : Type := list (Z * float).

Definition index (s : Series) : list Z := map fst s.
Definition values (s : Series) : list float := map snd s.

(** [pd.Series(vals, index=idx)] *)
Definition make_series (idx : list Z) (vals : list float) : Series :=
  combine idx vals.

(** [s.iloc[a:b]] *)
Definition iloc (s : Series) (a b : Z) : Series := Py.slice s a b.

(** An elementwise operation with a scalar, e.g. [s * c] or [s.abs()]. *)
Definition smap (f : float -> float) (s : Series) : Series :=
  map (fun p => (fst p, f (snd p))) s.

(** Label lookup (first occurrence; labels are unique in every index this
    development builds). *)
Fixpoint get (t : Z) (s : Series) : option float :=
  match s with
  | [] => None
  | (t', v) :: rest => if Z.eqb t t' then Some v else get t rest
  end.

Definition get_or_nan (t : Z) (s : Series) : float :=
  match get t s with
  | Some v => v
  | None => NaN
  end.

Fixpoint index_eqb (a b : list Z) : bool :=
  match a, b with
  | [], [] => true
  | x :: a', y :: b' => Z.eqb x y && index_eqb a' b'
  | _, _ => false
  end.

(** Sorted union of two indexes (the outer join of unequal indexes). *)
Fixpoint insert_label (t : Z) (l : list Z) : list Z :=
  match l with
  | [] => [t]
  | x :: rest =>
      if Z.ltb t x then t :: l
      else if Z.eqb t x then l
      else x :: insert_label t rest
  end.

Definition union_index (a b : list Z) : list Z :=
  fold_right insert_label [] (a ++ b).

Fixpoint zip_with (f : float -> float -> float) (a b : Series) : Series :=
  match a, b with
  | (t, x) :: a', (_, y) :: b' => (t, f x y) :: zip_with f a' b'
  | _, _ => []
  end.

(** A binary operation between two Series.  Equal indexes: positionwise.
    Otherwise the operands are aligned on the sorted union of their labels
    and a label missing on either side yields NaN.  (Labels are unique in
    every index this development builds; pandas treats duplicate labels in
    unequal indexes differently.) *)
Definition binop (f : float -> float -> float) (a b : Series) : Series :=
  if index_eqb (index a) (index b) then zip_with f a b
  else map (fun t => (t, f (get_or_nan t a) (get_or_nan t b)))
           (union_index (index a) (index b)).

(** [s.shift(1)]: same labels, values moved one position down. *)
Definition shift1 (s : Series) : Series :=
  make_series (index s) (NaN :: removelast (values s)).

(** [s.diff()] is [s - s.shift(1)]. *)
Definition diff (s : Series) : Series := binop fsub s (shift1 s).

(** [s.pct_change()] is [s / s.shift(1) - 1] (no filling of missing
    prices, as in current pandas). *)
Definition pct_change (s : Series) : Series :=
  smap (fun v => fsub v (Fin 1)) (binop fdiv s (shift1 s)).

(** [s.dropna()] *)
Definition dropna (s : Series) : Series :=
  filter (fun p => notna (snd p)) s.

(** [s.loc[labels]]: a missing label is a [KeyError]. *)
Fixpoint loc (s : Series) (labels : list Z) : outcome Series :=
  match labels with
  | [] => Returned []
  | t :: rest =>
      match get t s with
      | None => Raised KeyError
      | Some v => do r <- loc s rest; Returned ((t, v) :: r)
      end
  end.

(** *** Reductions (pandas reductions skip NaN) *)

Definition present (l : list float) : list float := filter notna l.

Definition fsum (l : list float) : float := fold_left fadd l (Fin 0).

(** [s.sum()] *)
Definition sum (l : list float) : float := fsum (present l).

(** [s.count()] *)
Definition count (l : list float) : nat := length (present l).

(** [s.mean()]: NaN when nothing is present. *)
Definition mean (l : list float) : float :=
  match count l with
  | O => NaN
  | n => fdiv (sum l) (of_nat n)
  end.

(** [s.var()] with ddof = 1: NaN below two observations. *)
Definition var (l : list float) : float :=
  match count l with
  | O | S O => NaN
  | n =>
      let m := mean l in
      fdiv (fsum (map (fun x => fmul (fsub x m) (fsub x m)) (present l)))
           (of_nat (n - 1))
  end.

(** [s.std()].  As all arithmetic here it is exact: a constant series has
    deviation 0, where float64 can leave a rounding residue. *)
Definition std (l : list float) : float := fsqrt (var l).

(** [arr.mean()] on a numpy array: no NaN skipping, NaN when empty. *)
Definition np_mean (l : list float) : float :=
  match l with
  | [] => NaN
  | _ => fdiv (fsum l) (of_nat (length l))
  end.

(** [s.min()] *)
Definition fmin2 (a b : float) : float := if flt b a then b else a.

Definition min (l : list float) : float :=
  match present l with
  | [] => NaN
  | x :: rest => fold_left fmin2 rest x
  end.

(** [s.cumprod()]: NaN entries stay NaN and do not enter the product. *)
Fixpoint cumprod_from (acc : float) (l : list float) : list float :=
  match l with
  | [] => []
  | x :: rest =>
      if isnan x then NaN :: cumprod_from acc rest
      else let acc' := fmul acc x in acc' :: cumprod_from acc' rest
  end.

Definition cumprod (s : Series) : Series :=
  make_series (index s) (cumprod_from (Fin 1) (values s)).

(** [s.expanding().max()]: running maximum of the values seen so far,
    NaN until the first observation. *)
Fixpoint expanding_max_from (acc : float) (l : list float) : list float :=
  match l with
  | [] => []
  | x :: rest =>
      let acc' := if isnan x then acc
                  else if isnan acc then x
                  else if flt acc x then x else acc in
      acc' :: expanding_max_from acc' rest
  end.

Definition expanding_max (s : Series) : Series :=
  make_series (index s) (expanding_max_from NaN (values s)).

(** [s.clip(lo, hi)] *)
Definition sclip (lo hi : float) (s : Series) : Series := smap (clip lo hi) s.

(** *** Exponentially weighted windows, [adjust=False], [ignore_na=False] *)

(** [span] must be at least 1; the smoothing factor is 2 / (span + 1). *)
Definition ewm_alpha (span : Z) : outcome R :=
  if Z.ltb span 1 then Raised ValueError
  else Returned (2 / (IZR span + 1)).

(** pandas' center of mass of a span; the smoothing factor is
    1 / (1 + com), that is 2 / (span + 1). *)
Definition ewm_com (span : Z) : R := (IZR span - 1) / 2.

(** One pass of the recursive average.  [weighted] is the running average
    and [old_wt] the weight it carries (it decays across missing values).
    The weight of a new observation is alpha, except that for a center of
    mass of exactly 1 (span 3) pandas takes 1 - old_wt, which differs from
    alpha after a missing value. *)
Fixpoint ewma_loop (com alpha : R) (weighted : float) (old_wt : R)
         (xs : list float) : list float :=
  match xs with
  | [] => []
  | cur :: rest =>
      if isnan weighted then
        cur :: ewma_loop com alpha cur old_wt rest
      else
        let old_wt' := old_wt * (1 - alpha) in
        if isnan cur then
          weighted :: ewma_loop com alpha weighted old_wt' rest
        else
          let new_wt := if Reqb com 1 then 1 - old_wt' else alpha in
          let w := if feqb weighted cur then weighted
                   else fdiv (fadd (fmul (Fin old_wt') weighted)
                                   (fmul (Fin new_wt) cur))
                             (Fin (old_wt' + new_wt)) in
          w :: ewma_loop com alpha w 1 rest
  end.

Definition ewma (com alpha : R) (xs : list float) : list float :=
  match xs with
  | [] => []
  | x0 :: rest => x0 :: ewma_loop com alpha x0 1 rest
  end.

(** [s.ewm(span=span, adjust=False).mean()] *)
Definition ewm_mean (span : Z) (s : Series) : outcome Series :=
  do alpha <- ewm_alpha span;
  Returned (make_series (index s) (ewma (ewm_com span) alpha (values s))).

(** State of the exponentially weighted variance. *)
Record ewm_state : Type := mk_ewm_state {
  ew_mean : float;
  ew_cov : float;
  ew_sum_wt : R;
  ew_sum_wt2 : R;
  ew_old_wt : R;
  ew_nobs : nat }.

(** The debiased variance read off a state. *)
Definition ewm_var_out (st : ewm_state) : float :=
  if Nat.leb 1 (ew_nobs st) then
    let numerator := ew_sum_wt st * ew_sum_wt st in
    let denominator := numerator - ew_sum_wt2 st in
    if Rltb 0 denominator then fmul (Fin (numerator / denominator)) (ew_cov st)
    else NaN
  else NaN.

Definition ewm_var_step (alpha : R) (st : ewm_state) (cur : float) : ewm_state :=
  let is_obs := notna cur in
  let nobs := (ew_nobs st + (if is_obs then 1 else 0))%nat in
  if isnan (ew_mean st) then
    mk_ewm_state (if is_obs then cur else ew_mean st) (ew_cov st)
                 (ew_sum_wt st) (ew_sum_wt2 st) (ew_old_wt st) nobs
  else
    let f := 1 - alpha in
    let sum_wt := ew_sum_wt st * f in
    let sum_wt2 := ew_sum_wt2 st * (f * f) in
    let old_wt := ew_old_wt st * f in
    if is_obs then
      let old_mean := ew_mean st in
      let mean := if feqb old_mean cur then old_mean
                  else fdiv (fadd (fmul (Fin old_wt) old_mean)
                                  (fmul (Fin alpha) cur))
                            (Fin (old_wt + alpha)) in
      let cov :=
        fdiv (fadd (fmul (Fin old_wt)
                         (fadd (ew_cov st)
                               (fmul (fsub old_mean mean) (fsub old_mean mean))))
                   (fmul (Fin alpha) (fmul (fsub cur mean) (fsub cur mean))))
             (Fin (old_wt + alpha)) in
      let sum_wt := sum_wt + alpha in
      let sum_wt2 := sum_wt2 + alpha * alpha in
      let old_wt := old_wt + alpha in
      mk_ewm_state mean cov (sum_wt / old_wt) (sum_wt2 / (old_wt * old_wt)) 1 nobs
    else
      mk_ewm_state (ew_mean st) (ew_cov st) sum_wt sum_wt2 old_wt nobs.

Fixpoint ewm_var_loop (alpha : R) (st : ewm_state) (xs : list float)
  : list float :=
  match xs with
  | [] => []
  | cur :: rest =>
      let st' := ewm_var_step alpha st cur in
      ewm_var_out st' :: ewm_var_loop alpha st' rest
  end.

Definition ewm_var (alpha : R) (xs : list float) : list float :=
  match xs with
  | [] => []
  | x0 :: rest =>
      NaN :: ewm_var_loop alpha
               (mk_ewm_state x0 (Fin 0) 1 1 1 (if notna x0 then 1 else 0)%nat)
               rest
  end.

(** pandas' [zsqrt]: square root with negative inputs sent to zero. *)
Definition zsqrt (x : float) : float :=
  if flt x (Fin 0) then Fin 0 else fsqrt x.

(** [s.ewm(span=span, adjust=False).std()] *)
Definition ewm_std (span : Z) (s : Series) : outcome Series :=
  do alpha <- ewm_alpha span;
  Returned (make_series (index s) (map zsqrt (ewm_var alpha (values s)))).

End Pandas.

Import Pandas.

(** ** signals/ewma_signal.py *)

Module EWMASignal.

(** [EWMASignal(fast, slow)]; the [name] attribute is only a label. *)
Record t : Type := mk { fast : Z; slow : Z }.

(** The local variables of one [get_forecast] call. *)
Record locals : Type := mk_locals {
  scaling_data : Series;
  raw_signal : Series;
  scaling_raw : Series;
  scaling_factor : float;
  forecast : Series }.

(** The body of [get_forecast], keeping its intermediate values. *)
Definition get_forecast_locals (self : t) (prices : Series)
           (train_prices : option Series) : outcome locals :=
  (* Use training prices for scaling if provided, else use test prices *)
  let scaling_data :=
    match train_prices with
    | Some tp => tp
    | None => prices
    end in
  (* Step 1: Calculate EWMA *)
  do fast_ewma <- ewm_mean (fast self) prices;
  do slow_ewma <- ewm_mean (slow self) prices;
  (* Step 2: Get raw signal *)
  let raw_signal := binop fdiv (binop fsub fast_ewma slow_ewma) prices in
  (* Step 3: Calculate scaling factor from training data *)
  do scaling_data_ewma <- ewm_mean (fast self) scaling_data;
  do scaling_data_slow <- ewm_mean (slow self) scaling_data;
  let scaling_raw :=
    binop fdiv (binop fsub scaling_data_ewma scaling_data_slow) scaling_data in
  let scaling_factor := fdiv (Fin 10) (mean (values (smap fabs scaling_raw))) in
  (* Step 4: Scale forecast to -20 to 20 range *)
  let forecast :=
    sclip (Fin (-20)) (Fin 20) (smap (fun v => fmul v scaling_factor) raw_signal) in
  Returned (mk_locals scaling_data raw_signal scaling_raw scaling_factor forecast).

(** [self.get_forecast(prices, train_prices)] *)
Definition get_forecast (self : t) (prices : Series)
           (train_prices : option Series) : outcome Series :=
  do l <- get_forecast_locals self prices train_prices;
  Returned (forecast l).

(** Python's binding of the positional and keyword arguments of a call of
    [self.get_forecast] to the signature [(prices, train_prices=None)]: an unknown keyword, a repeated
    or a missing argument is a [TypeError]. *)
Definition call_get_forecast (self : t) (args : list Series)
           (kwargs : list (string * Series)) : outcome Series :=
  match args, kwargs with
  | [p], [] => get_forecast self p None
  | [p; tp], [] => get_forecast self p (Some tp)
  | [p], [(k, tp)] =>
      if String.eqb k "train_prices" then get_forecast self p (Some tp)
      else Raised TypeError
  | [], [(k, p)] =>
      if String.eqb k "prices" then get_forecast self p None
      else Raised TypeError
  | [], [(k1, a1); (k2, a2)] =>
      if String.eqb k1 "prices" && String.eqb k2 "train_prices"
      then get_forecast self a1 (Some a2)
      else if String.eqb k1 "train_prices" && String.eqb k2 "prices"
      then get_forecast self a2 (Some a1)
      else Raised TypeError
  | _, _ => Raised TypeError
  end.

End EWMASignal.

(** ** position_sizing/vol_target_sizing.py *)

Module VolTargetSizing.

(** [VolTargetSizing(vol_target=0.25, lookback=25)] *)
Record t : Type := mk { vol_target : float; lookback : Z }.

Definition default : t := mk (Fin (25 / 100)) 25.

(** [self.calculate_volatility(prices)] *)
Definition calculate_volatility (self : t) (prices : Series) : outcome Series :=
  let returns := pct_change prices in
  do sd <- ewm_std (lookback self) returns;
  let volatility := smap (fun v => fmul v (fsqrt (Fin 256))) sd in
  Returned volatility.

(** [self.get_position_size(forecast, prices, capital)] *)
Definition get_position_size (self : t) (forecast prices : Series)
           (capital : float) : outcome Series :=
  (* Calculate volatility *)
  do volatility <- calculate_volatility self prices;
  (* Instrument currency volatility (dollar terms) *)
  let instrument_currency_vol := binop fmul volatility prices in
  (* Desired notional position *)
  let notional_position :=
    smap (fun v => fdiv (fmul (vol_target self) capital) v)
         instrument_currency_vol in
  (* Scale by forecast *)
  let positions :=
    binop fmul notional_position (smap (fun v => fdiv v (Fin 10)) forecast) in
  Returned positions.

(** [self.get_leverage(position_size, prices, capital)] *)
Definition get_leverage (self : t) (position_size prices : Series)
           (capital : float) : Series :=
  let notional_exposure := smap fabs (binop fmul position_size prices) in
  let leverage := smap (fun v => fdiv v capital) notional_exposure in
  leverage.

End VolTargetSizing.

(** ** backtesting/rolling_window_backtest.py *)

Module RollingWindowBacktest.
Local Open Scope Z_scope.

(** The two collaborators are duck-typed: any object with a
    [get_forecast] method, called as
    [get_forecast(test_prices, train_data=train_prices)], and any object
    with a [get_position_size(forecast, prices, capital)] method. *)
Record signal_obj : Type := mk_signal {
  get_forecast : list Series -> list (string * Series) -> outcome Series }.

Record sizing_obj : Type := mk_sizing {
  get_position_size : Series -> Series -> float -> outcome Series }.

Record t : Type := mk {
  signal : signal_obj;
  sizing : sizing_obj;
  train_window : Z;
  test_window : Z }.

(** The repository's own collaborators seen through these interfaces. *)
Definition ewma_signal (s : EWMASignal.t) : signal_obj :=
  mk_signal (EWMASignal.call_get_forecast s).

Definition vol_target_sizing (s : VolTargetSizing.t) : sizing_obj :=
  mk_sizing (VolTargetSizing.get_position_size s).

(** The five accumulators of [run]. *)
Record accum : Type := mk_accum {
  all_forecasts : list float;
  all_positions : list float;
  all_returns : list float;
  all_costs : list float;
  timestamps : list Z }.

Definition empty_accum : accum := mk_accum [] [] [] [] [].

(** The slices of the window at cursor [i]. *)
Definition train_slice (self : t) (prices : Series) (i : Z) : Series :=
  iloc prices (i - train_window self) i.

Definition test_slice (self : t) (prices : Series) (i : Z) : Series :=
  iloc prices i (i + test_window self).

(** The body of the walk-forward loop for cursor [i]. *)
Definition window (self : t) (prices : Series) (capital transaction_cost : float)
           (acc : accum) (i : Z) : outcome accum :=
  (* Split into train and test *)
  let train_prices := train_slice self prices i in
  let test_prices := test_slice self prices i in
  (* Get signal from training data *)
  do forecast <-
    get_forecast (signal self) [test_prices] [("train_data"%string, train_prices)];
  (* Size positions based on forecast *)
  do positions <- get_position_size (sizing self) forecast test_prices capital;
  (* Calculate returns *)
  let test_returns := pct_change test_prices in
  let strategy_returns := binop fmul (shift1 positions) test_returns in
  (* Calculate transaction costs *)
  let position_changes := smap fabs (diff positions) in
  let costs := smap (fun v => fmul v transaction_cost) position_changes in
  (* Net returns after costs *)
  let net_returns := binop fsub strategy_returns costs in
  (* Store results *)
  let valid_idx := index (dropna net_returns) in
  do f <- loc forecast valid_idx;
  do p <- loc positions valid_idx;
  do r <- loc net_returns valid_idx;
  do c <- loc costs valid_idx;
  Returned (mk_accum (all_forecasts acc ++ values f)
                     (all_positions acc ++ values p)
                     (all_returns acc ++ values r)
                     (all_costs acc ++ values c)
                     (timestamps acc ++ valid_idx)).

(** The [for] loop: the windows run in cursor order and the first
    exception aborts the run. *)
Fixpoint windows (self : t) (prices : Series) (capital transaction_cost : float)
         (acc : accum) (cursors : list Z) : outcome accum :=
  match cursors with
  | [] => Returned acc
  | i :: rest =>
      do acc' <- window self prices capital transaction_cost acc i;
      windows self prices capital transaction_cost acc' rest
  end.

(** The values the cursor [i] takes. *)
Definition cursors (self : t) (n : Z) : outcome (list Z) :=
  Py.range (train_window self) (n - test_window self) (test_window self).

(** [pd.Series(data, index=idx)]: a length mismatch is a [ValueError]. *)
Definition new_series (data : list float) (idx : list Z) : outcome Series :=
  if Nat.eqb (length data) (length idx) then Returned (make_series idx data)
  else Raised ValueError.

(** The dictionary returned by [run]. *)
Record result : Type := mk_result {
  returns : Series;
  forecasts : Series;
  positions : Series;
  costs : Series;
  cumulative_returns : Series }.

(** The result of a run in which no window executed: five empty Series. *)
Definition empty_result : result := mk_result [] [] [] [] [].

(** [self.run(prices, capital, transaction_cost)] *)
Definition run (self : t) (prices : Series) (capital transaction_cost : float)
  : outcome result :=
  (* Walk forward through data *)
  do starts <- cursors self (Z.of_nat (length prices));
  do acc <- windows self prices capital transaction_cost empty_accum starts;
  (* Create result series with datetime index *)
  let result_index := timestamps acc in
  do returns <- new_series (all_returns acc) result_index;
  do forecasts <- new_series (all_forecasts acc) result_index;
  do positions <- new_series (all_positions acc) result_index;
  do costs <- new_series (all_costs acc) result_index;
  (* Calculate cumulative returns *)
  let cumulative := cumprod (smap (fun v => fadd (Fin 1) v) returns) in
  Returned (mk_result returns forecasts positions costs cumulative).

(** The dictionary returned by [calculate_metrics]. *)
Record metrics : Type := mk_metrics {
  sharpe_ratio : float;
  total_return : float;
  annual_return : float;
  max_drawdown : float;
  win_rate : float;
  avg_win : float;
  avg_loss : float;
  profit_factor : float;
  std_dev : float;
  total_costs : float;
  num_trades : nat }.

(** [self.calculate_metrics(results)]; [None] is Python's [None]. *)
Definition calculate_metrics (results : result) : option metrics :=
  let rets := values (returns results) in
  (* Avoid division by zero *)
  if feqb (std rets) (Fin 0) || Nat.eqb (length rets) 0 then None
  else
    (* Calculate metrics *)
    let sharpe := fmul (fdiv (mean rets) (std rets)) (fsqrt (Fin 256)) in
    let cumulative := cumprod (smap (fun v => fadd (Fin 1) v) (returns results)) in
    let total_return := fsub (last (values cumulative) NaN) (Fin 1) in
    let annual_return := fmul (mean rets) (Fin 256) in
    (* Drawdown *)
    let running_max := expanding_max cumulative in
    let drawdown := binop fdiv (binop fsub cumulative running_max) running_max in
    let max_drawdown := Pandas.min (values drawdown) in
    (* Additional metrics *)
    let wins := filter (fun v => fgt v (Fin 0)) rets in
    let losses := filter (fun v => flt v (Fin 0)) rets in
    let win_rate := fdiv (of_nat (length wins)) (of_nat (length rets)) in
    let avg_win := match wins with [] => Fin 0 | _ => mean wins end in
    let avg_loss := match losses with [] => Fin 0 | _ => mean losses end in
    let profit_factor :=
      match losses with
      | [] => PInf
      | _ => fdiv (sum wins) (sum (map fabs losses))
      end in
    (* Transaction costs *)
    let total_costs := sum (values (costs results)) in
    Some (mk_metrics sharpe total_return annual_return max_drawdown win_rate
                     avg_win avg_loss profit_factor (std rets) total_costs
                     (length rets)).

End RollingWindowBacktest.

(** ** portfolio_u/portfolio_optimizer.py *)

Module PortfolioOptimizer.
Local Open Scope R_scope.

(** [PortfolioOptimizer(min_correlation=0.5, leverage=1.0)] *)
Record t : Type := mk { min_correlation : float; leverage : float }.

(** A dictionary of named Series, in insertion order. *)
Definition forecasts_dict : Type := list (string * Series).

(** A DataFrame: the row labels and the named columns (one value per row). *)
Record DataFrame : Type := mk_df {
  df_index : list Z;
  df_columns : list (string * list float) }.

Definition same_indexes (d : forecasts_dict) : bool :=
  match d with
  | [] => true
  | (_, s0) :: rest => forallb (fun p => index_eqb (index s0) (index (snd p))) rest
  end.

(** [pd.DataFrame(d)]: equal indexes are kept as they are; otherwise the
    rows are the sorted union of the labels and absent cells are NaN. *)
Definition frame (d : forecasts_dict) : DataFrame :=
  if same_indexes d then
    mk_df (match d with [] => [] | (_, s0) :: _ => index s0 end)
          (map (fun p => (fst p, values (snd p))) d)
  else
    let idx := fold_right insert_label [] (concat (map (fun p => index (snd p)) d)) in
    mk_df idx (map (fun p => (fst p, map (fun t => get_or_nan t (snd p)) idx)) d).

(** The cells of row number [i], one per column. *)
Definition row_at (cols : list (string * list float)) (i : nat) : list float :=
  map (fun c => nth i (snd c) NaN) cols.

Definition rows (df : DataFrame) : list (list float) :=
  map (row_at (df_columns df)) (seq 0 (length (df_index df))).

(** A reduction along [axis=1]: one value per row label. *)
Definition reduce_rows (f : list float -> float) (df : DataFrame) : Series :=
  make_series (df_index df) (map f (rows df)).

(** [df * weights]: column [j] is multiplied by [weights[j]]. *)
Definition scale_columns (df : DataFrame) (weights : list float) : DataFrame :=
  mk_df (df_index df)
        (map (fun cw => (fst (fst cw), map (fun v => fmul v (snd cw)) (snd (fst cw))))
             (combine (df_columns df) weights)).

(** [weights.get(col, 1.0)] *)
Fixpoint dict_get (w : list (string * float)) (col : string) (default : float)
  : float :=
  match w with
  | [] => default
  | (k, v) :: rest => if String.eqb k col then v else dict_get rest col default
  end.

(** *** Pearson correlation (pandas [nancorr], [min_periods = 1]): one
    pass of Welford's recurrences over the rows where both cells are
    finite; undefined without such a row or without variation. *)

Record welford : Type := mk_welford {
  w_nobs : nat;
  w_meanx : R;
  w_meany : R;
  w_ssqdm_x : R;
  w_ssqdm_y : R;
  w_covxy : R }.

Definition welford_step (st : welford) (vx vy : R) : welford :=
  let nobs := S (w_nobs st) in
  let dx := vx - w_meanx st in
  let dy := vy - w_meany st in
  let meanx := w_meanx st + 1 / INR nobs * dx in
  let meany := w_meany st + 1 / INR nobs * dy in
  mk_welford nobs meanx meany
             (w_ssqdm_x st + (vx - meanx) * dx)
             (w_ssqdm_y st + (vy - meany) * dy)
             (w_covxy st + (vx - meanx) * dy).

Fixpoint welford_loop (st : welford) (xs ys : list float) : welford :=
  match xs, ys with
  | x :: xs', y :: ys' =>
      match x, y with
      | Fin vx, Fin vy => welford_loop (welford_step st vx vy) xs' ys'
      | _, _ => welford_loop st xs' ys'
      end
  | _, _ => st
  end.

Definition pearson (xs ys : list float) : float :=
  let st := welford_loop (mk_welford 0 0 0 0 0 0) xs ys in
  if Nat.ltb (w_nobs st) 1 then NaN
  else
    let divisor := sqrt (w_ssqdm_x st * w_ssqdm_y st) in
    if Reqb divisor 0 then NaN else Fin (w_covxy st / divisor).

(** [df.corr()]: the matrix of pairwise correlations of the columns. *)
Definition corr (df : DataFrame) : list (list float) :=
  map (fun cx => map (fun cy => pearson (snd cx) (snd cy)) (df_columns df))
      (df_columns df).

(** [self.calculate_correlations(forecasts_dict)]; the result is given by
    its [.values]. *)
Definition calculate_correlations (self : t) (d : forecasts_dict)
  : list (list float) :=
  let forecasts_df := frame d in
  let correlations := corr forecasts_df in
  correlations.

(** [values[~np.eye(n, dtype=bool)]]: the entries off the diagonal, row by
    row.  A matrix that is not n x n does not fit the mask ([IndexError]). *)
Fixpoint drop_nth (i : nat) (l : list float) : list float :=
  match l, i with
  | [], _ => []
  | _ :: rest, O => rest
  | x :: rest, S i' => x :: drop_nth i' rest
  end.

Fixpoint off_diagonal_from (i : nat) (m : list (list float)) : list float :=
  match m with
  | [] => []
  | r :: rest => drop_nth i r ++ off_diagonal_from (S i) rest
  end.

Definition is_square (m : list (list float)) : bool :=
  forallb (fun r => Nat.eqb (length r) (length m)) m.

Definition off_diagonal (m : list (list float)) : outcome (list float) :=
  if is_square m then Returned (off_diagonal_from 0 m) else Raised IndexError.

(** The local variable [avg_correlation] before it is floored. *)
Definition average_correlation (m : list (list float)) : outcome float :=
  do cells <- off_diagonal m;
  Returned (np_mean cells).

(** [self.calculate_fdm(correlation_matrix)] *)
Definition calculate_fdm (self : t) (correlation_matrix : list (list float))
  : outcome float :=
  (* Get average correlation (excluding diagonal) *)
  do avg_correlation <- average_correlation correlation_matrix;
  (* Avoid division by zero or negative correlations *)
  let avg_correlation := py_max avg_correlation (Fin 0) in
  let fdm :=
    if flt avg_correlation (Fin 1)
    then fdiv (Fin 1) (fsqrt (fsub (Fin 1) avg_correlation))
    else Fin 1 in
  Returned fdm.

(** [self.combine_forecasts(forecasts_dict, correlation_weights)] *)
Definition combine_forecasts (self : t) (d : forecasts_dict)
           (correlation_weights : option (list (string * float))) : Series :=
  let forecasts_df := frame d in
  let combined :=
    match correlation_weights with
    | None =>
        (* Equal weight *)
        reduce_rows mean forecasts_df
    | Some cw =>
        (* Weighted by provided weights *)
        let weights :=
          map (fun col => dict_get cw (fst col) (Fin 1)) (df_columns forecasts_df) in
        let total := fsum weights in
        let weights := map (fun w => fdiv w total) weights in  (* Normalize *)
        reduce_rows sum (scale_columns forecasts_df weights)
    end in
  (* Clip to -20 to 20 range *)
  sclip (Fin (-20)) (Fin 20) combined.

End PortfolioOptimizer.


(** ** Concrete configurations used below *)

Module Scenarios.
Local Open Scope Z_scope.

(** [main.py]: [EWMASignal(fast=8, slow=32)], [VolTargetSizing(0.25)],
    [RollingWindowBacktest(train_window=252, test_window=63)]. *)
Definition main_backtest : RollingWindowBacktest.t :=
  RollingWindowBacktest.mk
    (RollingWindowBacktest.ewma_signal (EWMASignal.mk 8 32))
    (RollingWindowBacktest.vol_target_sizing VolTargetSizing.default)
    252 63.

(** A Series holding the same value at every label of [idx]. *)
Definition const_series (idx : list Z) (c : float) : Series :=
  map (fun t => (t, c)) idx.

(** The same collaborators with a training window of 500 days. *)
Definition oversized_backtest : RollingWindowBacktest.t :=
  RollingWindowBacktest.mk
    (RollingWindowBacktest.ewma_signal (EWMASignal.mk 8 32))
    (RollingWindowBacktest.vol_target_sizing VolTargetSizing.default)
    500 63.

(** A signal object whose [get_forecast] takes the keyword [train_data]
    that [run] passes, and forwards it to [EWMASignal.get_forecast] as the
    training series. *)
Definition train_data_signal (s : EWMASignal.t)
  : RollingWindowBacktest.signal_obj :=
  RollingWindowBacktest.mk_signal
    (fun args kwargs =>
       match args, kwargs with
       | [p], [(k, td)] =>
           if String.eqb k "train_data"
           then EWMASignal.get_forecast s p (Some td)
           else Raised TypeError
       | _, _ => Raised TypeError
       end).

(** A week of prices and a small walk-forward configuration on them: two
    days of training, four days of testing. *)
Definition week_prices : Series :=
  [(0, Fin 1); (1, Fin 2); (2, Fin 4); (3, Fin 5); (4, Fin 4); (5, Fin 6);
   (6, Fin 7)].

Definition week_backtest : RollingWindowBacktest.t :=
  RollingWindowBacktest.mk
    (train_data_signal (EWMASignal.mk 1 3))
    (RollingWindowBacktest.vol_target_sizing (VolTargetSizing.mk (Fin (25 / 100)) 2))
    2 4.

(** Three prices that double each day, and a steady forecast of 10. *)
Definition doubling_prices : Series :=
  [(0, Fin 1); (1, Fin 2); (2, Fin 4)].


(** The correlation matrix of two perfectly anti-correlated forecasts. *)
Definition opposite_matrix : list (list float) :=
  [[Fin 1; Fin (-1)]; [Fin (-1); Fin 1]].

(** Two forecast variants, the first of which lacks the second day, and
    the weight dictionary giving 1 to both. *)
Definition uneven_forecasts : PortfolioOptimizer.forecasts_dict :=
  [("EWMA_8_32"%string, [(1, Fin 10)]);
   ("EWMA_16_64"%string, [(1, Fin 10); (2, Fin 10)])].

Definition unit_weights : list (string * float) :=
  [("EWMA_8_32"%string, Fin 1); ("EWMA_16_64"%string, Fin 1)].

Definition default_optimizer : PortfolioOptimizer.t :=
  PortfolioOptimizer.mk (Fin (5 / 10)) (Fin 1).

(** Two columns that are exact negatives of one another. *)
Definition negated (xs ys : list float) : Prop :=
  Forall2 (fun x y => y = fopp x) xs ys.

(** A state of Welford's recurrences in which the second column mirrors
    the first. *)
Definition mirrored (st : PortfolioOptimizer.welford) : Prop :=
  (PortfolioOptimizer.w_meany st = - PortfolioOptimizer.w_meanx st /\
   PortfolioOptimizer.w_ssqdm_y st = PortfolioOptimizer.w_ssqdm_x st /\
   PortfolioOptimizer.w_covxy st = - PortfolioOptimizer.w_ssqdm_x st /\
   0 <= PortfolioOptimizer.w_ssqdm_x st)%R.

(** The forecast scale: a value between -20 and 20. *)
Definition in_scale (v : float) : Prop :=
  fle (Fin (-20)) v = true /\ fle v (Fin 20) = true.

End Scenarios.

(* ================================================================== *)
(** * Part I (continued).  The rest of the repository                  *)
(* ================================================================== *)

(** ** pandas: exponentially weighted variance with either [adjust] *)

Module PandasEwm.
Local Open Scope R_scope.

(** One observation of the weighted (co)variance recurrences.  The weight
    of a new observation is 1 when [adjust=True] and alpha when
    [adjust=False]; only in the latter case are the sums renormalized. *)
Definition ewm_cov_step (adjust : bool) (alpha : R) (st : ewm_state)
           (cur : float) : ewm_state :=
  let new_wt := if adjust then 1 else alpha in
  let is_obs := notna cur in
  let nobs := (ew_nobs st + (if is_obs then 1 else 0))%nat in
  if isnan (ew_mean st) then
    mk_ewm_state (if is_obs then cur else ew_mean st) (ew_cov st)
                 (ew_sum_wt st) (ew_sum_wt2 st) (ew_old_wt st) nobs
  else
    let f := 1 - alpha in
    let sum_wt := ew_sum_wt st * f in
    let sum_wt2 := ew_sum_wt2 st * (f * f) in
    let old_wt := ew_old_wt st * f in
    if is_obs then
      let old_mean := ew_mean st in
      let mean := if feqb old_mean cur then old_mean
                  else fdiv (fadd (fmul (Fin old_wt) old_mean)
                                  (fmul (Fin new_wt) cur))
                            (Fin (old_wt + new_wt)) in
      let cov :=
        fdiv (fadd (fmul (Fin old_wt)
                         (fadd (ew_cov st)
                               (fmul (fsub old_mean mean) (fsub old_mean mean))))
                   (fmul (Fin new_wt) (fmul (fsub cur mean) (fsub cur mean))))
             (Fin (old_wt + new_wt)) in
      let sum_wt := sum_wt + new_wt in
      let sum_wt2 := sum_wt2 + new_wt * new_wt in
      let old_wt := old_wt + new_wt in
      if adjust then mk_ewm_state mean cov sum_wt sum_wt2 old_wt nobs
      else mk_ewm_state mean cov (sum_wt / old_wt)
                        (sum_wt2 / (old_wt * old_wt)) 1 nobs
    else
      mk_ewm_state (ew_mean st) (ew_cov st) sum_wt sum_wt2 old_wt nobs.

Fixpoint ewm_cov_loop (adjust : bool) (alpha : R) (st : ewm_state)
         (xs : list float) : list float :=
  match xs with
  | [] => []
  | cur :: rest =>
      let st' := ewm_cov_step adjust alpha st cur in
      ewm_var_out st' :: ewm_cov_loop adjust alpha st' rest
  end.

Definition ewm_var_with (adjust : bool) (alpha : R) (xs : list float)
  : list float :=
  match xs with
  | [] => []
  | x0 :: rest =>
      NaN :: ewm_cov_loop adjust alpha
               (mk_ewm_state x0 (Fin 0) 1 1 1 (if notna x0 then 1 else 0)%nat)
               rest
  end.

(** [s.ewm(span=span).std()], with pandas' default [adjust=True]. *)
Definition ewm_std_adjusted (span : Z) (s : Series) : outcome Series :=
  do alpha <- ewm_alpha span;
  Returned (make_series (index s) (map zsqrt (ewm_var_with true alpha (values s)))).

End PandasEwm.

(** ** ewma_strategy.py: the procedural walk-forward backtest *)

Module EwmaStrategy.
Local Open Scope Z_scope.

(** The series computed by one pass of the loop body. *)
Record window_locals : Type := mk_window_locals {
  wl_forecast : Series;
  wl_positions : Series;
  wl_strategy_returns : Series }.

(** The loop body of [rolling_window_backtest] at cursor [i]. *)
Definition window_body (prices : Series) (fast slow : Z)
           (vol_target capital : float) (train_window test_window : Z) (i : Z)
  : outcome window_locals :=
  (* Training period *)
  let train_prices := iloc prices (i - train_window) i in
  (* Test period *)
  let test_prices := iloc prices i (i + test_window) in
  let test_returns := pct_change test_prices in
  (* Apply strategy on training data *)
  do fast_ewma_train <- ewm_mean fast train_prices;
  do slow_ewma_train <- ewm_mean slow train_prices;
  let raw_signal_train :=
    binop fdiv (binop fsub fast_ewma_train slow_ewma_train) train_prices in
  (* Calculate scaling factor from training data *)
  let scaling_factor :=
    fdiv (Fin 10) (mean (values (smap fabs raw_signal_train))) in
  (* Apply to test data *)
  do fast_ewma_test <- ewm_mean fast test_prices;
  do slow_ewma_test <- ewm_mean slow test_prices;
  let raw_signal_test :=
    binop fdiv (binop fsub fast_ewma_test slow_ewma_test) test_prices in
  let forecast :=
    sclip (Fin (-20)) (Fin 20)
          (smap (fun v => fmul v scaling_factor) raw_signal_test) in
  (* Calculate volatility target and positions *)
  do sd <- PandasEwm.ewm_std_adjusted 25 test_returns;
  let volatility := smap (fun v => fmul v (fsqrt (Fin 256))) sd in
  let instrument_currency_vol := binop fmul volatility test_prices in
  let notional_position :=
    smap (fun v => fdiv (fmul vol_target capital) v) instrument_currency_vol in
  let positions :=
    binop fmul notional_position (smap (fun v => fdiv v (Fin 10)) forecast) in
  (* Calculate returns *)
  let strategy_returns := binop fmul (shift1 positions) test_returns in
  Returned (mk_window_locals forecast positions strategy_returns).

(** The four accumulators. *)
Record accum : Type := mk_accum {
  all_forecasts : list float;
  all_returns : list float;
  all_positions : list float;
  timestamps : list Z }.

(** Store results: each series drops its own missing values. *)
Definition store (acc : accum) (l : window_locals) : accum :=
  mk_accum (all_forecasts acc ++ values (dropna (wl_forecast l)))
           (all_returns acc ++ values (dropna (wl_strategy_returns l)))
           (all_positions acc ++ values (dropna (wl_positions l)))
           (timestamps acc ++ index (dropna (wl_strategy_returns l))).

Fixpoint windows (prices : Series) (fast slow : Z) (vol_target capital : float)
         (train_window test_window : Z) (acc : accum) (cursors : list Z)
  : outcome accum :=
  match cursors with
  | [] => Returned acc
  | i :: rest =>
      do l <- window_body prices fast slow vol_target capital
                          train_window test_window i;
      windows prices fast slow vol_target capital train_window test_window
              (store acc l) rest
  end.

(** The returned dictionary. *)
Record result : Type := mk_result {
  forecasts : Series;
  returns : Series;
  positions : Series }.

(** [rolling_window_backtest(prices, fast, slow, vol_target, capital,
    train_window, test_window)] *)
Definition rolling_window_backtest (prices : Series) (fast slow : Z)
           (vol_target capital : float) (train_window test_window : Z)
  : outcome result :=
  do starts <- Py.range train_window (Z.of_nat (length prices) - test_window)
                        test_window;
  do acc <- windows prices fast slow vol_target capital train_window
                    test_window (mk_accum [] [] [] []) starts;
  do forecasts <- RollingWindowBacktest.new_series (all_forecasts acc) (timestamps acc);
  do returns <- RollingWindowBacktest.new_series (all_returns acc) (timestamps acc);
  do positions <- RollingWindowBacktest.new_series (all_positions acc) (timestamps acc);
  Returned (mk_result forecasts returns positions).

End EwmaStrategy.

(** ** main.py: one strategy run *)

Module Main.

(** The dictionary returned by [run_single_strategy]. *)
Record strategy_run : Type := mk_strategy_run {
  sr_signal : EWMASignal.t;
  sr_results : RollingWindowBacktest.result;
  sr_metrics : option RollingWindowBacktest.metrics;
  sr_backtest : RollingWindowBacktest.t }.

(** The backtest object [run_single_strategy] builds. *)
Definition make_backtest (fast slow : Z) (vol_target : float)
  : RollingWindowBacktest.t :=
  (* Create signal generator *)
  let signal := EWMASignal.mk fast slow in
  (* Create position sizing *)
  let sizing := VolTargetSizing.mk vol_target 25 in
  (* Create backtest *)
  RollingWindowBacktest.mk (RollingWindowBacktest.ewma_signal signal)
                           (RollingWindowBacktest.vol_target_sizing sizing)
                           252 63.

(** [run_single_strategy(prices, fast, slow, vol_target, capital)] *)
Definition run_single_strategy (prices : Series) (fast slow : Z)
           (vol_target capital : float) : outcome strategy_run :=
  let backtest := make_backtest fast slow vol_target in
  (* Run backtest *)
  do results <-
    RollingWindowBacktest.run backtest prices capital (Fin (1 / 10000));
  (* Calculate metrics *)
  let metrics := RollingWindowBacktest.calculate_metrics results in
  Returned (mk_strategy_run (EWMASignal.mk fast slow) results metrics backtest).

End Main.

(** ** test_rollingwindow.py: the expanding-then-rolling window walk *)

Module TestRollingWindow.
Local Open Scope Z_scope.

(** The index bounds computed in one pass of the loop. *)
Record window : Type := mk_window {
  train_idx_front : Z;
  train_idx_back : Z;
  test_idx_front : Z;
  test_idx_back : Z }.

(** [int(end / slices)] with [slices = 20], for a frame of [end_] rows. *)
Definition increment (end_ : Z) : Z := end_ / 20.

Definition desired_window_size : Z := 10.

(** One pass of the loop body from the pointers [start] and [curr]: the
    bounds it computes and the pointers it leaves. *)
Definition pass (end_ start curr : Z) : window * (Z * Z) :=
  let increment := increment end_ in
  (* train indexes *)
  let train_idx_front := start in
  let train_idx_back := curr + increment in
  let curr_win_size := train_idx_back - train_idx_front in
  (* test indexes *)
  let test_idx_front := train_idx_back in
  let test_idx_back := test_idx_front + increment in
  (* increment window until desired size is reached *)
  let start' := if curr_win_size =? desired_window_size then curr else start in
  (* increment curr pointer *)
  (mk_window train_idx_front train_idx_back test_idx_front test_idx_back,
   (start', curr + increment)).

(** The [while curr < end - increment] loop, with a bound on the number of
    passes; [None] when the bound is reached before the loop exits. *)
Fixpoint loop (fuel : nat) (end_ start curr : Z) : option (list window) :=
  if curr <? end_ - increment end_ then
    match fuel with
    | O => None
    | S fuel' =>
        let '(w, (start', curr')) := pass end_ start curr in
        option_map (cons w) (loop fuel' end_ start' curr')
    end
  else Some [].

(** [RollingWindow(df)] for a frame of [end_] rows: the windows it visits. *)
Definition RollingWindow (fuel : nat) (end_ : Z) : option (list window) :=
  loop fuel end_ 0 0.

End TestRollingWindow.

(** ** Further notions used in the statements below *)

Module Notions.
Local Open Scope R_scope.

(** Welford's state with the two columns exchanged. *)
Definition swap_columns (st : PortfolioOptimizer.welford)
  : PortfolioOptimizer.welford :=
  PortfolioOptimizer.mk_welford
    (PortfolioOptimizer.w_nobs st)
    (PortfolioOptimizer.w_meany st) (PortfolioOptimizer.w_meanx st)
    (PortfolioOptimizer.w_ssqdm_y st) (PortfolioOptimizer.w_ssqdm_x st)
    (PortfolioOptimizer.w_covxy st).

(** The Cauchy-Schwarz relation between the sums of a Welford state. *)
Definition cauchy_schwarz (st : PortfolioOptimizer.welford) : Prop :=
  0 <= PortfolioOptimizer.w_ssqdm_x st /\
  0 <= PortfolioOptimizer.w_ssqdm_y st /\
  PortfolioOptimizer.w_covxy st * PortfolioOptimizer.w_covxy st
    <= PortfolioOptimizer.w_ssqdm_x st * PortfolioOptimizer.w_ssqdm_y st.

(** A column that holds two different finite values. *)
Definition varies (col : list float) : Prop :=
  exists a b, In (Fin a) col /\ In (Fin b) col /\ a <> b.

(** Welford's state after a column [seen] has been paired with itself:
    the two sides agree, and the sum of squared deviations tells whether
    the finite values seen are none, all equal, or different. *)
Definition diagonal_state (st : PortfolioOptimizer.welford)
           (seen : list float) : Prop :=
  PortfolioOptimizer.w_meany st = PortfolioOptimizer.w_meanx st /\
  PortfolioOptimizer.w_ssqdm_y st = PortfolioOptimizer.w_ssqdm_x st /\
  PortfolioOptimizer.w_covxy st = PortfolioOptimizer.w_ssqdm_x st /\
  ((PortfolioOptimizer.w_nobs st = 0%nat /\
    PortfolioOptimizer.w_ssqdm_x st = 0 /\
    forall a, ~ In (Fin a) seen) \/
   ((1 <= PortfolioOptimizer.w_nobs st)%nat /\
    PortfolioOptimizer.w_ssqdm_x st = 0 /\
    In (Fin (PortfolioOptimizer.w_meanx st)) seen /\
    forall a, In (Fin a) seen -> a = PortfolioOptimizer.w_meanx st) \/
   ((1 <= PortfolioOptimizer.w_nobs st)%nat /\
    0 < PortfolioOptimizer.w_ssqdm_x st /\
    varies seen)).

(** A value that is missing or not negative. *)
Definition missing_or_nonnegative (v : float) : Prop :=
  isnan v = true \/ fle (Fin 0) v = true.

(** A finite value above zero, and a finite return above -100%. *)
Definition positive_finite (v : float) : Prop :=
  exists c, v = Fin c /\ 0 < c.

Definition return_above_minus_one (v : float) : Prop :=
  exists r, v = Fin r /\ -1 < r.

(** A result with two days of returns: +10% and -5%. *)
Definition two_day_result : RollingWindowBacktest.result :=
  RollingWindowBacktest.mk_result
    [(1%Z, Fin (1 / 10)); (2%Z, Fin (-5 / 100))]
    [(1%Z, Fin 10); (2%Z, Fin (-5))]
    [(1%Z, Fin 1000); (2%Z, Fin (-500))]
    [(1%Z, Fin 0); (2%Z, Fin (15 / 100))]
    [(1%Z, Fin (11 / 10)); (2%Z, Fin (1045 / 1000))].

(** A price series multiplied by a constant (a change of currency unit). *)
Definition rescaled (c : R) (s : Series) : Series :=
  smap (fun v => fmul (Fin c) v) s.

(** The price series of length [n] with labels 0, 1, ... and price 1. *)
Definition flat_prices (n : nat) : Series :=
  map (fun k => (Z.of_nat k, Fin 1)) (seq 0 n).

(** The first [k] entries of a list of values are missing. *)
Definition leading_missing (k : nat) (l : list float) : Prop :=
  forall j v, (j < k)%nat -> nth_error l j = Some v -> v = NaN.

(** A signal object whose forecast carries the labels of the prices it is
    given, as [EWMASignal.get_forecast] does. *)
Definition index_preserving (sig : RollingWindowBacktest.signal_obj) : Prop :=
  forall p kwargs fc,
    RollingWindowBacktest.get_forecast sig [p] kwargs = Returned fc ->
    index fc = index p.

End Notions.
(* ================================================================== *)
(** * Part II.  Properties                                             *)
(* ================================================================== *)

(** ** Deciding comparisons of reals at concrete values *)

Section RealTests.
Local Open Scope R_scope.

Lemma Rltb_true (a b : R) : a < b -> Rltb a b = true.
Proof. unfold Rltb; destruct (Rlt_dec a b); tauto. Qed.

Lemma Rltb_false (a b : R) : b <= a -> Rltb a b = false.
Proof. unfold Rltb; destruct (Rlt_dec a b); [lra | reflexivity]. Qed.

Lemma Reqb_true (a b : R) : a = b -> Reqb a b = true.
Proof. unfold Reqb; destruct (Req_dec_T a b); tauto. Qed.

Lemma Reqb_false (a b : R) : a <> b -> Reqb a b = false.
Proof. unfold Reqb; destruct (Req_dec_T a b); tauto. Qed.

Lemma Rltb_spec (a b : R) : reflect (a < b) (Rltb a b).
Proof. unfold Rltb; destruct (Rlt_dec a b); constructor; assumption. Qed.

Lemma Reqb_spec (a b : R) : reflect (a = b) (Reqb a b).
Proof. unfold Reqb; destruct (Req_dec_T a b); constructor; assumption. Qed.

Lemma sqrt_is_0 (a : R) : a = 0 -> sqrt a = 0.
Proof. intros ->. apply sqrt_0. Qed.

Lemma sqrt_is_1 (a : R) : a = 1 -> sqrt a = 1.
Proof. intros ->. apply sqrt_1. Qed.

Lemma sqrt_is_16 (a : R) : a = 256 -> sqrt a = 16.
Proof.
  intros ->. replace 256 with (16 * 16) by lra. apply sqrt_square; lra.
Qed.

End RealTests.

(** [rdec] settles every real comparison, absolute value and square root
    in the goal that linear arithmetic decides; [feval] alternates it with
    computation. *)
Ltac sqrt_positive :=
  repeat match goal with
  | |- context [sqrt ?a] =>
      lazymatch goal with
      | _ : (0 < sqrt a)%R |- _ => fail
      | _ => assert (0 < sqrt a)%R by (apply sqrt_lt_R0; lra)
      end
  end.

Ltac rsolve := first [ lra | field_simplify; lra | sqrt_positive; lra ].

Ltac rdec_step :=
  match goal with
  | |- context [Rltb ?a ?b] =>
      first [ rewrite (Rltb_true a b) by rsolve
            | rewrite (Rltb_false a b) by rsolve ]
  | |- context [Reqb ?a ?b] =>
      first [ rewrite (Reqb_true a b) by rsolve
            | rewrite (Reqb_false a b) by rsolve ]
  | |- context [Rabs ?a] =>
      first [ rewrite (Rabs_pos_eq a) by rsolve
            | rewrite (Rabs_left1 a) by rsolve ]
  | |- context [sqrt ?a] =>
      first [ rewrite (sqrt_is_0 a) by rsolve
            | rewrite (sqrt_is_1 a) by rsolve
            | rewrite (sqrt_is_16 a) by rsolve ]
  end.

Ltac rdec := repeat rdec_step.

(** [fnorm] brings the real inside a finite float to a normal form. *)
Ltac not_literal e :=
  lazymatch e with
  | IZR _ => fail
  | (IZR _ / IZR _)%R => fail
  | _ => idtac
  end.

Ltac fnorm_at e :=
  not_literal e;
  let x := fresh "x" in
  let H := fresh "H" in
  remember e as x eqn:H in |- *;
  progress (field_simplify in H);
  subst x.

Ltac fnorm_step :=
  match goal with
  | |- context [sqrt ?e] => fnorm_at e
  | |- context [Fin ?e] => fnorm_at e
  end.

Ltac fnorm := repeat fnorm_step.

Ltac feval_values := repeat (progress (cbn; rdec; fnorm)).

Ltac feval :=
  repeat (progress (feval_values;
                    unfold clip, py_max, fgt, fle, fmin2, zsqrt, signed_inf;
                    cbn)).

(** [fclose] proves an equation between evaluated structures whose real
    leaves are equal by arithmetic. *)
Ltac fclose :=
  lazymatch goal with
  | |- @eq R _ _ => rsolve
  | |- ?x = ?y =>
      tryif constr_eq x y then reflexivity
      else (first [ apply f_equal2 | apply f_equal ]; fclose)
  end.

(** ** Python [range] and slices *)

Section PyFacts.
Local Open Scope Z_scope.

Example range_walk_forward : Py.range 252 (400 - 63) 63 = Returned [252; 315].
Proof. reflexivity. Qed.

Example range_exact_fit : Py.range 252 (378 - 63) 63 = Returned [252].
Proof. reflexivity. Qed.

Example range_counting_down : Py.range 20 13 (-3) = Returned [20; 17; 14].
Proof. reflexivity. Qed.

Example slice_inside : Py.slice [10; 11; 12; 13; 14] 1 3 = [11; 12].
Proof. reflexivity. Qed.

Example slice_from_the_end : Py.slice [10; 11; 12; 13; 14] (-3) (-1) = [12; 13].
Proof. reflexivity. Qed.

Example slice_clamped : Py.slice [10; 11; 12; 13; 14] 3 9 = [13; 14].
Proof. reflexivity. Qed.

Example slice_crossed : Py.slice [10; 11; 12; 13; 14] (-1) 2 = [].
Proof. reflexivity. Qed.

Lemma in_count_from (n : nat) (start step i : Z) :
  In i (Py.count_from n start step) <->
  exists k, 0 <= k < Z.of_nat n /\ i = start + k * step.
Proof.
  revert start; induction n as [|n IH]; intros start; simpl Py.count_from.
  - split; [intros [] | intros (k & Hk & _); lia].
  - split.
    + intros [<- | Hin].
      * exists 0; lia.
      * apply IH in Hin as (k & Hk & ->). exists (k + 1); lia.
    + intros (k & Hk & ->).
      destruct (Z.eq_dec k 0) as [-> | Hk0].
      * left; lia.
      * right; apply IH. exists (k - 1); lia.
Qed.

(** For a positive step, [range_len] counts the multiples below [stop]. *)
Lemma range_len_pos (start stop step k : Z) :
  0 < step -> 0 <= k ->
  (k < Py.range_len start stop step <-> start + k * step < stop).
Proof.
  intros Hstep Hk. unfold Py.range_len.
  destruct (Z.ltb_spec 0 step) as [_|]; [|lia].
  destruct (Z.ltb_spec start stop) as [Hlt | Hge].
  - pose proof (Z.div_mod (stop - start - 1) step ltac:(lia)) as Hdm.
    pose proof (Z.mod_pos_bound (stop - start - 1) step Hstep) as Hmod.
    split; intros H; nia.
  - split; intros H; nia.
Qed.

Lemma range_len_nonneg (start stop step : Z) :
  0 < step -> 0 <= Py.range_len start stop step.
Proof.
  intros Hstep. unfold Py.range_len.
  destruct (Z.ltb_spec 0 step) as [_|]; [|lia].
  destruct (Z.ltb_spec start stop); [|lia].
  pose proof (Z.div_pos (stop - start - 1) step ltac:(lia) Hstep). lia.
Qed.

(** Membership in [range(start, stop, step)] for a positive step. *)
Lemma in_range_pos (start stop step i : Z) (l : list Z) :
  0 < step ->
  Py.range start stop step = Returned l ->
  (In i l <-> start <= i < stop /\ (i - start) mod step = 0).
Proof.
  intros Hstep. unfold Py.range.
  destruct (Z.eqb_spec step 0) as [|_]; [lia|].
  intros [= <-]. rewrite in_count_from.
  pose proof (range_len_nonneg start stop step Hstep) as Hlen.
  rewrite Z2Nat.id by exact Hlen.
  split.
  - intros (k & [Hk0 Hk] & ->).
    apply range_len_pos in Hk; [|lia|lia].
    repeat split; [nia | lia |].
    replace (start + k * step - start) with (k * step) by lia.
    apply Z.mod_mul; lia.
  - intros ([Hlo Hhi] & Hmod).
    apply Z.mod_divide in Hmod; [|lia].
    destruct Hmod as [k Hk]. exists k.
    assert (0 <= k) by nia.
    split; [|lia]. split; [lia|].
    apply range_len_pos; [lia|lia|lia].
Qed.

Lemma range_pos_returns (start stop step : Z) :
  0 < step -> exists l, Py.range start stop step = Returned l.
Proof.
  intros Hstep. unfold Py.range.
  destruct (Z.eqb_spec step 0); [lia|]. eexists; reflexivity.
Qed.

(** An empty range: the start is not below the stop. *)
Lemma range_empty (start stop step : Z) :
  0 < step -> stop <= start -> Py.range start stop step = Returned [].
Proof.
  intros Hstep Hle. unfold Py.range, Py.range_len.
  destruct (Z.eqb_spec step 0); [lia|].
  destruct (Z.ltb_spec 0 step); [|lia].
  destruct (Z.ltb_spec start stop); [lia|]. reflexivity.
Qed.

Lemma range_zero_step (start stop : Z) :
  Py.range start stop 0 = Raised ValueError.
Proof. reflexivity. Qed.

Lemma firstn_incl_le {A : Type} (l : list A) (n m : nat) :
  (n <= m)%nat -> incl (firstn n l) (firstn m l).
Proof.
  revert n m; induction l as [|x l IH]; intros n m Hnm.
  - rewrite !firstn_nil. apply incl_refl.
  - destruct n as [|n]; [intros y []|].
    destruct m as [|m]; [lia|].
    simpl. intros y [<- | Hy]; [left; reflexivity|].
    right. apply (IH n m); [lia | exact Hy].
Qed.

(** A slice whose stop lies before the end never reaches the last
    element, whatever the signs of its bounds. *)
Lemma slice_stop_before_end {A : Type} (l : list A) (a b : Z) :
  b < Z.of_nat (length l) ->
  incl (Py.slice l a b) (firstn (length l - 1) l).
Proof.
  intros Hb. unfold Py.slice.
  set (n := Z.of_nat (length l)) in *.
  set (s := Py.slice_bound n a). set (e := Py.slice_bound n b).
  assert (He : e <= Z.max (n - 1) 0 /\ 0 <= e).
  { unfold e, Py.slice_bound. destruct (Z.ltb_spec b 0); lia. }
  assert (Hs : 0 <= s).
  { unfold s, Py.slice_bound. destruct (Z.ltb_spec a 0); lia. }
  intros x Hx.
  destruct (Z.le_gt_cases e s) as [Hle | Hgt].
  - replace (Z.to_nat (e - s)) with 0%nat in Hx by lia. destruct Hx.
  - apply (firstn_incl_le l (Z.to_nat e)); [lia|].
    rewrite <- (firstn_skipn (Z.to_nat s) l) at 1.
    rewrite firstn_app.
    apply in_or_app. right.
    rewrite length_firstn.
    replace (Z.to_nat e - Init.Nat.min (Z.to_nat s) (length l))%nat
      with (Z.to_nat (e - s)) by lia.
    exact Hx.
Qed.

End PyFacts.

(** ** The walk-forward cursor *)

Section WalkForwardCursor.
Import RollingWindowBacktest.
Local Open Scope Z_scope.

Lemma cursors_returns (self : t) (n : Z) :
  0 < test_window self -> exists l, cursors self n = Returned l.
Proof. intros H. apply range_pos_returns, H. Qed.

(** C1, as stated, fails: on 400 prices with train_window = 252 and
    test_window = 63 the cursor also takes the value 315, a second complete
    window; and on 378 prices the cursor value 315 = 378 - 63 satisfies
    [i <= length - test_window] but is not visited. *)
Lemma C1_cursor_counterexample :
  (exists l, cursors Scenarios.main_backtest 400 = Returned l /\
             In 315 l /\ 315 <> 252) /\
  (exists l, cursors Scenarios.main_backtest 378 = Returned l /\
             315 <= 378 - test_window Scenarios.main_backtest /\ ~ In 315 l).
Proof.
  split.
  - exists [252; 315]. split; [reflexivity|]. split; [simpl; auto | lia].
  - exists [252]. split; [reflexivity|]. split; [simpl; lia|].
    simpl. intros [H | []]; lia.
Qed.

(** C1 (amended): for a positive test_window the cursor ranges over
    exactly the values i with train_window <= i < length - test_window
    (strictly below) that lie a whole number of test_window strides above
    train_window; on 400 prices with train_window = 252 and
    test_window = 63 these are 252 and 315, two train/test windows, and the
    cursor stops before 337. *)
Theorem C1_cursor_values (self : t) (n : Z) :
  0 < test_window self ->
  exists l,
    cursors self n = Returned l /\
    (forall i, In i l <->
               train_window self <= i < n - test_window self /\
               (i - train_window self) mod test_window self = 0) /\
    (train_window self = 252 -> test_window self = 63 -> n = 400 ->
     l = [252; 315]).
Proof.
  intros Hpos.
  destruct (cursors_returns self n Hpos) as [l Hl].
  exists l. split; [exact Hl|]. split.
  - intros i. apply in_range_pos; assumption.
  - intros Htr Hte ->. unfold cursors in Hl. rewrite Htr, Hte in Hl.
    vm_compute in Hl. congruence.
Qed.

Lemma C1_cursor_values_witness :
  0 < test_window Scenarios.main_backtest /\
  exists l,
    cursors Scenarios.main_backtest 400 = Returned l /\
    (forall i, In i l <->
               train_window Scenarios.main_backtest <= i
                 < 400 - test_window Scenarios.main_backtest /\
               (i - train_window Scenarios.main_backtest)
                 mod test_window Scenarios.main_backtest = 0) /\
    (train_window Scenarios.main_backtest = 252 ->
     test_window Scenarios.main_backtest = 63 -> 400 = 400 ->
     l = [252; 315]).
Proof.
  split; [reflexivity|].
  apply (C1_cursor_values Scenarios.main_backtest 400). reflexivity.
Defined.

End WalkForwardCursor.

(** ** Floats and Series: elementary facts *)

Section FloatFacts.
Local Open Scope R_scope.

Lemma feqb_refl (x : float) : isnan x = false -> feqb x x = true.
Proof.
  destruct x; simpl; try reflexivity; [discriminate|].
  intros _. apply Reqb_true. reflexivity.
Qed.

Lemma flt_fin (a b : R) : flt (Fin a) (Fin b) = Rltb a b.
Proof. reflexivity. Qed.

Lemma fle_fin (a b : R) : fle (Fin a) (Fin b) = true <-> a <= b.
Proof.
  unfold fle; simpl.
  destruct (Rltb_spec a b); destruct (Reqb_spec a b); simpl;
    split; intros; try reflexivity; try discriminate; lra.
Qed.

(** Clipping to a finite interval: the result is NaN or inside it. *)
Lemma clip_bounds (lo hi : R) (x : float) :
  lo <= hi ->
  isnan (clip (Fin lo) (Fin hi) x) = false ->
  fle (Fin lo) (clip (Fin lo) (Fin hi) x) = true /\
  fle (clip (Fin lo) (Fin hi) x) (Fin hi) = true.
Proof.
  intros Hlohi. unfold clip, fgt.
  destruct x as [| | |a]; simpl.
  - discriminate.
  - intros _. rewrite !fle_fin. lra.
  - intros _. rewrite !fle_fin. lra.
  - destruct (Rltb_spec a lo); [intros _; rewrite !fle_fin; lra|].
    destruct (Rltb_spec hi a); intros _; rewrite !fle_fin; lra.
Qed.

Lemma clip_nan (lo hi : float) : clip lo hi NaN = NaN.
Proof. destruct lo, hi; reflexivity. Qed.

Lemma in_smap (f : float -> float) (s : Series) (t : Z) (v : float) :
  In (t, v) (smap f s) -> exists u, In (t, u) s /\ v = f u.
Proof.
  unfold smap. rewrite in_map_iff.
  intros ([t' u] & [= <- <-] & Hin). exists u. split; [exact Hin | reflexivity].
Qed.

Lemma index_smap (f : float -> float) (s : Series) : index (smap f s) = index s.
Proof. unfold index, smap. rewrite map_map. reflexivity. Qed.

Lemma length_smap (f : float -> float) (s : Series) : length (smap f s) = length s.
Proof. apply length_map. Qed.

Lemma index_eqb_refl (l : list Z) : index_eqb l l = true.
Proof. induction l as [|x l IH]; simpl; [reflexivity|]. rewrite Z.eqb_refl; exact IH. Qed.

Lemma index_eqb_eq (a b : list Z) : index_eqb a b = true <-> a = b.
Proof.
  revert b; induction a as [|x a IH]; intros [|y b]; simpl;
    try (split; [discriminate | discriminate]); [tauto|].
  rewrite andb_true_iff, Z.eqb_eq, IH. split; [intros [-> ->]; reflexivity|].
  intros [= -> ->]; split; reflexivity.
Qed.

Lemma index_make_series (idx : list Z) (vals : list float) :
  length idx = length vals -> index (make_series idx vals) = idx.
Proof.
  unfold index, make_series. revert vals.
  induction idx as [|t idx IH]; intros [|v vals]; simpl; try discriminate;
    [reflexivity|]. intros [= H]. rewrite IH by exact H. reflexivity.
Qed.

Lemma values_make_series (idx : list Z) (vals : list float) :
  length idx = length vals -> values (make_series idx vals) = vals.
Proof.
  unfold values, make_series. revert vals.
  induction idx as [|t idx IH]; intros [|v vals]; simpl; try discriminate;
    [reflexivity|]. intros [= H]. rewrite IH by exact H. reflexivity.
Qed.

Lemma length_index (s : Series) : length (index s) = length s.
Proof. apply length_map. Qed.

Lemma length_values (s : Series) : length (values s) = length s.
Proof. apply length_map. Qed.

End FloatFacts.

(** ** The forecast generator *)

Section ForecastGenerator.
Import EWMASignal Scenarios.
Local Open Scope R_scope.

Lemma ewm_alpha_valid (span : Z) :
  (1 <= span)%Z -> ewm_alpha span = Returned (2 / (IZR span + 1)).
Proof.
  intros H. unfold ewm_alpha. destruct (Z.ltb_spec span 1); [lia | reflexivity].
Qed.

Lemma ewm_mean_valid (span : Z) (s : Series) :
  (1 <= span)%Z ->
  ewm_mean span s =
  Returned (make_series (index s)
              (ewma (ewm_com span) (2 / (IZR span + 1)) (values s))).
Proof. intros H. unfold ewm_mean. rewrite ewm_alpha_valid by exact H. reflexivity. Qed.

(** With spans of at least 1, [get_forecast] raises nothing. *)
Lemma get_forecast_locals_returns (self : t) (prices : Series)
      (train_prices : option Series) :
  (1 <= fast self)%Z -> (1 <= slow self)%Z ->
  exists l, get_forecast_locals self prices train_prices = Returned l.
Proof.
  intros Hf Hs. unfold get_forecast_locals.
  rewrite !ewm_mean_valid by assumption. simpl. eexists; reflexivity.
Qed.

Lemma get_forecast_returns (self : t) (prices : Series)
      (train_prices : option Series) :
  (1 <= fast self)%Z -> (1 <= slow self)%Z ->
  exists fc, get_forecast self prices train_prices = Returned fc.
Proof.
  intros Hf Hs. unfold get_forecast.
  destruct (get_forecast_locals_returns self prices train_prices Hf Hs) as [l ->].
  simpl. eexists; reflexivity.
Qed.

(** The forecast is the clipped product of the raw signal and the scaling
    factor. *)
Lemma get_forecast_locals_forecast (self : t) (prices : Series)
      (train_prices : option Series) (l : locals) :
  get_forecast_locals self prices train_prices = Returned l ->
  forecast l =
  sclip (Fin (-20)) (Fin 20)
        (smap (fun v => fmul v (scaling_factor l)) (raw_signal l)).
Proof.
  unfold get_forecast_locals.
  destruct (ewm_mean (fast self) prices); [|discriminate].
  destruct (ewm_mean (slow self) prices); [|discriminate].
  simpl.
  destruct (ewm_mean (fast self) _); [|discriminate].
  destruct (ewm_mean (slow self) _); [|discriminate].
  simpl. intros [= <-]. reflexivity.
Qed.

(** The scaling factor the body computes from a reference series. *)
Lemma get_forecast_locals_scaling (self : t) (prices reference : Series)
      (l : locals) :
  get_forecast_locals self prices (Some reference) = Returned l ->
  exists fe se,
    ewm_mean (fast self) reference = Returned fe /\
    ewm_mean (slow self) reference = Returned se /\
    scaling_raw l = binop fdiv (binop fsub fe se) reference /\
    scaling_factor l = fdiv (Fin 10) (mean (values (smap fabs (scaling_raw l)))).
Proof.
  unfold get_forecast_locals.
  destruct (ewm_mean (fast self) prices); [|discriminate].
  destruct (ewm_mean (slow self) prices); [|discriminate].
  simpl.
  destruct (ewm_mean (fast self) reference) as [fe|]; [|discriminate].
  destruct (ewm_mean (slow self) reference) as [se|]; [|discriminate].
  simpl. intros [= <-]. exists fe, se. auto.
Qed.

(** C2: with a training series given, the scaling factor of a
    [get_forecast] call is determined by that series alone: two calls on
    different evaluation prices with the same training series use the same
    scaling factor, and each forecast is its own raw signal times that
    factor, clipped. *)
Theorem C2_scaling_factor_from_reference_only
        (self : t) (prices1 prices2 reference : Series) (l1 l2 : locals) :
  get_forecast_locals self prices1 (Some reference) = Returned l1 ->
  get_forecast_locals self prices2 (Some reference) = Returned l2 ->
  scaling_factor l1 = scaling_factor l2 /\
  get_forecast self prices1 (Some reference) =
    Returned (sclip (Fin (-20)) (Fin 20)
                (smap (fun v => fmul v (scaling_factor l1)) (raw_signal l1))) /\
  get_forecast self prices2 (Some reference) =
    Returned (sclip (Fin (-20)) (Fin 20)
                (smap (fun v => fmul v (scaling_factor l1)) (raw_signal l2))).
Proof.
  intros H1 H2.
  assert (Hsf : scaling_factor l1 = scaling_factor l2).
  { destruct (get_forecast_locals_scaling _ _ _ _ H1) as (fe & se & Hfe & Hse & Hr & ->).
    destruct (get_forecast_locals_scaling _ _ _ _ H2) as (fe' & se' & Hfe' & Hse' & Hr' & ->).
    congruence. }
  split; [exact Hsf|].
  unfold get_forecast. rewrite H1, H2. simpl.
  rewrite (get_forecast_locals_forecast _ _ _ _ H1).
  rewrite (get_forecast_locals_forecast _ _ _ _ H2).
  rewrite Hsf. split; reflexivity.
Qed.

Lemma C2_scaling_factor_witness :
  exists l1 l2,
    get_forecast_locals (mk 8 32) [(0%Z, Fin 100); (1%Z, Fin 110)]
                        (Some [(0%Z, Fin 1); (1%Z, Fin 2)]) = Returned l1 /\
    get_forecast_locals (mk 8 32) [(0%Z, Fin 7); (1%Z, Fin 5); (2%Z, Fin 6)]
                        (Some [(0%Z, Fin 1); (1%Z, Fin 2)]) = Returned l2 /\
    scaling_factor l1 = scaling_factor l2.
Proof.
  eexists. eexists. split; [reflexivity|]. split; [reflexivity|].
  eapply (C2_scaling_factor_from_reference_only (mk 8 32)); reflexivity.
Defined.

End ForecastGenerator.

(** ** Constant price series *)

Section ConstantSeries.
Import EWMASignal Scenarios.
Local Open Scope R_scope.

Lemma index_const_series (idx : list Z) (c : float) :
  index (const_series idx c) = idx.
Proof.
  unfold index, const_series. rewrite map_map. simpl. apply map_id.
Qed.

Lemma values_const_series (idx : list Z) (c : float) :
  values (const_series idx c) = map (fun _ => c) idx.
Proof. unfold values, const_series. rewrite map_map. reflexivity. Qed.

Lemma make_const_series (idx : list Z) (c : float) :
  make_series idx (map (fun _ => c) idx) = const_series idx c.
Proof.
  unfold make_series, const_series.
  induction idx as [|t idx IH]; simpl; [reflexivity | rewrite IH; reflexivity].
Qed.

Lemma smap_const_series (f : float -> float) (idx : list Z) (c : float) :
  smap f (const_series idx c) = const_series idx (f c).
Proof. unfold smap, const_series. rewrite map_map. reflexivity. Qed.

Lemma zip_with_const_series (f : float -> float -> float) (idx : list Z)
      (x y : float) :
  zip_with f (const_series idx x) (const_series idx y) = const_series idx (f x y).
Proof.
  unfold const_series.
  induction idx as [|t idx IH]; simpl; [reflexivity | rewrite IH; reflexivity].
Qed.

Lemma binop_const_series (f : float -> float -> float) (idx : list Z)
      (x y : float) :
  binop f (const_series idx x) (const_series idx y) = const_series idx (f x y).
Proof.
  unfold binop. rewrite !index_const_series, index_eqb_refl.
  apply zip_with_const_series.
Qed.

(** The recursive average of a constant series is that constant: the
    update is skipped when the new value equals the running average. *)
Lemma ewma_loop_const (com alpha : R) (c : float) (idx : list Z) (w : R) :
  ewma_loop com alpha c w (map (fun _ => c) idx) = map (fun _ => c) idx.
Proof.
  revert w; induction idx as [|t idx IH]; intros w; simpl; [reflexivity|].
  destruct (isnan c) eqn:Hc.
  - rewrite IH. reflexivity.
  - rewrite (feqb_refl c Hc), IH. reflexivity.
Qed.

Lemma ewm_mean_const (span : Z) (idx : list Z) (c : float) :
  (1 <= span)%Z ->
  ewm_mean span (const_series idx c) = Returned (const_series idx c).
Proof.
  intros H. rewrite ewm_mean_valid by exact H.
  rewrite index_const_series, values_const_series.
  f_equal. rewrite <- make_const_series. f_equal.
  destruct idx as [|t idx]; simpl; [reflexivity|].
  rewrite ewma_loop_const. reflexivity.
Qed.

(** The raw crossover signal of a constant price: zero, or NaN when the
    price itself is zero or not finite. *)
Lemma raw_signal_of_constant (c : float) :
  fdiv (fsub c c) c = NaN \/ fdiv (fsub c c) c = Fin 0.
Proof.
  destruct c as [| | |a]; simpl; auto.
  destruct (Reqb_spec a 0) as [-> | Ha].
  - left. unfold signed_inf. rewrite Reqb_true by lra. reflexivity.
  - right. f_equal. field. exact Ha.
Qed.

Lemma fsum_const_fin (n : nat) (a z : R) :
  fold_left fadd (repeat (Fin z) n) (Fin a) = Fin (a + INR n * z).
Proof.
  revert a; induction n as [|n IH]; intros a.
  - simpl. f_equal. lra.
  - cbn [repeat fold_left fadd]. rewrite IH. f_equal. rewrite S_INR. lra.
Qed.

Lemma map_const_repeat {A B : Type} (l : list A) (b : B) :
  map (fun _ => b) l = repeat b (length l).
Proof. induction l as [|x l IH]; simpl; [reflexivity | rewrite IH; reflexivity]. Qed.

Lemma present_repeat_fin (z : R) (n : nat) :
  present (repeat (Fin z) n) = repeat (Fin z) n.
Proof.
  unfold present. induction n as [|n IH]; simpl; [reflexivity|].
  rewrite IH. reflexivity.
Qed.

(** The mean of a non-empty series of zeros is zero. *)
Lemma mean_zeros (n : nat) : mean (repeat (Fin 0) (S n)) = Fin 0.
Proof.
  unfold mean, count, sum, fsum. rewrite present_repeat_fin, repeat_length.
  rewrite fsum_const_fin. unfold of_nat.
  assert (Hn : INR (S n) <> 0) by (apply not_0_INR; discriminate).
  unfold fdiv. rewrite Reqb_false by exact Hn. f_equal. field. exact Hn.
Qed.

(** A constant price series used as its own reference: every forecast is
    NaN, and nothing is raised. *)
Lemma get_forecast_constant (self : t) (idx : list Z) (c : float) :
  (1 <= fast self)%Z -> (1 <= slow self)%Z ->
  get_forecast self (const_series idx c) None =
  Returned (const_series idx NaN).
Proof.
  intros Hf Hs. unfold get_forecast, get_forecast_locals.
  rewrite !ewm_mean_const by assumption. simpl.
  rewrite !binop_const_series. unfold sclip.
  rewrite !smap_const_series, values_const_series.
  f_equal.
  destruct idx as [|t idx]; [reflexivity|].
  f_equal. rewrite map_const_repeat.
  destruct (raw_signal_of_constant c) as [-> | ->].
  - simpl fmul. apply clip_nan.
  - replace (fabs (Fin 0)) with (Fin 0) by (simpl; rewrite Rabs_R0; reflexivity).
    cbn [length]. rewrite mean_zeros.
    unfold fdiv. rewrite Reqb_true by reflexivity.
    unfold signed_inf. rewrite Reqb_false by lra. rewrite Rltb_true by lra.
    cbn [fmul]. unfold signed_inf. rewrite Reqb_true by reflexivity.
    reflexivity.
Qed.

End ConstantSeries.

(** ** The forecast scale and degenerate references *)

Section ForecastScale.
Import EWMASignal Scenarios.
Local Open Scope R_scope.

Lemma sclip_in_scale (s : Series) (t : Z) (v : float) :
  In (t, v) (sclip (Fin (-20)) (Fin 20) s) -> isnan v = false -> in_scale v.
Proof.
  intros Hin Hv. apply in_smap in Hin as (u & _ & ->).
  apply clip_bounds; [lra | exact Hv].
Qed.

Lemma get_forecast_in_scale (self : t) (prices : Series)
      (train_prices : option Series) (fc : Series) (ts : Z) (v : float) :
  get_forecast self prices train_prices = Returned fc ->
  In (ts, v) fc -> isnan v = false -> in_scale v.
Proof.
  unfold get_forecast.
  destruct (get_forecast_locals self prices train_prices) as [l|] eqn:Hl;
    [|discriminate].
  simpl. intros [= <-].
  rewrite (get_forecast_locals_forecast _ _ _ _ Hl). apply sclip_in_scale.
Qed.

Lemma combine_forecasts_in_scale (opt : PortfolioOptimizer.t)
      (d : PortfolioOptimizer.forecasts_dict)
      (w : option (list (string * float))) (ts : Z) (v : float) :
  In (ts, v) (PortfolioOptimizer.combine_forecasts opt d w) ->
  isnan v = false -> in_scale v.
Proof. unfold PortfolioOptimizer.combine_forecasts. apply sclip_in_scale. Qed.

(** C3: every value present (not NaN) in a forecast series returned by
    [EWMASignal.get_forecast] or by [PortfolioOptimizer.combine_forecasts]
    lies in the closed interval [-20, 20]. *)
Theorem C3_forecast_values_in_scale (fc : Series) :
  (exists self prices train_prices,
      get_forecast self prices train_prices = Returned fc) \/
  (exists opt d w, fc = PortfolioOptimizer.combine_forecasts opt d w) ->
  forall ts v, In (ts, v) fc -> isnan v = false ->
               fle (Fin (-20)) v = true /\ fle v (Fin 20) = true.
Proof.
  intros [(self & prices & tp & H) | (opt & d & w & ->)] ts v Hin Hv.
  - exact (get_forecast_in_scale _ _ _ _ _ _ H Hin Hv).
  - exact (combine_forecasts_in_scale _ _ _ _ _ Hin Hv).
Qed.

(** A rising two-point price series: the forecast is 0 and then the cap. *)
Lemma get_forecast_rising :
  get_forecast (mk 1 3) [(0%Z, Fin 1); (1%Z, Fin 2)] None =
  Returned [(0%Z, Fin 0); (1%Z, Fin 20)].
Proof.
  unfold get_forecast, get_forecast_locals, ewm_mean, ewm_alpha, ewm_com.
  feval. fclose.
Qed.

Lemma C3_forecast_values_in_scale_witness :
  fle (Fin (-20)) (Fin 20) = true /\ fle (Fin 20) (Fin 20) = true.
Proof.
  apply (C3_forecast_values_in_scale [(0%Z, Fin 0); (1%Z, Fin 20)]) with (ts := 1%Z).
  - left. exists (mk 1 3), [(0%Z, Fin 1); (1%Z, Fin 2)], None.
    exact get_forecast_rising.
  - simpl. auto.
  - reflexivity.
Defined.

(** C4, as stated, fails: on a constant price series [get_forecast]
    returns a series (of NaN) and raises nothing. *)
Lemma C4_constant_prices_counterexample :
  get_forecast (mk 8 32) (const_series [0; 1; 2]%Z (Fin 100)) None =
    Returned [(0%Z, NaN); (1%Z, NaN); (2%Z, NaN)] /\
  forall e, get_forecast (mk 8 32) (const_series [0; 1; 2]%Z (Fin 100)) None
            <> Raised e.
Proof.
  assert (H : get_forecast (mk 8 32) (const_series [0; 1; 2]%Z (Fin 100)) None =
              Returned (const_series [0; 1; 2]%Z NaN))
    by (apply get_forecast_constant; simpl; lia).
  split; [exact H|]. intros e He. rewrite H in He. discriminate.
Qed.

(** C4 (amended): with spans of at least 1 the forecast generator raises
    no error for any price series; it divides 10 by the reference magnitude
    as numpy does, so a zero magnitude gives the scaling factor +inf, and
    for a constant price series used as its own reference every forecast
    value is missing (NaN). *)
Theorem C4_degenerate_reference_returns (self : t) (prices : Series)
        (train_prices : option Series) :
  (1 <= fast self)%Z -> (1 <= slow self)%Z ->
  exists l,
    get_forecast_locals self prices train_prices = Returned l /\
    get_forecast self prices train_prices = Returned (forecast l) /\
    scaling_factor l =
      fdiv (Fin 10) (mean (values (smap fabs (scaling_raw l)))) /\
    (mean (values (smap fabs (scaling_raw l))) = Fin 0 ->
     scaling_factor l = PInf) /\
    (forall idx c, prices = const_series idx c -> train_prices = None ->
                   forecast l = const_series idx NaN).
Proof.
  intros Hf Hs.
  destruct (get_forecast_locals_returns self prices train_prices Hf Hs) as [l Hl].
  exists l. split; [exact Hl|].
  assert (Hfc : get_forecast self prices train_prices = Returned (forecast l)).
  { unfold get_forecast. rewrite Hl. reflexivity. }
  split; [exact Hfc|].
  assert (Hsf : scaling_factor l =
                fdiv (Fin 10) (mean (values (smap fabs (scaling_raw l))))).
  { revert Hl. unfold get_forecast_locals.
    rewrite !ewm_mean_valid by assumption. simpl. intros [= <-]. reflexivity. }
  split; [exact Hsf|]. split.
  - intros Hm. rewrite Hsf, Hm. unfold fdiv, signed_inf.
    rewrite Reqb_true by reflexivity. rewrite Reqb_false by lra.
    rewrite Rltb_true by lra. reflexivity.
  - intros idx c -> ->.
    rewrite (get_forecast_constant self idx c Hf Hs) in Hfc. congruence.
Qed.

Lemma C4_degenerate_reference_returns_witness :
  exists l,
    get_forecast_locals (mk 8 32) (const_series [0; 1; 2]%Z (Fin 100)) None
      = Returned l /\
    forecast l = const_series [0; 1; 2]%Z NaN.
Proof.
  destruct (C4_degenerate_reference_returns
              (mk 8 32) (const_series [0; 1; 2]%Z (Fin 100)) None
              ltac:(simpl; lia) ltac:(simpl; lia))
    as (l & Hl & _ & _ & _ & Hc).
  exists l. split; [exact Hl|].
  apply (Hc [0; 1; 2]%Z (Fin 100)); reflexivity.
Defined.

End ForecastScale.

(** ** The position sizer *)

Section PositionSizer.
Import VolTargetSizing.
Local Open Scope R_scope.

Lemma index_combine (idx : list Z) (vals : list float) :
  (length idx <= length vals)%nat -> index (combine idx vals) = idx.
Proof.
  unfold index. revert vals.
  induction idx as [|t idx IH]; intros [|v vals] H; simpl in *;
    try reflexivity; try lia.
  rewrite IH by lia. reflexivity.
Qed.

Lemma index_shift1 (s : Series) : index (shift1 s) = index s.
Proof.
  unfold shift1, make_series. apply index_combine.
  rewrite length_index. simpl.
  rewrite removelast_firstn_len, length_firstn, length_values. lia.
Qed.

Lemma index_zip_with (f : float -> float -> float) (a b : Series) :
  index a = index b -> index (zip_with f a b) = index a.
Proof.
  unfold index. revert b.
  induction a as [|[t x] a IH]; intros [|[t' y] b]; simpl; try discriminate;
    [reflexivity|].
  intros [= -> H]. rewrite IH by exact H. reflexivity.
Qed.

Lemma binop_same_index (f : float -> float -> float) (a b : Series) :
  index a = index b -> binop f a b = zip_with f a b.
Proof.
  intros H. unfold binop. rewrite H, index_eqb_refl. reflexivity.
Qed.

Lemma index_binop_same (f : float -> float -> float) (a b : Series) :
  index a = index b -> index (binop f a b) = index a.
Proof.
  intros H. rewrite binop_same_index by exact H. apply index_zip_with, H.
Qed.

Lemma index_pct_change (s : Series) : index (pct_change s) = index s.
Proof.
  unfold pct_change. rewrite index_smap.
  apply index_binop_same. symmetry. apply index_shift1.
Qed.

Lemma length_ewm_var_loop (alpha : R) (st : ewm_state) (xs : list float) :
  length (ewm_var_loop alpha st xs) = length xs.
Proof.
  revert st; induction xs as [|x xs IH]; intros st; simpl;
    [reflexivity | rewrite IH; reflexivity].
Qed.

Lemma length_ewm_var (alpha : R) (xs : list float) :
  length (ewm_var alpha xs) = length xs.
Proof.
  destruct xs as [|x xs]; simpl; [reflexivity|].
  rewrite length_ewm_var_loop. reflexivity.
Qed.

Lemma ewm_std_valid (span : Z) (s : Series) :
  (1 <= span)%Z ->
  ewm_std span s =
  Returned (make_series (index s)
              (map zsqrt (ewm_var (2 / (IZR span + 1)) (values s)))).
Proof. intros H. unfold ewm_std. rewrite ewm_alpha_valid by exact H. reflexivity. Qed.


(** Reading a Series by label. *)
Lemma get_some_in_index (ts : Z) (s : Series) (v : float) :
  get ts s = Some v -> In ts (index s).
Proof.
  induction s as [|[t' x] s IH]; simpl; [discriminate|].
  destruct (Z.eqb_spec ts t') as [-> | _]; [left; reflexivity|].
  intros H. right. apply IH, H.
Qed.

Lemma in_index_get (ts : Z) (s : Series) :
  In ts (index s) -> exists v, get ts s = Some v.
Proof.
  induction s as [|[t' x] s IH]; simpl; [intros []|].
  destruct (Z.eqb_spec ts t') as [-> | Hne].
  - intros _. exists x. reflexivity.
  - intros [H | H]; [congruence | apply IH, H].
Qed.

Lemma get_smap (f : float -> float) (ts : Z) (s : Series) :
  get ts (smap f s) = option_map f (get ts s).
Proof.
  induction s as [|[t' x] s IH]; simpl; [reflexivity|].
  destruct (Z.eqb ts t'); [reflexivity | exact IH].
Qed.

Lemma get_zip_with (f : float -> float -> float) (a b : Series) (ts : Z)
      (x : float) :
  index a = index b ->
  get ts a = Some x ->
  exists y, get ts b = Some y /\ get ts (zip_with f a b) = Some (f x y).
Proof.
  unfold index. revert b.
  induction a as [|[t' x'] a IH]; intros [|[t'' y'] b]; simpl;
    try discriminate.
  intros [= -> H].
  destruct (Z.eqb ts t'').
  - intros [= ->]. exists y'. split; reflexivity.
  - apply IH, H.
Qed.

Lemma in_insert_label (x t : Z) (l : list Z) :
  In x (insert_label t l) <-> x = t \/ In x l.
Proof.
  induction l as [|y l IH]; simpl; [intuition|].
  destruct (Z.ltb t y); [simpl; intuition|].
  destruct (Z.eqb_spec t y) as [-> | _]; simpl; [intuition|].
  rewrite IH. intuition.
Qed.

Lemma in_union_index (x : Z) (a b : list Z) :
  In x (union_index a b) <-> In x a \/ In x b.
Proof.
  unfold union_index. rewrite <- in_app_iff.
  induction (a ++ b) as [|y l IH]; simpl; [tauto|].
  rewrite in_insert_label, IH. intuition.
Qed.

Lemma get_tabulate (g : Z -> float) (ts : Z) (idx : list Z) :
  In ts idx -> get ts (map (fun t => (t, g t)) idx) = Some (g ts).
Proof.
  induction idx as [|t idx IH]; simpl; [intros []|].
  destruct (Z.eqb_spec ts t) as [-> | Hne]; [reflexivity|].
  intros [H | H]; [congruence | apply IH, H].
Qed.

(** The result of a binary operation at a label of its left operand. *)
Lemma get_binop_left (f : float -> float -> float) (a b : Series) (ts : Z)
      (x : float) :
  get ts a = Some x ->
  get ts (binop f a b) = Some (f x (get_or_nan ts b)).
Proof.
  intros Ha. unfold binop.
  destruct (index_eqb (index a) (index b)) eqn:Hi.
  - apply index_eqb_eq in Hi.
    destruct (get_zip_with f a b ts x Hi Ha) as (y & Hb & Hz).
    unfold get_or_nan. rewrite Hb. exact Hz.
  - rewrite (get_tabulate (fun t => f (get_or_nan t a) (get_or_nan t b))).
    + unfold get_or_nan at 1. rewrite Ha. reflexivity.
    + apply in_union_index. left. apply (get_some_in_index _ _ _ Ha).
Qed.

Lemma fdiv_nan_r (x : float) : fdiv x NaN = NaN.
Proof. destruct x; reflexivity. Qed.

Lemma fmul_nan_r (x : float) : fmul x NaN = NaN.
Proof. destruct x; reflexivity. Qed.

Lemma signed_inf_not_finite (a : R) : isfinite (signed_inf a PInf NInf) = false.
Proof. unfold signed_inf. destruct (Reqb a 0), (Rltb 0 a); reflexivity. Qed.

Lemma signed_inf_not_finite' (a : R) : isfinite (signed_inf a NInf PInf) = false.
Proof. unfold signed_inf. destruct (Reqb a 0), (Rltb 0 a); reflexivity. Qed.

(** Anything multiplied by a non-finite value is non-finite. *)
Lemma fmul_not_finite (x y : float) :
  isfinite x = false -> isfinite (fmul x y) = false.
Proof.
  destruct x as [| | |a]; [| | |discriminate]; intros _;
    destruct y as [| | |b]; simpl; try reflexivity;
    auto using signed_inf_not_finite, signed_inf_not_finite'.
Qed.

(** Dividing by a zero volatility (times any price) never gives a finite
    number. *)
Lemma fdiv_by_zero_vol (c price : float) :
  isfinite (fdiv c (fmul (Fin 0) price)) = false.
Proof.
  destruct price as [| | |p]; simpl.
  - rewrite fdiv_nan_r. reflexivity.
  - unfold signed_inf. rewrite Reqb_true by reflexivity.
    rewrite fdiv_nan_r. reflexivity.
  - unfold signed_inf. rewrite Reqb_true by reflexivity.
    rewrite fdiv_nan_r. reflexivity.
  - destruct c as [| | |a]; simpl; try reflexivity.
    + destruct (Rltb (0 * p) 0); reflexivity.
    + destruct (Rltb (0 * p) 0); reflexivity.
    + rewrite Reqb_true by lra. apply signed_inf_not_finite.
Qed.

(** The position at a label of the volatility estimate. *)
Lemma get_position_size_at (self : t) (forecast prices : Series)
      (capital : float) (vol : Series) (ts : Z) (sigma : float) :
  calculate_volatility self prices = Returned vol ->
  get ts vol = Some sigma ->
  exists pos,
    get_position_size self forecast prices capital = Returned pos /\
    get ts pos =
      Some (fmul (fdiv (fmul (vol_target self) capital)
                       (fmul sigma (get_or_nan ts prices)))
                 (get_or_nan ts (smap (fun v => fdiv v (Fin 10)) forecast))).
Proof.
  intros Hvol Hk. unfold get_position_size. rewrite Hvol. simpl.
  eexists. split; [reflexivity|].
  apply get_binop_left. rewrite get_smap.
  rewrite (get_binop_left fmul vol prices ts sigma Hk). reflexivity.
Qed.





End PositionSizer.

(** ** The walk-forward engine: runs without windows *)

Section EmptyRuns.
Import RollingWindowBacktest.
Local Open Scope Z_scope.

Lemma run_no_windows (self : t) (prices : Series) (capital cost : float) :
  cursors self (Z.of_nat (length prices)) = Returned [] ->
  run self prices capital cost = Returned empty_result.
Proof. intros H. unfold run. rewrite H. reflexivity. Qed.

Lemma run_cursors_raise (self : t) (prices : Series) (capital cost : float)
      (e : exn) :
  cursors self (Z.of_nat (length prices)) = Raised e ->
  run self prices capital cost = Raised e.
Proof. intros H. unfold run. rewrite H. reflexivity. Qed.

(** A history shorter than train_window + test_window: the cursor has no
    value at all. *)
Lemma cursors_short_history (self : t) (n : Z) :
  0 < test_window self ->
  n <= train_window self + test_window self ->
  cursors self n = Returned [].
Proof. intros Hpos Hn. apply range_empty; lia. Qed.

Lemma calculate_metrics_empty : calculate_metrics empty_result = None.
Proof. reflexivity. Qed.

Lemma calculate_metrics_no_rows (res : result) :
  length (returns res) = 0%nat -> calculate_metrics res = None.
Proof.
  unfold calculate_metrics. intros Hlen.
  rewrite length_values, Hlen. cbn [Nat.eqb]. rewrite orb_true_r. reflexivity.
Qed.

(** What the guard of [calculate_metrics] has established when metrics are
    returned. *)
Lemma calculate_metrics_guard (res : result) (m : metrics) :
  calculate_metrics res = Some m ->
  (0 < length (returns res))%nat /\
  std_dev m = std (values (returns res)) /\
  std_dev m <> Fin 0.
Proof.
  unfold calculate_metrics.
  destruct (feqb (std (values (returns res))) (Fin 0)) eqn:Hstd;
    [discriminate|].
  destruct (Nat.eqb_spec (length (values (returns res))) 0) as [|Hlen];
    [discriminate|].
  cbn [orb]. intros [= <-]. cbn [std_dev].
  rewrite length_values in Hlen. split; [lia|]. split; [reflexivity|].
  intros E. rewrite E in Hstd. cbn [feqb] in Hstd.
  rewrite Reqb_true in Hstd by reflexivity. discriminate.
Qed.

(** Two or more returns that are all 0.0 have a standard deviation of
    exactly 0 (also in float64). *)
Lemma std_flat (n : nat) : std (repeat (Fin 0) (S (S n))) = Fin 0.
Proof.
  unfold std, var, count.
  rewrite present_repeat_fin, repeat_length, mean_zeros.
  cbn [Nat.sub]. rewrite map_repeat.
  replace (fmul (fsub (Fin 0) (Fin 0)) (fsub (Fin 0) (Fin 0))) with (Fin 0)
    by (simpl; apply f_equal; ring).
  unfold fsum. rewrite fsum_const_fin. unfold of_nat.
  assert (Hn : INR (S n) <> 0%R) by (apply not_0_INR; discriminate).
  unfold fdiv. rewrite Reqb_false by exact Hn.
  assert (Hz : ((0 + INR (S (S n)) * 0) / INR (S n) = 0)%R)
    by (field; exact Hn).
  rewrite Hz. simpl. rewrite Rltb_false by apply Rle_refl.
  rewrite sqrt_0. reflexivity.
Qed.

Lemma calculate_metrics_flat (res : result) (n : nat) :
  values (returns res) = repeat (Fin 0) (S (S n)) ->
  calculate_metrics res = None.
Proof.
  intros H. unfold calculate_metrics. rewrite H, std_flat.
  cbn [feqb]. rewrite Reqb_true by reflexivity. reflexivity.
Qed.

(** C6, as stated, fails when test_window is 0: the series is shorter than
    train_window + test_window, yet [run] raises ValueError ([range] with a
    zero step) instead of returning an empty result. *)
Lemma C6_zero_test_window_counterexample :
  Z.of_nat (length Scenarios.doubling_prices) < 252 + 0 /\
  run (mk (signal Scenarios.main_backtest) (sizing Scenarios.main_backtest)
          252 0)
      Scenarios.doubling_prices (Fin 100000) (Fin (1 / 10000))
    = Raised ValueError.
Proof.
  split; [reflexivity|].
  apply run_cursors_raise. reflexivity.
Qed.

(** C6 (amended): for a positive test_window and a price series shorter
    than train_window + test_window, [run] executes no window and returns
    the result whose series are all empty, raising nothing, and
    [calculate_metrics] returns None on that result.  [calculate_metrics]
    returns None on every result without rows and on every result of two
    or more rows whose returns are all 0.0; whenever it returns metrics,
    the result has at least one row and the standard deviation it reports
    is not 0. *)
Theorem C6_short_history_empty_result
        (self : t) (prices : Series) (capital cost : float) :
  0 < test_window self ->
  Z.of_nat (length prices) < train_window self + test_window self ->
  cursors self (Z.of_nat (length prices)) = Returned [] /\
  run self prices capital cost = Returned empty_result /\
  calculate_metrics empty_result = None /\
  (forall res, length (returns res) = 0%nat -> calculate_metrics res = None) /\
  (forall res n,
      values (returns res) = repeat (Fin 0) (S (S n)) ->
      calculate_metrics res = None) /\
  (forall res m,
      calculate_metrics res = Some m ->
      (0 < length (returns res))%nat /\ std_dev m <> Fin 0).
Proof.
  intros Hpos Hshort.
  assert (Hc : cursors self (Z.of_nat (length prices)) = Returned [])
    by (apply cursors_short_history; lia).
  split; [exact Hc|].
  split; [apply run_no_windows, Hc|].
  split; [exact calculate_metrics_empty|].
  split; [exact calculate_metrics_no_rows|].
  split; [exact calculate_metrics_flat|].
  intros res m Hm.
  destruct (calculate_metrics_guard res m Hm) as (Hlen & _ & Hstd).
  split; assumption.
Qed.

Lemma C6_short_history_empty_result_witness :
  run Scenarios.main_backtest Scenarios.doubling_prices (Fin 100000)
      (Fin (1 / 10000)) = Returned empty_result /\
  calculate_metrics empty_result = None.
Proof.
  destruct (C6_short_history_empty_result
              Scenarios.main_backtest Scenarios.doubling_prices
              (Fin 100000) (Fin (1 / 10000)))
    as (_ & Hrun & Hm & _).
  - reflexivity.
  - reflexivity.
  - split; [exact Hrun | exact Hm].
Defined.

End EmptyRuns.

(** ** The walk-forward engine: window parameters are not validated *)

Section WindowParameters.
Import RollingWindowBacktest.
Local Open Scope Z_scope.

(** [run] passes the training slice under the keyword [train_data], which
    [EWMASignal.get_forecast(prices, train_prices=None)] does not accept:
    with the repository's own signal the first window raises [TypeError]. *)
Lemma run_ewma_signal_type_error (s : EWMASignal.t) (siz : sizing_obj)
      (train test : Z) (prices : Series) (capital cost : float)
      (i : Z) (rest : list Z) :
  cursors (mk (ewma_signal s) siz train test) (Z.of_nat (length prices))
    = Returned (i :: rest) ->
  run (mk (ewma_signal s) siz train test) prices capital cost = Raised TypeError.
Proof. intros H. unfold run. rewrite H. reflexivity. Qed.

Lemma cursors_first (self : t) (n : Z) :
  0 < test_window self ->
  train_window self < n - test_window self ->
  exists rest, cursors self n = Returned (train_window self :: rest).
Proof.
  intros Hpos Hlt. unfold cursors, Py.range.
  destruct (Z.eqb_spec (test_window self) 0); [lia|].
  assert (Hlen : 0 < Py.range_len (train_window self) (n - test_window self)
                                  (test_window self)).
  { apply (range_len_pos _ _ _ 0); lia. }
  destruct (Z.to_nat _) as [|m] eqn:Hm; [lia|].
  simpl. eexists; reflexivity.
Qed.

(** C7, as stated, fails: a train_window of 500 on a three-day history is
    not rejected; [run] returns the empty result. *)
Lemma C7_oversized_window_counterexample :
  Z.of_nat (length Scenarios.doubling_prices)
    < train_window Scenarios.oversized_backtest /\
  run Scenarios.oversized_backtest Scenarios.doubling_prices (Fin 100000)
      (Fin (1 / 10000)) = Returned empty_result /\
  forall e, run Scenarios.oversized_backtest Scenarios.doubling_prices
                (Fin 100000) (Fin (1 / 10000)) <> Raised e.
Proof.
  split; [reflexivity|].
  assert (H : run Scenarios.oversized_backtest Scenarios.doubling_prices
                  (Fin 100000) (Fin (1 / 10000)) = Returned empty_result)
    by reflexivity.
  split; [exact H|]. intros e He. rewrite H in He. discriminate.
Qed.

(** C7 (amended): [run] does not validate its window parameters.  A zero
    test_window raises ValueError (from [range]) before any window is
    computed; with a positive test_window, a train_window larger than the
    price history, or a test_window larger than it together with a
    non-negative train_window, gives no window and the empty result,
    without any error; and whenever train_window lies below
    length - test_window the loop is entered at cursor train_window, also
    when train_window is zero or negative. *)
Theorem C7_window_parameters_not_validated
        (self : t) (prices : Series) (capital cost : float) :
  (test_window self = 0 -> run self prices capital cost = Raised ValueError) /\
  (0 < test_window self ->
   Z.of_nat (length prices) < train_window self \/
   (Z.of_nat (length prices) < test_window self /\ 0 <= train_window self) ->
   run self prices capital cost = Returned empty_result) /\
  (0 < test_window self ->
   train_window self < Z.of_nat (length prices) - test_window self ->
   exists rest,
     cursors self (Z.of_nat (length prices))
       = Returned (train_window self :: rest)).
Proof.
  split; [|split].
  - intros H0. apply run_cursors_raise. unfold cursors. rewrite H0.
    apply range_zero_step.
  - intros Hpos Hbig. apply run_no_windows, cursors_short_history; lia.
  - apply cursors_first.
Qed.

Lemma C7_window_parameters_not_validated_witness :
  run (mk (signal Scenarios.main_backtest) (sizing Scenarios.main_backtest) 252 0)
      Scenarios.doubling_prices (Fin 100000) (Fin (1 / 10000))
    = Raised ValueError /\
  run Scenarios.oversized_backtest Scenarios.doubling_prices (Fin 100000)
      (Fin (1 / 10000)) = Returned empty_result /\
  exists rest,
    cursors (mk (signal Scenarios.main_backtest)
                (sizing Scenarios.main_backtest) (-1) 1)
            (Z.of_nat (length Scenarios.doubling_prices))
      = Returned (-1 :: rest).
Proof.
  split; [|split].
  - apply (C7_window_parameters_not_validated
             (mk (signal Scenarios.main_backtest)
                 (sizing Scenarios.main_backtest) 252 0)).
    reflexivity.
  - apply (C7_window_parameters_not_validated Scenarios.oversized_backtest).
    + reflexivity.
    + left. reflexivity.
  - apply (C7_window_parameters_not_validated
             (mk (signal Scenarios.main_backtest)
                 (sizing Scenarios.main_backtest) (-1) 1)
             Scenarios.doubling_prices (Fin 100000) (Fin (1 / 10000))).
    + reflexivity.
    + reflexivity.
Defined.

End WindowParameters.

(** ** The walk-forward engine: which timestamps reach the result *)

Section ResultTimestamps.
Import RollingWindowBacktest.
Local Open Scope Z_scope.

Lemma get_in (ts : Z) (s : Series) (v : float) :
  get ts s = Some v -> In (ts, v) s.
Proof.
  induction s as [|[t' x] s IH]; simpl; [discriminate|].
  destruct (Z.eqb_spec ts t') as [-> | _].
  - intros [= ->]. left; reflexivity.
  - intros H. right. apply IH, H.
Qed.

Lemma in_index (ts : Z) (v : float) (s : Series) :
  In (ts, v) s -> In ts (index s).
Proof. intros H. apply (in_map fst) in H. exact H. Qed.

Lemma in_zip_with (f : float -> float -> float) (a b : Series) (ts : Z)
      (v : float) :
  In (ts, v) (zip_with f a b) ->
  exists x y, In (ts, x) a /\ v = f x y.
Proof.
  revert b; induction a as [|[t' x] a IH]; intros [|[t'' y] b]; simpl;
    try solve [intros []].
  intros [[= -> <-] | Hin].
  - exists x, y. auto.
  - destruct (IH b Hin) as (x' & y' & Hx & Hv). exists x', y'. auto.
Qed.

(** An operation that propagates NaN from its left operand: a label whose
    result is present carries a present value on the left. *)
Lemma binop_present_left (f : float -> float -> float) (a b : Series)
      (ts : Z) (v : float) :
  (forall y, f NaN y = NaN) ->
  In (ts, v) (binop f a b) -> notna v = true ->
  exists x, In (ts, x) a /\ notna x = true.
Proof.
  intros Hf. unfold binop.
  destruct (index_eqb (index a) (index b)).
  - intros Hin Hv. apply in_zip_with in Hin as (x & y & Hx & ->).
    exists x. split; [exact Hx|].
    destruct x; try reflexivity. rewrite Hf in Hv. discriminate.
  - rewrite in_map_iff. intros (t' & [= <- <-] & _) Hv.
    unfold get_or_nan in Hv at 1.
    destruct (get t' a) as [x|] eqn:Hg.
    + exists x. split; [apply get_in, Hg|].
      destruct x; try reflexivity. rewrite Hf in Hv. discriminate.
    + rewrite Hf in Hv. discriminate.
Qed.

(** An operation that propagates NaN from its right operand: a label whose
    result is present is a label of the right operand. *)
Lemma binop_present_right (f : float -> float -> float) (a b : Series)
      (ts : Z) (v : float) :
  (forall x, f x NaN = NaN) ->
  In (ts, v) (binop f a b) -> notna v = true ->
  In ts (index b).
Proof.
  intros Hf. unfold binop.
  destruct (index_eqb (index a) (index b)) eqn:Hi.
  - intros Hin _. apply index_eqb_eq in Hi. rewrite <- Hi.
    apply in_zip_with in Hin as (x & y & Hx & _). apply (in_index _ _ _ Hx).
  - rewrite in_map_iff. intros (t' & [= <- <-] & _) Hv.
    unfold get_or_nan in Hv at 2.
    destruct (get t' b) as [y|] eqn:Hg.
    + apply (in_index _ y), get_in, Hg.
    + rewrite Hf in Hv. discriminate.
Qed.

Lemma in_index_dropna (ts : Z) (s : Series) :
  In ts (index (dropna s)) -> exists v, In (ts, v) s /\ notna v = true.
Proof.
  unfold index, dropna. rewrite in_map_iff.
  intros ([t' v] & <- & Hin). apply filter_In in Hin as [Hin Hv].
  exists v. split; [exact Hin | exact Hv].
Qed.

Lemma fsub_nan_l (y : float) : fsub NaN y = NaN.
Proof. reflexivity. Qed.

(** A timestamp with a defined net return lies in the test slice,
    whatever the signal and the sizing returned. *)
Lemma valid_idx_in_test_slice (test_prices positions : Series) (cost : float)
      (ts : Z) :
  let test_returns := pct_change test_prices in
  let strategy_returns := binop fmul (shift1 positions) test_returns in
  let costs := smap (fun v => fmul v cost) (smap fabs (diff positions)) in
  let net_returns := binop fsub strategy_returns costs in
  In ts (index (dropna net_returns)) -> In ts (index test_prices).
Proof.
  intros test_returns strategy_returns costs net_returns Hin.
  apply in_index_dropna in Hin as (v & Hin & Hv).
  apply (binop_present_left fsub _ _ _ _ fsub_nan_l) in Hin as (x & Hx & Hxv);
    [|exact Hv].
  apply (binop_present_right fmul _ _ _ _ fmul_nan_r) in Hx; [|exact Hxv].
  unfold test_returns in Hx. rewrite index_pct_change in Hx. exact Hx.
Qed.

(** One window only appends timestamps of its own test slice. *)
Lemma window_timestamps (self : t) (prices : Series) (capital cost : float)
      (acc acc' : accum) (i : Z) :
  window self prices capital cost acc i = Returned acc' ->
  forall ts, In ts (timestamps acc') ->
             In ts (timestamps acc) \/
             In ts (index (test_slice self prices i)).
Proof.
  unfold window.
  destruct (get_forecast _ _ _) as [fc|]; [|discriminate]. simpl.
  destruct (get_position_size _ _ _ _) as [pos|]; [|discriminate]. simpl.
  destruct (loc fc _) as [f|]; [|discriminate]. simpl.
  destruct (loc pos _) as [p|]; [|discriminate]. simpl.
  destruct (loc _ _) as [r|]; [|discriminate]. simpl.
  destruct (loc _ _) as [c|]; [|discriminate]. simpl.
  intros [= <-] ts. simpl. rewrite in_app_iff.
  intros [H | H]; [left; exact H | right].
  apply (valid_idx_in_test_slice _ pos cost ts H).
Qed.

Lemma windows_timestamps (self : t) (prices : Series) (capital cost : float)
      (starts : list Z) (acc acc' : accum) :
  windows self prices capital cost acc starts = Returned acc' ->
  forall ts, In ts (timestamps acc') ->
             In ts (timestamps acc) \/
             exists i, In i starts /\ In ts (index (test_slice self prices i)).
Proof.
  revert acc; induction starts as [|i starts IH]; intros acc; simpl.
  - intros [= <-] ts H. left; exact H.
  - destruct (window self prices capital cost acc i) as [acc1|] eqn:Hw;
      [|discriminate]. simpl.
    intros Hrest ts Hts.
    destruct (IH acc1 Hrest ts Hts) as [H1 | (j & Hj & Hin)].
    + destruct (window_timestamps _ _ _ _ _ _ _ Hw ts H1) as [H0 | Hi].
      * left; exact H0.
      * right. exists i. split; [left; reflexivity | exact Hi].
    + right. exists j. split; [right; exact Hj | exact Hin].
Qed.

Lemma index_new_series (data : list float) (idx : list Z) (s : Series) :
  new_series data idx = Returned s -> index s = idx.
Proof.
  unfold new_series. destruct (Nat.eqb_spec (length data) (length idx)) as [E|];
    [|discriminate].
  intros [= <-]. apply index_make_series. symmetry; exact E.
Qed.

Lemma length_cumprod_from (acc : float) (l : list float) :
  length (cumprod_from acc l) = length l.
Proof.
  revert acc; induction l as [|x l IH]; intros acc; simpl; [reflexivity|].
  destruct (isnan x); simpl; rewrite IH; reflexivity.
Qed.

Lemma index_cumprod (s : Series) : index (cumprod s) = index s.
Proof.
  unfold cumprod. apply index_make_series.
  rewrite length_index, length_cumprod_from, length_values. reflexivity.
Qed.

(** Every series of the result is indexed by timestamps of test slices. *)
Lemma run_result_index (self : t) (prices : Series) (capital cost : float)
      (res : result) :
  run self prices capital cost = Returned res ->
  exists starts,
    cursors self (Z.of_nat (length prices)) = Returned starts /\
    forall s,
      In s [returns res; forecasts res; positions res; costs res;
            cumulative_returns res] ->
      forall ts, In ts (index s) ->
                 exists i, In i starts /\
                           In ts (index (test_slice self prices i)).
Proof.
  unfold run.
  destruct (cursors self _) as [starts|]; [|discriminate]. simpl.
  destruct (windows self prices capital cost empty_accum starts) as [acc|] eqn:Hw;
    [|discriminate]. simpl.
  destruct (new_series (all_returns acc) _) as [r|] eqn:Hr; [|discriminate].
  simpl.
  destruct (new_series (all_forecasts acc) _) as [f|] eqn:Hf; [|discriminate].
  simpl.
  destruct (new_series (all_positions acc) _) as [p|] eqn:Hp; [|discriminate].
  simpl.
  destruct (new_series (all_costs acc) _) as [c|] eqn:Hc; [|discriminate].
  simpl. intros [= <-]. exists starts. split; [reflexivity|].
  intros s Hs ts Hts.
  assert (Hin : In ts (timestamps acc)).
  { simpl in Hs.
    destruct Hs as [<- | [<- | [<- | [<- | [<- | []]]]]].
    - rewrite (index_new_series _ _ _ Hr) in Hts. exact Hts.
    - rewrite (index_new_series _ _ _ Hf) in Hts. exact Hts.
    - rewrite (index_new_series _ _ _ Hp) in Hts. exact Hts.
    - rewrite (index_new_series _ _ _ Hc) in Hts. exact Hts.
    - rewrite index_cumprod, index_smap, (index_new_series _ _ _ Hr) in Hts.
      exact Hts. }
  destruct (windows_timestamps _ _ _ _ _ _ _ Hw ts Hin) as [[] | H]. exact H.
Qed.

(** No test slice reaches the last observation. *)
Lemma test_slice_before_last (self : t) (prices : Series) (starts : list Z)
      (i : Z) :
  0 < test_window self ->
  cursors self (Z.of_nat (length prices)) = Returned starts ->
  In i starts ->
  incl (test_slice self prices i) (removelast prices).
Proof.
  intros Hpos Hc Hi.
  apply (in_range_pos _ _ _ i _ Hpos Hc) in Hi as [[_ Hlt] _].
  rewrite removelast_firstn_len.
  replace (Init.Nat.pred (length prices)) with (length prices - 1)%nat by lia.
  unfold test_slice, iloc. apply slice_stop_before_end. lia.
Qed.

Lemma sorted_before_last (l : list Z) (x : Z) :
  StronglySorted Z.lt l -> In x (removelast l) -> x < last l 0.
Proof.
  intros Hs Hx.
  destruct l as [|y l]; [destruct Hx|].
  assert (Hne : y :: l <> []) by discriminate.
  rewrite (app_removelast_last 0 Hne) in Hs.
  revert Hs Hx. generalize (last (y :: l) 0) as z.
  generalize (removelast (y :: l)) as l1.
  induction l1 as [|a l1 IH]; intros z Hs Hx; [destruct Hx|].
  simpl in Hs. apply StronglySorted_inv in Hs as [Hs Hall].
  destruct Hx as [<- | Hx].
  - rewrite Forall_app in Hall. destruct Hall as [_ Hz].
    apply Forall_inv in Hz. exact Hz.
  - apply IH; assumption.
Qed.

Lemma index_removelast (s : Series) : index (removelast s) = removelast (index s).
Proof.
  unfold index. induction s as [|p s IH]; [reflexivity|].
  destruct s as [|q s]; [reflexivity|].
  change (fst p :: map fst (removelast (q :: s)) =
          fst p :: removelast (map fst (q :: s))).
  rewrite IH. reflexivity.
Qed.

(** C10 (amended): for a positive test_window and strictly increasing
    timestamps, no test slice of [run] contains the final observation of
    the price series, and every timestamp of every series of the returned
    result strictly precedes the last timestamp of the prices.  (Only the
    final observation is excluded in general: rows among the most recent
    test_window observations can be evaluated.) *)
Theorem C10_last_observation_never_tested
        (self : t) (prices : Series) (capital cost : float) (res : result) :
  0 < test_window self ->
  StronglySorted Z.lt (index prices) ->
  run self prices capital cost = Returned res ->
  (forall starts i,
      cursors self (Z.of_nat (length prices)) = Returned starts ->
      In i starts ->
      incl (test_slice self prices i) (removelast prices)) /\
  (forall s,
      In s [returns res; forecasts res; positions res; costs res;
            cumulative_returns res] ->
      forall ts, In ts (index s) -> ts < last (index prices) 0).
Proof.
  intros Hpos Hsorted Hrun. split.
  - intros starts i Hc Hi. exact (test_slice_before_last _ _ _ _ Hpos Hc Hi).
  - intros s Hs ts Hts.
    destruct (run_result_index _ _ _ _ _ Hrun) as (starts & Hc & Hres).
    destruct (Hres s Hs ts Hts) as (i & Hi & Hin).
    apply (sorted_before_last _ _ Hsorted).
    rewrite <- index_removelast.
    unfold index in Hin. apply in_map_iff in Hin as (p & <- & Hp).
    apply (in_map fst).
    exact (test_slice_before_last _ _ _ _ Hpos Hc Hi p Hp).
Qed.

End ResultTimestamps.

(** ** A complete run on a week of prices *)

Section WeekRun.
Import RollingWindowBacktest Scenarios.
Local Open Scope R_scope.

Lemma week_forecast :
  EWMASignal.get_forecast (EWMASignal.mk 1 3)
    [(2%Z, Fin 4); (3%Z, Fin 5); (4%Z, Fin 4); (5%Z, Fin 6)]
    (Some [(0%Z, Fin 1); (1%Z, Fin 2)]) =
  Returned [(2%Z, Fin 0); (3%Z, Fin 8); (4%Z, Fin (-5)); (5%Z, Fin (35 / 3))].
Proof.
  unfold EWMASignal.get_forecast, EWMASignal.get_forecast_locals, ewm_mean,
    ewm_alpha, ewm_com.
  feval. fclose.
Qed.

(** The volatility estimate of the test slice: undefined on its first two
    days, positive afterwards. *)
Lemma week_volatility :
  exists s4 s5 : R,
    0 < s4 /\ 0 < s5 /\
    VolTargetSizing.calculate_volatility
      (VolTargetSizing.mk (Fin (25 / 100)) 2)
      [(2%Z, Fin 4); (3%Z, Fin 5); (4%Z, Fin 4); (5%Z, Fin 6)] =
    Returned [(2%Z, NaN); (3%Z, NaN); (4%Z, Fin s4); (5%Z, Fin s5)].
Proof.
  do 2 eexists. split; [|split].
  3: { unfold VolTargetSizing.calculate_volatility, ewm_std, ewm_alpha.
       feval. reflexivity. }
  all: sqrt_positive; lra.
Qed.

Lemma week_positions :
  exists p4 p5 : R,
    VolTargetSizing.get_position_size
      (VolTargetSizing.mk (Fin (25 / 100)) 2)
      [(2%Z, Fin 0); (3%Z, Fin 8); (4%Z, Fin (-5)); (5%Z, Fin (35 / 3))]
      [(2%Z, Fin 4); (3%Z, Fin 5); (4%Z, Fin 4); (5%Z, Fin 6)]
      (Fin 100000) =
    Returned [(2%Z, NaN); (3%Z, NaN); (4%Z, Fin p4); (5%Z, Fin p5)].
Proof.
  destruct week_volatility as (s4 & s5 & H4 & H5 & Hvol).
  unfold VolTargetSizing.get_position_size. rewrite Hvol. cbn [bind].
  do 2 eexists. feval. reflexivity.
Qed.

(** With a signal that accepts the keyword [train_data], the week gives
    one window (cursor 2, test slice days 2 to 5) and one defined net
    return, at day 5. *)
Lemma week_run :
  exists res,
    run week_backtest week_prices (Fin 100000) (Fin (1 / 10000)) = Returned res /\
    index (returns res) = [5%Z] /\
    index (forecasts res) = [5%Z].
Proof.
  destruct week_positions as (p4 & p5 & Hpos).
  eexists. split.
  - unfold run, cursors, week_backtest, train_data_signal, vol_target_sizing.
    replace (Py.range _ _ _) with (Returned [2%Z]) by reflexivity.
    cbn [bind windows].
    unfold window, test_slice, train_slice.
    cbn [signal sizing get_forecast get_position_size train_window test_window].
    replace (iloc week_prices (2 - 2) 2)
      with [(0%Z, Fin 1); (1%Z, Fin 2)] by reflexivity.
    replace (iloc week_prices 2 (2 + 4))
      with [(2%Z, Fin 4); (3%Z, Fin 5); (4%Z, Fin 4); (5%Z, Fin 6)]
      by reflexivity.
    replace (String.eqb _ _) with true by reflexivity.
    replace (EWMASignal.get_forecast _ _ _)
      with (Returned [(2%Z, Fin 0); (3%Z, Fin 8); (4%Z, Fin (-5));
                      (5%Z, Fin (35 / 3))])
      by (symmetry; exact week_forecast).
    cbn [bind].
    replace (VolTargetSizing.get_position_size _ _ _ _)
      with (Returned [(2%Z, NaN); (3%Z, NaN); (4%Z, Fin p4); (5%Z, Fin p5)])
      by (symmetry; exact Hpos).
    cbn [bind].
    feval. reflexivity.
  - split; reflexivity.
Qed.

(** The same week with the repository's [EWMASignal] as the signal: the
    first window raises [TypeError]. *)
Lemma week_run_ewma_signal :
  run (mk (ewma_signal (EWMASignal.mk 1 3)) (sizing week_backtest) 2 4)
      week_prices (Fin 100000) (Fin (1 / 10000)) = Raised TypeError.
Proof. apply (run_ewma_signal_type_error _ _ _ _ _ _ _ 2%Z []). reflexivity. Qed.

Lemma week_prices_sorted : StronglySorted Z.lt (index week_prices).
Proof. simpl. repeat (constructor; [|repeat constructor; lia]). constructor. Qed.

Lemma C10_last_observation_never_tested_witness :
  exists res,
    run week_backtest week_prices (Fin 100000) (Fin (1 / 10000)) = Returned res /\
    In 5%Z (index (returns res)) /\
    (5 < last (index week_prices) 0)%Z.
Proof.
  destruct week_run as (res & Hrun & Hidx & _).
  exists res. split; [exact Hrun|].
  assert (Hin : In 5%Z (index (returns res))) by (rewrite Hidx; left; reflexivity).
  split; [exact Hin|].
  apply (C10_last_observation_never_tested
           week_backtest week_prices (Fin 100000) (Fin (1 / 10000)) res
           ltac:(reflexivity) week_prices_sorted Hrun)
    with (s := returns res).
  - left; reflexivity.
  - exact Hin.
Defined.

(** C10, as stated, fails in its last clause: in the week run (seven
    prices, two days of training, four of testing) day 5 is reported, and
    day 5 is one of the four most recent observations. *)
Lemma C10_recent_window_counterexample :
  exists res,
    run week_backtest week_prices (Fin 100000) (Fin (1 / 10000)) = Returned res /\
    In 5%Z (index (returns res)) /\
    In 5%Z (index (iloc week_prices (- test_window week_backtest)
                        (Z.of_nat (length week_prices)))).
Proof.
  destruct week_run as (res & Hrun & Hidx & _).
  exists res. split; [exact Hrun|].
  split; [rewrite Hidx; left; reflexivity|].
  right; right; left; reflexivity.
Qed.

End WeekRun.

(** ** The diversification multiplier *)

Section DiversificationMultiplier.
Import PortfolioOptimizer Scenarios.
Local Open Scope R_scope.

(** The multiplier as a function of the average correlation. *)
Lemma calculate_fdm_unfold (self : t) (m : list (list float)) (avg : float) :
  average_correlation m = Returned avg ->
  calculate_fdm self m =
  Returned (if flt (py_max avg (Fin 0)) (Fin 1)
            then fdiv (Fin 1) (fsqrt (fsub (Fin 1) (py_max avg (Fin 0))))
            else Fin 1).
Proof. intros H. unfold calculate_fdm. rewrite H. reflexivity. Qed.

Lemma average_correlation_square (m : list (list float)) :
  is_square m = true ->
  average_correlation m = Returned (np_mean (off_diagonal_from 0 m)).
Proof.
  intros H. unfold average_correlation, off_diagonal. rewrite H. reflexivity.
Qed.

Lemma fle_one_one : fle (Fin 1) (Fin 1) = true.
Proof. apply fle_fin. lra. Qed.

(** The uplift at average correlation zero is exactly 1. *)
Lemma fdm_at_zero (r : R) :
  r = 0 -> fdiv (Fin 1) (fsqrt (fsub (Fin 1) (Fin r))) = Fin 1.
Proof.
  intros ->. simpl. rewrite Rltb_false by lra.
  replace (1 + - 0) with 1 by lra. rewrite sqrt_1.
  unfold fdiv. rewrite Reqb_false by lra. f_equal. lra.
Qed.

(** Between 0 and 1 the uplift is 1 / sqrt (1 - r), which is at least 1. *)
Lemma fdm_between (r : R) :
  0 < r < 1 ->
  fdiv (Fin 1) (fsqrt (fsub (Fin 1) (Fin r))) = Fin (1 / sqrt (1 - r)) /\
  1 <= 1 / sqrt (1 - r).
Proof.
  intros [H0 H1]. simpl. rewrite Rltb_false by lra.
  replace (1 + - r) with (1 - r) by lra.
  assert (Hpos : 0 < sqrt (1 - r)) by (apply sqrt_lt_R0; lra).
  assert (Hle : sqrt (1 - r) <= 1).
  { rewrite <- sqrt_1 at 2. apply sqrt_le_1; lra. }
  unfold fdiv. rewrite Reqb_false by lra. split; [reflexivity|].
  apply (Rmult_le_reg_r (sqrt (1 - r))); [exact Hpos|].
  unfold Rdiv. rewrite Rmult_assoc, Rinv_l by lra. lra.
Qed.

(** The value of the multiplier in each range of the average. *)
Lemma fdm_of_average (avg : float) :
  let fdm := if flt (py_max avg (Fin 0)) (Fin 1)
             then fdiv (Fin 1) (fsqrt (fsub (Fin 1) (py_max avg (Fin 0))))
             else Fin 1 in
  fle (Fin 1) fdm = true /\
  (isnan avg = true \/ fle avg (Fin 0) = true -> fdm = Fin 1) /\
  (fle (Fin 1) avg = true -> fdm = Fin 1) /\
  (forall r, avg = Fin r -> 0 < r < 1 -> fdm = Fin (1 / sqrt (1 - r))).
Proof.
  destruct avg as [| | |r]; cbv zeta.
  - (* NaN *)
    simpl. repeat split; auto using fle_one_one. intros r [=].
  - (* -inf *)
    unfold py_max, fgt. simpl flt. rewrite Rltb_true by lra.
    rewrite (fdm_at_zero 0 eq_refl).
    repeat split; auto using fle_one_one. intros r [=].
  - (* +inf *)
    unfold py_max, fgt. simpl.
    repeat split; auto using fle_one_one. intros r [=].
  - unfold py_max, fgt. simpl flt.
    destruct (Rltb_spec r 0) as [Hneg | Hnn].
    + (* negative: floored at 0 *)
      simpl flt. rewrite Rltb_true by lra. rewrite (fdm_at_zero 0 eq_refl).
      split; [apply fle_one_one|]. split; [reflexivity|]. split.
      * reflexivity.
      * intros r' [= <-] ?. lra.
    + simpl flt. destruct (Rltb_spec r 1) as [Hlt | Hge].
      * destruct (Req_dec_T r 0) as [Hz | Hnz].
        -- rewrite (fdm_at_zero r Hz).
           split; [apply fle_one_one|]. split; [reflexivity|]. split.
           ++ reflexivity.
           ++ intros r' [= <-] ?. lra.
        -- destruct (fdm_between r ltac:(lra)) as [-> Hge1].
           split; [apply fle_fin; exact Hge1|]. split; [|split].
           ++ intros [[=] | H]. apply fle_fin in H. lra.
           ++ intros H. apply fle_fin in H. lra.
           ++ intros r' [= <-] _. reflexivity.
      * split; [apply fle_one_one|]. split; [reflexivity|]. split.
        -- reflexivity.
        -- intros r' [= <-] ?. lra.
Qed.

Lemma fopp_involutive (x : float) : fopp (fopp x) = x.
Proof. destruct x; simpl; try reflexivity. f_equal. lra. Qed.

Lemma negated_map_fopp (xs : list float) : negated xs (map fopp xs).
Proof. induction xs; constructor; auto. Qed.

Lemma negated_sym (xs ys : list float) : negated xs ys -> negated ys xs.
Proof.
  induction 1 as [|x y xs ys Hxy _ IH]; constructor; [|exact IH].
  subst y. symmetry. apply fopp_involutive.
Qed.

Lemma welford_step_mirrored (st : welford) (vx : R) :
  mirrored st -> mirrored (welford_step st vx (- vx)).
Proof.
  intros (Hm & Hs & Hc & Hpos). unfold mirrored, welford_step; simpl.
  set (n := match w_nobs st with O => 1 | S _ => INR (w_nobs st) + 1 end).
  assert (Hn : 1 <= n).
  { unfold n. destruct (w_nobs st) eqn:E; [lra|].
    rewrite <- E. pose proof (pos_INR (w_nobs st)). lra. }
  rewrite Hm, Hs, Hc.
  assert (Hq : 0 <= 1 - 1 / n).
  { assert (Hinv : / n <= / 1) by (apply Rinv_le_contravar; lra).
    rewrite Rinv_1 in Hinv. unfold Rdiv. lra. }
  repeat split; try ring.
  replace (vx - (w_meanx st + 1 / n * (vx - w_meanx st)))
    with ((1 - 1 / n) * (vx - w_meanx st)) by ring.
  pose proof (Rle_0_sqr (vx - w_meanx st)) as Hsq. unfold Rsqr in Hsq.
  pose proof (Rmult_le_pos _ _ Hq Hsq) as Hprod.
  rewrite Rmult_assoc. lra.
Qed.

Lemma welford_loop_mirrored (xs ys : list float) (st : welford) :
  negated xs ys -> mirrored st -> mirrored (welford_loop st xs ys).
Proof.
  intros H; revert st. induction H as [|x y xs ys Hxy _ IH]; intros st Hst.
  - exact Hst.
  - subst y. destruct x as [| | |vx]; simpl; try (apply IH, Hst).
    apply IH, welford_step_mirrored, Hst.
Qed.

(** The correlation of a column with its negative is -1, or undefined
    (no finite observation, or no variation). *)
Lemma pearson_negated (xs ys : list float) :
  negated xs ys -> pearson xs ys = NaN \/ pearson xs ys = Fin (-1).
Proof.
  intros H. unfold pearson.
  assert (Hm : mirrored (welford_loop (mk_welford 0 0 0 0 0 0) xs ys)).
  { apply welford_loop_mirrored; [exact H|].
    unfold mirrored; simpl. repeat split; lra. }
  destruct Hm as (_ & Hs & Hc & Hpos).
  set (st := welford_loop _ xs ys) in *.
  destruct (Nat.ltb (w_nobs st) 1); [left; reflexivity|].
  rewrite Hs, Hc, sqrt_square by exact Hpos.
  destruct (Reqb_spec (w_ssqdm_x st) 0) as [|Hnz]; [left; reflexivity|].
  right. f_equal. field. exact Hnz.
Qed.

(** The average off-diagonal correlation of two mirrored forecasts is
    -1 or undefined; both give a multiplier of exactly 1. *)
Lemma fdm_negated_forecasts (self : t) (s : Series) :
  calculate_fdm self
    (calculate_correlations self
       [("a"%string, s); ("b"%string, smap fopp s)]) = Returned (Fin 1).
Proof.
  unfold calculate_correlations, frame, same_indexes.
  cbn [forallb snd]. rewrite index_smap, index_eqb_refl. cbn [andb].
  unfold corr. cbn [map fst snd df_columns].
  set (xs := values s). set (ys := values (smap fopp s)).
  assert (Hneg : negated xs ys).
  { assert (Hys : ys = map fopp xs)
      by (unfold ys, xs, values, smap; rewrite !map_map; reflexivity).
    rewrite Hys. apply negated_map_fopp. }
  rewrite (calculate_fdm_unfold self _ (np_mean [pearson xs ys; pearson ys xs]))
    by reflexivity.
  f_equal.
  apply (proj1 (proj2 (fdm_of_average _))).
  destruct (pearson_negated xs ys Hneg) as [-> | ->];
    [left; reflexivity|].
  destruct (pearson_negated ys xs (negated_sym _ _ Hneg)) as [-> | ->];
    [left; reflexivity|].
  right. unfold np_mean, fsum. cbn [fold_left fadd length]. unfold of_nat.
  replace (INR 2) with 2 by (simpl; lra).
  unfold fdiv. rewrite Reqb_false by lra.
  apply fle_fin. lra.
Qed.

(** C8: for every square correlation matrix [calculate_fdm] returns a
    value of at least 1; it returns exactly 1.0 whenever the average
    off-diagonal correlation is at most 0 (the average is floored at 0
    before 1 / sqrt (1 - avg) is computed) and whenever it is at least 1;
    strictly between 0 and 1 it returns 1 / sqrt (1 - avg); and for two
    forecast series that are exact negatives of one another the multiplier
    computed from their correlation matrix is exactly 1.0. *)
Theorem C8_fdm_at_least_one (self : t) (m : list (list float)) :
  is_square m = true ->
  exists avg fdm,
    average_correlation m = Returned avg /\
    calculate_fdm self m = Returned fdm /\
    fle (Fin 1) fdm = true /\
    (fle avg (Fin 0) = true -> fdm = Fin 1) /\
    (fle (Fin 1) avg = true -> fdm = Fin 1) /\
    (forall r, avg = Fin r -> 0 < r < 1 -> fdm = Fin (1 / sqrt (1 - r))) /\
    (forall s,
        calculate_fdm self
          (calculate_correlations self
             [("a"%string, s); ("b"%string, smap fopp s)]) = Returned (Fin 1)).
Proof.
  intros Hsq.
  pose proof (average_correlation_square m Hsq) as Havg.
  eexists. eexists. split; [exact Havg|].
  split; [apply (calculate_fdm_unfold self m _ Havg)|].
  destruct (fdm_of_average (np_mean (off_diagonal_from 0 m)))
    as (Hge & Hle0 & Hge1 & Hmid).
  split; [exact Hge|]. split; [intros H; apply Hle0; right; exact H|].
  split; [exact Hge1|]. split; [exact Hmid|].
  apply fdm_negated_forecasts.
Qed.

Lemma C8_fdm_at_least_one_witness :
  exists avg fdm,
    average_correlation opposite_matrix = Returned avg /\
    calculate_fdm default_optimizer opposite_matrix = Returned fdm /\
    fle (Fin 1) fdm = true.
Proof.
  destruct (C8_fdm_at_least_one default_optimizer opposite_matrix eq_refl)
    as (avg & fdm & Ha & Hf & Hge & _).
  exists avg, fdm. auto.
Defined.

(** On the matrix of two perfectly anti-correlated forecasts the average
    is -1 and the multiplier is 1. *)
Lemma fdm_opposite_matrix :
  average_correlation opposite_matrix = Returned (Fin (-2 / 2)) /\
  calculate_fdm default_optimizer opposite_matrix = Returned (Fin 1).
Proof.
  split.
  - unfold average_correlation, off_diagonal. feval. fclose.
  - unfold calculate_fdm, average_correlation, off_diagonal. feval. fclose.
Qed.

End DiversificationMultiplier.

(** ** Combining forecasts *)

Section ForecastCombiner.
Import PortfolioOptimizer Scenarios.
Local Open Scope R_scope.

(** C9, as stated, fails: two variants with weight 1 each, the first
    lacking the second day.  There the unweighted call averages the one
    forecast that is present (10) while the weighted call adds it with
    weight 1/2 (5). *)
Lemma C9_equal_weights_counterexample :
  nth_error (combine_forecasts default_optimizer uneven_forecasts None) 1
    = Some (2%Z, Fin 10) /\
  nth_error (combine_forecasts default_optimizer uneven_forecasts
                               (Some unit_weights)) 1
    = Some (2%Z, Fin 5) /\
  Fin 10 <> Fin 5.
Proof.
  split; [|split].
  - unfold combine_forecasts, reduce_rows, sclip. feval. fclose.
  - unfold combine_forecasts, reduce_rows, sclip. feval. fclose.
  - intros [= H]. lra.
Qed.

Lemma finite_row (row : list float) :
  Forall (fun v => isfinite v = true) row -> exists rs, row = map Fin rs.
Proof.
  induction 1 as [|v row Hv _ [rs ->]].
  - exists []. reflexivity.
  - destruct v as [| | |r]; try discriminate. exists (r :: rs). reflexivity.
Qed.

Lemma present_finite (rs : list R) : present (map Fin rs) = map Fin rs.
Proof.
  unfold present. induction rs as [|r rs IH]; simpl; [reflexivity|].
  rewrite IH. reflexivity.
Qed.

Lemma fsum_finite (rs : list R) (a : R) :
  fold_left fadd (map Fin rs) (Fin a) = Fin (fold_left Rplus rs a).
Proof.
  revert a; induction rs as [|r rs IH]; intros a; simpl; [reflexivity|].
  apply IH.
Qed.

Lemma fold_plus_scaled (rs : list R) (a c : R) :
  fold_left Rplus (map (fun r => r * c) rs) (a * c) = fold_left Rplus rs a * c.
Proof.
  revert a; induction rs as [|r rs IH]; intros a; simpl; [reflexivity|].
  rewrite <- IH. f_equal. ring.
Qed.

(** The mean of a row of finite cells. *)
Lemma mean_finite (rs : list R) :
  rs <> [] ->
  mean (map Fin rs) = Fin (fold_left Rplus rs 0 / INR (length rs)).
Proof.
  intros Hne. unfold mean, count, sum, fsum.
  rewrite present_finite, length_map, fsum_finite.
  destruct rs as [|r rs]; [congruence|]. cbn [length].
  unfold of_nat, fdiv. rewrite Reqb_false; [reflexivity|].
  apply not_0_INR. discriminate.
Qed.

(** The skipping sum of a row of finite cells, each times [c]. *)
Lemma sum_scaled_finite (rs : list R) (c : R) :
  sum (map (fun v => fmul v (Fin c)) (map Fin rs))
  = Fin (fold_left Rplus rs 0 * c).
Proof.
  rewrite map_map. cbn [fmul].
  rewrite <- (map_map (fun r => r * c) Fin).
  unfold sum, fsum. rewrite present_finite, fsum_finite.
  rewrite <- fold_plus_scaled. do 2 f_equal. ring.
Qed.

(** Equal finite non-zero weights normalize to 1/n each. *)
Lemma normalized_equal_weights (n : nat) (w : R) :
  w <> 0 ->
  map (fun x => fdiv x (fsum (repeat (Fin w) (S n)))) (repeat (Fin w) (S n))
  = repeat (Fin (/ INR (S n))) (S n).
Proof.
  intros Hw. unfold fsum. rewrite fsum_const_fin.
  assert (Hn : INR (S n) <> 0) by (apply not_0_INR; discriminate).
  assert (Hc : fdiv (Fin w) (Fin (0 + INR (S n) * w)) = Fin (/ INR (S n))).
  { unfold fdiv. rewrite Reqb_false.
    - f_equal. field. split; assumption.
    - intros H. rewrite Rplus_0_l in H.
      apply Rmult_integral in H. tauto. }
  rewrite map_repeat, Hc. reflexivity.
Qed.

Lemma length_frame_columns (d : forecasts_dict) :
  length (df_columns (frame d)) = length d.
Proof.
  unfold frame. destruct (same_indexes d); simpl; apply length_map.
Qed.

Lemma names_frame_columns (d : forecasts_dict) :
  map fst (df_columns (frame d)) = map fst d.
Proof.
  unfold frame. destruct (same_indexes d); simpl; rewrite map_map;
    reflexivity.
Qed.

(** Row [i] of a frame whose columns were scaled by one factor. *)
Lemma row_at_scaled (cols : list (string * list float)) (c : float) (i : nat) :
  row_at (map (fun cw => (fst (fst cw), map (fun v => fmul v (snd cw)) (snd (fst cw))))
              (combine cols (repeat c (length cols)))) i
  = map (fun v => fmul v c) (row_at cols i).
Proof.
  unfold row_at. induction cols as [|[name col] cols IH]; [reflexivity|].
  cbn [length repeat combine map fst snd]. rewrite IH. f_equal.
  exact (map_nth (fun v => fmul v c) col NaN i).
Qed.

Lemma nth_error_make_series (idx : list Z) (vals : list float) (i : nat) :
  nth_error (make_series idx vals) i =
  match nth_error idx i, nth_error vals i with
  | Some ts, Some v => Some (ts, v)
  | _, _ => None
  end.
Proof.
  unfold make_series. revert vals i.
  induction idx as [|ts idx IH]; intros [|v vals] [|i]; simpl;
    try reflexivity.
  - destruct (nth_error idx i); reflexivity.
  - apply IH.
Qed.

(** Two reductions that agree on row [i] give series that agree there. *)
Lemma reduced_rows_agree (idx : list Z) (vals1 vals2 : list float) (i : nat) :
  nth_error vals1 i = nth_error vals2 i ->
  nth_error (sclip (Fin (-20)) (Fin 20) (make_series idx vals1)) i =
  nth_error (sclip (Fin (-20)) (Fin 20) (make_series idx vals2)) i.
Proof.
  intros H. unfold sclip, smap.
  rewrite !nth_error_map, !nth_error_make_series, H. reflexivity.
Qed.

(** With one finite non-zero weight for every name, the normalized
    weights are all 1/n. *)
Lemma equal_weights_normalized (d : forecasts_dict) (cw : list (string * float))
      (w : R) (k : nat) :
  w <> 0 ->
  length d = S k ->
  (forall name, In name (map fst d) -> dict_get cw name (Fin 1) = Fin w) ->
  let weights :=
    map (fun col => dict_get cw (fst col) (Fin 1)) (df_columns (frame d)) in
  map (fun x => fdiv x (fsum weights)) weights
  = repeat (Fin (/ INR (S k))) (length (df_columns (frame d))).
Proof.
  intros Hw Hlen Hcw weights.
  assert (Hweights : weights = repeat (Fin w) (S k)).
  { unfold weights. rewrite <- Hlen, <- length_frame_columns.
    rewrite <- (map_map fst (fun name => dict_get cw name (Fin 1))).
    rewrite <- (length_map fst (df_columns (frame d))).
    rewrite names_frame_columns.
    rewrite <- (length_map (fun name => dict_get cw name (Fin 1)) (map fst d)).
    apply Forall_eq_repeat. apply Forall_forall.
    intros x Hx. apply in_map_iff in Hx as (name & <- & Hname).
    symmetry. apply Hcw, Hname. }
  rewrite Hweights, length_frame_columns, Hlen.
  apply normalized_equal_weights, Hw.
Qed.

(** C9 (amended): when the weight dictionary gives every name the same
    finite non-zero weight, the weighted combination equals the unweighted
    one at every row in which every named series has a finite value (in
    exact arithmetic). *)
Theorem C9_equal_weights_on_complete_rows
        (self : t) (d : forecasts_dict) (cw : list (string * float)) (w : R)
        (i : nat) (row : list float) :
  w <> 0 ->
  (forall name, In name (map fst d) -> dict_get cw name (Fin 1) = Fin w) ->
  nth_error (rows (frame d)) i = Some row ->
  Forall (fun v => isfinite v = true) row ->
  nth_error (combine_forecasts self d (Some cw)) i =
  nth_error (combine_forecasts self d None) i.
Proof.
  intros Hw Hcw Hrow Hfin.
  destruct (length d) as [|k] eqn:Hlen.
  { apply length_zero_iff_nil in Hlen. subst d.
    destruct i; discriminate Hrow. }
  unfold combine_forecasts.
  rewrite (equal_weights_normalized d cw w k Hw Hlen Hcw).
  unfold reduce_rows, scale_columns. cbn [df_index df_columns].
  apply reduced_rows_agree.
  unfold rows in *. cbn [df_columns df_index].
  rewrite !nth_error_map in *.
  destruct (nth_error (seq 0 (length (df_index (frame d)))) i) as [j|];
    [|discriminate].
  cbn [option_map] in *. injection Hrow as <-.
  rewrite row_at_scaled. f_equal.
  destruct (finite_row _ Hfin) as [rs Hrs].
  assert (Hlen_rs : length rs = S k).
  { rewrite <- (length_map Fin), <- Hrs. unfold row_at.
    rewrite length_map, length_frame_columns. exact Hlen. }
  rewrite Hrs, sum_scaled_finite, mean_finite.
  - rewrite Hlen_rs. reflexivity.
  - intros ->. discriminate.
Qed.

Lemma C9_equal_weights_on_complete_rows_witness :
  nth_error (combine_forecasts default_optimizer uneven_forecasts
                               (Some unit_weights)) 0 =
  nth_error (combine_forecasts default_optimizer uneven_forecasts None) 0.
Proof.
  apply (C9_equal_weights_on_complete_rows
           default_optimizer uneven_forecasts unit_weights 1 0
           [Fin 10; Fin 10]).
  - lra.
  - intros name [<- | [<- | []]]; reflexivity.
  - reflexivity.
  - repeat constructor.
Defined.

End ForecastCombiner.

(* ================================================================== *)
(** * Part III.  Further properties of the code                        *)
(* ================================================================== *)

(** ** The walk-forward engine with the repository's own signal *)

Section EngineWithEwmaSignal.
Import RollingWindowBacktest.
Local Open Scope Z_scope.

(** X1: whenever at least one window exists (positive test_window and
    train_window below length - test_window), [run] with the repository's
    [EWMASignal] as its signal raises TypeError: the training slice is
    passed under the keyword [train_data], which [get_forecast] does not
    have. *)
Theorem run_with_ewma_signal_raises
        (s : EWMASignal.t) (siz : sizing_obj) (train test : Z)
        (prices : Series) (capital cost : float) :
  0 < test ->
  train < Z.of_nat (length prices) - test ->
  run (mk (ewma_signal s) siz train test) prices capital cost = Raised TypeError.
Proof.
  intros Hpos Hlt.
  destruct (cursors_first (mk (ewma_signal s) siz train test)
                          (Z.of_nat (length prices)) Hpos Hlt) as [rest Hc].
  exact (run_ewma_signal_type_error s siz train test prices capital cost
                                    _ rest Hc).
Qed.

Lemma run_with_ewma_signal_raises_witness :
  run (mk (ewma_signal (EWMASignal.mk 1 3)) (sizing Scenarios.week_backtest) 2 4)
      Scenarios.week_prices (Fin 100000) (Fin (1 / 10000)) = Raised TypeError.
Proof.
  apply (run_with_ewma_signal_raises
           (EWMASignal.mk 1 3) (sizing Scenarios.week_backtest) 2 4
           Scenarios.week_prices); reflexivity.
Defined.

(** X2: [run_single_strategy] never yields performance metrics.  On more
    than 315 prices (252 + 63) it raises TypeError; on at most 315 prices
    no window runs and it returns the empty result with metrics None. *)
Theorem run_single_strategy_outcome
        (prices : Series) (fast slow : Z) (vol_target capital : float) :
  Main.run_single_strategy prices fast slow vol_target capital =
  if 315 <? Z.of_nat (length prices) then Raised TypeError
  else Returned (Main.mk_strategy_run
                   (EWMASignal.mk fast slow) empty_result None
                   (Main.make_backtest fast slow vol_target)).
Proof.
  unfold Main.run_single_strategy.
  destruct (Z.ltb_spec 315 (Z.of_nat (length prices))) as [Hlt | Hle].
  - destruct (cursors_first (Main.make_backtest fast slow vol_target)
                            (Z.of_nat (length prices)))
      as [rest Hc]; [reflexivity | simpl; lia |].
    unfold Main.make_backtest in *.
    rewrite (run_ewma_signal_type_error _ _ _ _ _ _ _ _ rest Hc). reflexivity.
  - rewrite run_no_windows; [reflexivity|].
    apply cursors_short_history; simpl; lia.
Qed.

End EngineWithEwmaSignal.

(** ** The walk-forward engine: invariants of the result *)

Section ResultInvariants.
Import RollingWindowBacktest Notions.
Local Open Scope R_scope.

(** What a returning [run] went through. *)
Lemma run_inversion (self : t) (prices : Series) (capital cost : float)
      (res : result) :
  run self prices capital cost = Returned res ->
  exists starts acc,
    cursors self (Z.of_nat (length prices)) = Returned starts /\
    windows self prices capital cost empty_accum starts = Returned acc /\
    new_series (all_returns acc) (timestamps acc) = Returned (returns res) /\
    new_series (all_forecasts acc) (timestamps acc) = Returned (forecasts res) /\
    new_series (all_positions acc) (timestamps acc) = Returned (positions res) /\
    new_series (all_costs acc) (timestamps acc) = Returned (costs res) /\
    cumulative_returns res =
      cumprod (smap (fun v => fadd (Fin 1) v) (returns res)).
Proof.
  unfold run.
  destruct (cursors self _) as [starts|] eqn:Hs; [|discriminate]. simpl.
  destruct (windows self prices capital cost empty_accum starts) as [acc|]
    eqn:Hw; [|discriminate]. simpl.
  destruct (new_series (all_returns acc) _) as [r|] eqn:Hr; [|discriminate].
  simpl.
  destruct (new_series (all_forecasts acc) _) as [f|] eqn:Hf; [|discriminate].
  simpl.
  destruct (new_series (all_positions acc) _) as [p|] eqn:Hp; [|discriminate].
  simpl.
  destruct (new_series (all_costs acc) _) as [c|] eqn:Hc; [|discriminate].
  simpl.
  intros [= <-]. exists starts, acc. simpl.
  repeat split; try reflexivity; assumption.
Qed.

Lemma values_new_series (data : list float) (idx : list Z) (s : Series) :
  new_series data idx = Returned s -> values s = data.
Proof.
  unfold new_series.
  destruct (Nat.eqb_spec (length data) (length idx)) as [E|]; [|discriminate].
  intros [= <-]. apply values_make_series. symmetry; exact E.
Qed.

(** X3: the five series of a result returned by [run] have one and the
    same index (timestamps and length). *)
Theorem run_result_shares_one_index
        (self : t) (prices : Series) (capital cost : float) (res : result) :
  run self prices capital cost = Returned res ->
  index (forecasts res) = index (returns res) /\
  index (positions res) = index (returns res) /\
  index (costs res) = index (returns res) /\
  index (cumulative_returns res) = index (returns res).
Proof.
  intros Hrun.
  destruct (run_inversion _ _ _ _ _ Hrun)
    as (starts & acc & _ & _ & Hr & Hf & Hp & Hc & Hcum).
  rewrite Hcum, index_cumprod, index_smap.
  rewrite (index_new_series _ _ _ Hr), (index_new_series _ _ _ Hf),
    (index_new_series _ _ _ Hp), (index_new_series _ _ _ Hc).
  repeat split; reflexivity.
Qed.

Lemma run_result_shares_one_index_witness :
  exists res,
    run Scenarios.week_backtest Scenarios.week_prices (Fin 100000)
        (Fin (1 / 10000)) = Returned res /\
    index (forecasts res) = index (returns res) /\
    index (positions res) = index (returns res) /\
    index (costs res) = index (returns res) /\
    index (cumulative_returns res) = index (returns res).
Proof.
  destruct week_run as (res & Hrun & _).
  exists res. split; [exact Hrun|].
  exact (run_result_shares_one_index _ _ _ _ _ Hrun).
Defined.

(** The rows picked by [loc] are rows of the series. *)
Lemma loc_incl (s : Series) (labels : list Z) (r : Series) :
  loc s labels = Returned r -> incl r s.
Proof.
  revert r; induction labels as [|ts labels IH]; intros r; simpl.
  - intros [= <-]. intros p [].
  - destruct (get ts s) as [v|] eqn:Hg; [|discriminate].
    destruct (loc s labels) as [r'|]; [|discriminate]. simpl.
    intros [= <-]. intros p [<- | Hp].
    + apply get_in, Hg.
    + apply (IH r' eq_refl), Hp.
Qed.

Lemma values_smap (f : float -> float) (s : Series) :
  values (smap f s) = map f (values s).
Proof. unfold values, smap. rewrite !map_map. reflexivity. Qed.

(** The cost of a position change at a non-negative rate. *)
Lemma cost_value_nonnegative (x : float) (c : R) :
  0 <= c -> missing_or_nonnegative (fmul (fabs x) (Fin c)).
Proof.
  intros Hc. unfold missing_or_nonnegative.
  destruct x as [| | |a]; simpl.
  - left; reflexivity.
  - unfold signed_inf. destruct (Reqb_spec c 0); [left; reflexivity|].
    destruct (Rltb_spec 0 c); [right; reflexivity | lra].
  - unfold signed_inf. destruct (Reqb_spec c 0); [left; reflexivity|].
    destruct (Rltb_spec 0 c); [right; reflexivity | lra].
  - right. apply fle_fin. apply Rmult_le_pos; [apply Rabs_pos | exact Hc].
Qed.

Lemma window_costs (self : t) (prices : Series) (capital : float) (c : R)
      (acc acc' : accum) (i : Z) :
  0 <= c ->
  window self prices capital (Fin c) acc i = Returned acc' ->
  Forall missing_or_nonnegative (all_costs acc) ->
  Forall missing_or_nonnegative (all_costs acc').
Proof.
  intros Hc. unfold window.
  destruct (get_forecast _ _ _) as [fc|]; [|discriminate]. simpl.
  destruct (get_position_size _ _ _ _) as [pos|]; [|discriminate]. simpl.
  destruct (loc fc _) as [f|]; [|discriminate]. simpl.
  destruct (loc pos _) as [p|]; [|discriminate]. simpl.
  destruct (loc _ _) as [r|]; [|discriminate]. simpl.
  destruct (loc _ _) as [cs|] eqn:Hcs; [|discriminate]. simpl.
  intros [= <-] Hacc. simpl. apply Forall_app. split; [exact Hacc|].
  apply Forall_forall. intros v Hv.
  unfold values in Hv. apply in_map_iff in Hv as (p0 & <- & Hp0).
  apply (loc_incl _ _ _ Hcs) in Hp0.
  apply (in_map snd) in Hp0. fold (values (smap (fun v => fmul v (Fin c))
    (smap fabs (diff pos)))) in Hp0.
  rewrite !values_smap in Hp0.
  apply in_map_iff in Hp0 as (u & <- & Hu).
  apply in_map_iff in Hu as (x & <- & _).
  apply cost_value_nonnegative, Hc.
Qed.

Lemma windows_costs (self : t) (prices : Series) (capital : float) (c : R)
      (starts : list Z) (acc acc' : accum) :
  0 <= c ->
  windows self prices capital (Fin c) acc starts = Returned acc' ->
  Forall missing_or_nonnegative (all_costs acc) ->
  Forall missing_or_nonnegative (all_costs acc').
Proof.
  intros Hc. revert acc. induction starts as [|i starts IH]; intros acc; simpl.
  - intros [= <-] H. exact H.
  - destruct (window self prices capital (Fin c) acc i) as [acc1|] eqn:Hw;
      [|discriminate]. simpl.
    intros Hrest Hacc. apply (IH acc1 Hrest).
    exact (window_costs _ _ _ _ _ _ _ Hc Hw Hacc).
Qed.

(** X4: with a non-negative transaction cost rate, no cost in the result
    of [run] is negative: every entry of the cost series is missing or at
    least zero, whatever the signal and the sizing rule. *)
Theorem run_costs_never_negative
        (self : t) (prices : Series) (capital : float) (c : R) (res : result) :
  0 <= c ->
  run self prices capital (Fin c) = Returned res ->
  forall ts v, In (ts, v) (costs res) ->
               isnan v = true \/ fle (Fin 0) v = true.
Proof.
  intros Hc Hrun ts v Hin.
  destruct (run_inversion _ _ _ _ _ Hrun)
    as (starts & acc & _ & Hw & _ & _ & _ & Hcs & _).
  assert (Hall : Forall missing_or_nonnegative (all_costs acc)).
  { apply (windows_costs _ _ _ _ _ _ _ Hc Hw). constructor. }
  rewrite Forall_forall in Hall. apply Hall.
  rewrite <- (values_new_series _ _ _ Hcs).
  apply (in_map snd) in Hin. exact Hin.
Qed.

Lemma nonempty_index_has_row (s : Series) (ts : Z) (rest : list Z) :
  index s = ts :: rest -> exists v, In (ts, v) s.
Proof.
  destruct s as [|[t' v] s]; simpl; [discriminate|].
  intros [= -> _]. exists v. left; reflexivity.
Qed.

Lemma run_costs_never_negative_witness :
  exists res ts v,
    run Scenarios.week_backtest Scenarios.week_prices (Fin 100000)
        (Fin (1 / 10000)) = Returned res /\
    In (ts, v) (costs res) /\
    (isnan v = true \/ fle (Fin 0) v = true).
Proof.
  destruct week_run as (res & Hrun & Hidx & _).
  assert (Hci : index (costs res) = [5%Z]).
  { destruct (run_inversion _ _ _ _ _ Hrun)
      as (starts & acc & _ & _ & Hr & _ & _ & Hc & _).
    rewrite (index_new_series _ _ _ Hc), <- (index_new_series _ _ _ Hr).
    exact Hidx. }
  destruct (nonempty_index_has_row _ _ _ Hci) as (v & Hin).
  exists res, 5%Z, v. split; [exact Hrun|]. split; [exact Hin|].
  eapply (run_costs_never_negative
            Scenarios.week_backtest Scenarios.week_prices (Fin 100000)
            (1 / 10000) res); [lra | exact Hrun | exact Hin].
Defined.

End ResultInvariants.

(** ** Performance metrics *)

Section Metrics.
Import RollingWindowBacktest Notions.
Local Open Scope R_scope.

Lemma count_le_length (l : list float) : (count l <= length l)%nat.
Proof. unfold count, present. apply filter_length_le. Qed.

(** Below two observations the standard deviation is missing. *)
Lemma std_few (l : list float) : (count l < 2)%nat -> std l = NaN.
Proof.
  intros H. unfold std, var.
  destruct (count l) as [|[|n]]; [reflexivity | reflexivity | lia].
Qed.

Lemma calculate_metrics_few (res : result) :
  (0 < length (returns res))%nat ->
  (count (values (returns res)) < 2)%nat ->
  exists m,
    calculate_metrics res = Some m /\
    sharpe_ratio m = NaN /\ std_dev m = NaN /\
    num_trades m = length (returns res).
Proof.
  intros Hlen Hcnt. unfold calculate_metrics.
  rewrite (std_few _ Hcnt). simpl feqb. rewrite length_values.
  destruct (Nat.eqb_spec (length (returns res)) 0) as [E|_]; [lia|].
  simpl. eexists. split; [reflexivity|]. simpl.
  rewrite fdiv_nan_r. repeat split; reflexivity.
Qed.

(** X5: on a result with at least one row but fewer than two non-missing
    returns, [calculate_metrics] does not return None: the standard
    deviation is missing, not zero, so the guard lets the result through
    and the Sharpe ratio reported is NaN. *)
Theorem calculate_metrics_single_observation (res : result) :
  (0 < length (returns res))%nat ->
  (count (values (returns res)) < 2)%nat ->
  exists m,
    calculate_metrics res = Some m /\
    sharpe_ratio m = NaN /\ std_dev m = NaN /\
    num_trades m = length (returns res).
Proof. exact (calculate_metrics_few res). Qed.

Lemma week_result_one_row (res : result) :
  index (returns res) = [5%Z] ->
  (0 < length (returns res))%nat /\ (count (values (returns res)) < 2)%nat.
Proof.
  intros H.
  assert (Hl : length (returns res) = 1%nat).
  { rewrite <- length_index, H. reflexivity. }
  split; [lia|].
  pose proof (count_le_length (values (returns res))) as Hc.
  rewrite length_values in Hc. lia.
Qed.

Lemma calculate_metrics_single_observation_witness :
  exists res m,
    run Scenarios.week_backtest Scenarios.week_prices (Fin 100000)
        (Fin (1 / 10000)) = Returned res /\
    calculate_metrics res = Some m /\
    sharpe_ratio m = NaN /\ std_dev m = NaN /\
    num_trades m = length (returns res).
Proof.
  destruct week_run as (res & Hrun & Hidx & _).
  destruct (week_result_one_row res Hidx) as [Hlen Hcnt].
  destruct (calculate_metrics_single_observation res Hlen Hcnt)
    as (m & Hm & Hs & Hd & Hn).
  exists res, m. repeat split; assumption.
Defined.


Lemma two_day_std :
  exists s, 0 < s /\ std (values (returns two_day_result)) = Fin s.
Proof.
  unfold std, var, mean, sum, count, fsum, of_nat. cbn.
  feval.
  match goal with |- context [sqrt ?a] => exists (sqrt a) end.
  split; [apply sqrt_lt_R0; lra | reflexivity].
Qed.


Lemma two_day_metrics : exists m, calculate_metrics two_day_result = Some m.
Proof.
  destruct two_day_std as (s & Hs & Hstd).
  unfold calculate_metrics. rewrite Hstd. cbn [feqb].
  rewrite Reqb_false by lra. cbn [values returns two_day_result map length
                                   Nat.eqb orb].
  eexists; reflexivity.
Qed.

Lemma calculate_metrics_inversion (res : result) (m : metrics) :
  calculate_metrics res = Some m ->
  length (returns res) <> 0%nat /\
  num_trades m = length (returns res) /\
  win_rate m =
    fdiv (of_nat (length (filter (fun v => fgt v (Fin 0))
                                 (values (returns res)))))
         (of_nat (length (returns res))) /\
  total_return m =
    fsub (last (values (cumprod (smap (fun v => fadd (Fin 1) v) (returns res))))
               NaN) (Fin 1) /\
  max_drawdown m =
    (let cumulative := cumprod (smap (fun v => fadd (Fin 1) v) (returns res)) in
     let running_max := expanding_max cumulative in
     Pandas.min (values (binop fdiv (binop fsub cumulative running_max)
                               running_max))).
Proof.
  unfold calculate_metrics.
  destruct (feqb _ _ || _) eqn:G; [discriminate|].
  apply orb_false_elim in G as [_ G]. rewrite length_values in G.
  apply Nat.eqb_neq in G.
  intros [= <-]. simpl. rewrite length_values.
  repeat split; try reflexivity; exact G.
Qed.

(** X6: whenever [calculate_metrics] returns metrics, the number of trades
    is the number of rows of the result and is at least one, and the win
    rate is a finite number between 0 and 1. *)
Theorem metrics_win_rate_is_a_fraction (res : result) (m : metrics) :
  calculate_metrics res = Some m ->
  num_trades m = length (returns res) /\
  (0 < num_trades m)%nat /\
  exists r, win_rate m = Fin r /\ 0 <= r <= 1.
Proof.
  intros Hm.
  destruct (calculate_metrics_inversion res m Hm) as (Hn & Ht & Hw & _).
  split; [exact Ht|]. split; [lia|].
  rewrite Hw. unfold of_nat.
  set (w := length (filter _ _)). set (n := length (returns res)).
  assert (Hwn : (w <= n)%nat).
  { unfold w, n. rewrite <- (length_values (returns res)).
    apply filter_length_le. }
  assert (Hpos : 0 < INR n) by (apply lt_0_INR; unfold n; lia).
  assert (Hle : INR w <= INR n) by (apply le_INR, Hwn).
  assert (H0 : 0 <= INR w) by apply pos_INR.
  simpl. rewrite Reqb_false by lra.
  exists (INR w / INR n). split; [reflexivity|].
  assert (Hinv : 0 < / INR n) by (apply Rinv_0_lt_compat; exact Hpos).
  unfold Rdiv. split.
  - apply Rmult_le_pos; lra.
  - replace 1 with (INR n * / INR n) by (field; lra).
    apply Rmult_le_compat_r; lra.
Qed.

Lemma metrics_win_rate_is_a_fraction_witness :
  exists m,
    calculate_metrics two_day_result = Some m /\
    num_trades m = length (returns two_day_result) /\
    (0 < num_trades m)%nat /\
    exists r, win_rate m = Fin r /\ 0 <= r <= 1.
Proof.
  destruct two_day_metrics as (m & Hm).
  exists m. split; [exact Hm|].
  exact (metrics_win_rate_is_a_fraction two_day_result m Hm).
Defined.

(** X7: the total return reported by [calculate_metrics] for a result of
    [run] is the last entry of that result's cumulative return series,
    minus 1. *)
Theorem total_return_is_last_cumulative_return
        (self : t) (prices : Series) (capital cost : float)
        (res : result) (m : metrics) :
  run self prices capital cost = Returned res ->
  calculate_metrics res = Some m ->
  total_return m = fsub (last (values (cumulative_returns res)) NaN) (Fin 1).
Proof.
  intros Hrun Hm.
  destruct (run_inversion _ _ _ _ _ Hrun)
    as (starts & acc & _ & _ & _ & _ & _ & _ & Hcum).
  destruct (calculate_metrics_inversion res m Hm) as (_ & _ & _ & Ht & _).
  rewrite Ht, Hcum. reflexivity.
Qed.

Lemma total_return_is_last_cumulative_return_witness :
  exists res m,
    run Scenarios.week_backtest Scenarios.week_prices (Fin 100000)
        (Fin (1 / 10000)) = Returned res /\
    calculate_metrics res = Some m /\
    total_return m = fsub (last (values (cumulative_returns res)) NaN) (Fin 1).
Proof.
  destruct week_run as (res & Hrun & Hidx & _).
  destruct (week_result_one_row res Hidx) as [Hlen Hcnt].
  destruct (calculate_metrics_few res Hlen Hcnt) as (m & Hm & _).
  exists res, m. split; [exact Hrun|]. split; [exact Hm|].
  exact (total_return_is_last_cumulative_return _ _ _ _ res m Hrun Hm).
Defined.

(** *** Drawdown *)

Lemma values_zip_with (f : float -> float -> float) (a b : Series) :
  values (zip_with f a b) =
  map (fun p => f (fst p) (snd p)) (combine (values a) (values b)).
Proof.
  revert b; induction a as [|[ta x] a IH]; intros [|[tb y] b]; simpl;
    try reflexivity.
  f_equal. apply IH.
Qed.

Lemma values_cumprod (s : Series) :
  values (cumprod s) = cumprod_from (Fin 1) (values s).
Proof.
  unfold cumprod. apply values_make_series.
  rewrite length_cumprod_from, length_index, length_values. reflexivity.
Qed.

Lemma length_expanding_max_from (acc : float) (l : list float) :
  length (expanding_max_from acc l) = length l.
Proof.
  revert acc; induction l as [|x l IH]; intros acc; simpl; [reflexivity|].
  rewrite IH. reflexivity.
Qed.

Lemma index_expanding_max (s : Series) : index (expanding_max s) = index s.
Proof.
  unfold expanding_max. apply index_make_series.
  rewrite length_expanding_max_from, length_index, length_values. reflexivity.
Qed.

Lemma values_expanding_max (s : Series) :
  values (expanding_max s) = expanding_max_from NaN (values s).
Proof.
  unfold expanding_max. apply values_make_series.
  rewrite length_expanding_max_from, length_index, length_values. reflexivity.
Qed.

(** Compounding returns above -100% keeps the wealth positive. *)
Lemma cumprod_positive (l : list float) (acc : float) :
  positive_finite acc ->
  Forall return_above_minus_one l ->
  Forall positive_finite (cumprod_from acc (map (fun v => fadd (Fin 1) v) l)).
Proof.
  revert acc; induction l as [|x l IH]; intros acc (a & -> & Ha) Hl; simpl.
  - constructor.
  - inversion Hl as [|? ? (r & -> & Hr) Hl']; subst. simpl.
    assert (Hp : 0 < a * (1 + r)) by (apply Rmult_lt_0_compat; lra).
    constructor.
    + exists (a * (1 + r)). split; [reflexivity | exact Hp].
    + apply IH; [|exact Hl']. exists (a * (1 + r)). split; [reflexivity | exact Hp].
Qed.

(** Against a running maximum, positive wealth is down by less than 100%
    and never up. *)
Lemma drawdown_in_range (C : list float) (acc : float) :
  Forall positive_finite C ->
  acc = NaN \/ positive_finite acc ->
  Forall (fun v => exists d, v = Fin d /\ -1 < d <= 0)
         (map (fun p => fdiv (fst p) (snd p))
              (combine (map (fun p => fsub (fst p) (snd p))
                            (combine C (expanding_max_from acc C)))
                       (expanding_max_from acc C))).
Proof.
  intros HC; revert acc; induction HC as [|x C (c & -> & Hc) HC IH];
    intros acc Hacc; simpl.
  - constructor.
  - destruct Hacc as [-> | (M & -> & HM)]; simpl.
    + constructor.
      * rewrite Reqb_false by lra. exists ((c + - c) / c).
        split; [reflexivity|]. unfold Rdiv. rewrite Rplus_opp_r, Rmult_0_l. lra.
      * apply IH. right. exists c. split; [reflexivity | exact Hc].
    + destruct (Rltb_spec M c) as [Hlt | Hge]; simpl.
      * constructor.
        -- rewrite Reqb_false by lra. exists ((c + - c) / c).
           split; [reflexivity|]. unfold Rdiv.
           rewrite Rplus_opp_r, Rmult_0_l. lra.
        -- apply IH. right. exists c. split; [reflexivity | exact Hc].
      * constructor.
        -- rewrite Reqb_false by lra. exists ((c + - M) / M).
           split; [reflexivity|].
           assert (Hinv : 0 < / M) by (apply Rinv_0_lt_compat; exact HM).
           unfold Rdiv. split.
           ++ replace (-1) with (- M * / M) by (field; lra).
              apply Rmult_lt_compat_r; lra.
           ++ replace 0 with (0 * / M) by ring.
              apply Rmult_le_compat_r; lra.
        -- apply IH. right. exists M. split; [reflexivity | exact HM].
Qed.

Lemma fold_fmin2_keeps (P : float -> Prop) (rest : list float) (x : float) :
  P x -> Forall P rest -> P (fold_left fmin2 rest x).
Proof.
  revert x; induction rest as [|y rest IH]; intros x Hx Hr; simpl.
  - exact Hx.
  - inversion Hr; subst. apply IH; [|assumption].
    unfold fmin2. destruct (flt y x); assumption.
Qed.

Lemma present_all (l : list float) :
  Forall (fun v => isnan v = false) l -> present l = l.
Proof.
  induction 1 as [|x l Hx Hl IH]; simpl; [reflexivity|].
  unfold notna. rewrite Hx. simpl. f_equal. exact IH.
Qed.

Lemma min_keeps (P : float -> Prop) (l : list float) :
  (forall v, P v -> isnan v = false) ->
  l <> [] -> Forall P l -> P (Pandas.min l).
Proof.
  intros HP Hne Hl. unfold Pandas.min.
  rewrite present_all by (eapply Forall_impl; [|exact Hl]; exact HP).
  destruct l as [|x rest]; [contradiction|].
  inversion Hl; subst. apply fold_fmin2_keeps; assumption.
Qed.

(** X8: when every return of the result is finite and above -100%, the
    maximum drawdown reported by [calculate_metrics] is a finite number
    between -1 and 0 inclusive.  (In exact arithmetic it stays above -1;
    the closed bound also covers float64, where the compounded wealth can
    round down to a drawdown of exactly -1.0.) *)
Theorem max_drawdown_range (res : result) (m : metrics) :
  calculate_metrics res = Some m ->
  Forall return_above_minus_one (values (returns res)) ->
  exists d, max_drawdown m = Fin d /\ -1 <= d <= 0.
Proof.
  intros Hm Hall.
  destruct (calculate_metrics_inversion res m Hm) as (Hn & _ & _ & _ & Hd).
  rewrite Hd. cbv zeta.
  set (cumulative := cumprod (smap (fun v => fadd (Fin 1) v) (returns res))).
  assert (Hidx : index (expanding_max cumulative) = index cumulative)
    by apply index_expanding_max.
  assert (Hidx2 : index (binop fsub cumulative (expanding_max cumulative))
                  = index cumulative).
  { apply index_binop_same. symmetry; exact Hidx. }
  rewrite (binop_same_index fdiv) by (rewrite Hidx2, Hidx; reflexivity).
  rewrite (binop_same_index fsub) by (symmetry; exact Hidx).
  rewrite !values_zip_with, values_expanding_max.
  assert (HC : values cumulative =
               cumprod_from (Fin 1)
                 (map (fun v => fadd (Fin 1) v) (values (returns res)))).
  { unfold cumulative. rewrite values_cumprod, values_smap. reflexivity. }
  assert (Hpos : Forall positive_finite (values cumulative)).
  { rewrite HC. apply cumprod_positive; [|exact Hall].
    exists 1. split; [reflexivity | lra]. }
  assert (Hstrict : exists d,
             Pandas.min
               (map (fun p => fdiv (fst p) (snd p))
                  (combine
                     (map (fun p => fsub (fst p) (snd p))
                        (combine (values cumulative)
                           (expanding_max_from NaN (values cumulative))))
                     (expanding_max_from NaN (values cumulative))))
             = Fin d /\ -1 < d <= 0).
  { apply (min_keeps (fun v => exists d, v = Fin d /\ -1 < d <= 0)).
    - intros v (d & -> & _). reflexivity.
    - intros E. apply (f_equal (@length float)) in E.
      rewrite length_map, length_combine, length_map, length_combine,
        length_expanding_max_from, !Nat.min_id in E.
      rewrite HC, length_cumprod_from, length_map, length_values in E.
      simpl in E. contradiction.
    - apply drawdown_in_range; [exact Hpos | left; reflexivity]. }
  destruct Hstrict as (d & Hmin & Hd1 & Hd2).
  exists d. split; [exact Hmin | lra].
Qed.

Lemma two_day_returns_above_minus_one :
  Forall return_above_minus_one (values (returns two_day_result)).
Proof.
  repeat constructor.
  - exists (1 / 10). split; [reflexivity | lra].
  - exists (-5 / 100). split; [reflexivity | lra].
Qed.

Lemma max_drawdown_range_witness :
  exists m d,
    calculate_metrics two_day_result = Some m /\
    max_drawdown m = Fin d /\ -1 <= d <= 0.
Proof.
  destruct two_day_metrics as (m & Hm).
  destruct (max_drawdown_range two_day_result m Hm
              two_day_returns_above_minus_one) as (d & Hd & Hr).
  exists m, d. repeat split; try assumption; apply Hr.
Defined.

End Metrics.

(** ** Volatility and leverage *)

Section Volatility.
Import VolTargetSizing Notions.
Local Open Scope R_scope.

Lemma annualisation_factor : fsqrt (Fin 256) = Fin 16.
Proof.
  simpl. rewrite Rltb_false by lra. rewrite sqrt_is_16 by reflexivity.
  reflexivity.
Qed.

Lemma zsqrt_nonnegative (x : float) : missing_or_nonnegative (zsqrt x).
Proof.
  unfold missing_or_nonnegative, zsqrt.
  destruct x as [| | |a]; simpl.
  - left; reflexivity.
  - right. apply fle_fin. lra.
  - right; reflexivity.
  - destruct (Rltb_spec a 0) as [Hlt | Hge]; simpl.
    + right. apply fle_fin. lra.
    + right. apply fle_fin. apply sqrt_pos.
Qed.

Lemma annualised_nonnegative (v : float) :
  missing_or_nonnegative v ->
  missing_or_nonnegative (fmul v (fsqrt (Fin 256))).
Proof.
  rewrite annualisation_factor. unfold missing_or_nonnegative.
  destruct v as [| | |a]; simpl.
  - intros _. left; reflexivity.
  - intros [H | H]; discriminate.
  - intros _. unfold signed_inf.
    rewrite Reqb_false by lra. rewrite Rltb_true by lra. right; reflexivity.
  - intros [H | H]; [discriminate|]. right.
    apply fle_fin in H. apply fle_fin. lra.
Qed.

Lemma calculate_volatility_unfold (self : t) (prices : Series) :
  (1 <= lookback self)%Z ->
  calculate_volatility self prices =
  Returned (smap (fun v => fmul v (fsqrt (Fin 256)))
              (make_series (index prices)
                 (map zsqrt (ewm_var (2 / (IZR (lookback self) + 1))
                                     (values (pct_change prices)))))).
Proof.
  intros H. unfold calculate_volatility.
  rewrite (ewm_std_valid _ _ H). simpl. rewrite index_pct_change. reflexivity.
Qed.

Lemma calculate_volatility_invalid (self : t) (prices : Series) :
  (lookback self < 1)%Z ->
  calculate_volatility self prices = Raised ValueError.
Proof.
  intros H. unfold calculate_volatility, ewm_std, ewm_alpha.
  destruct (Z.ltb_spec (lookback self) 1); [reflexivity | lia].
Qed.

Lemma in_make_series_value (idx : list Z) (vals : list float) (ts : Z)
      (v : float) :
  In (ts, v) (make_series idx vals) -> In v vals.
Proof. unfold make_series. apply in_combine_r. Qed.

(** X9: [calculate_volatility] raises ValueError when the lookback is
    below 1; otherwise it returns a series on the labels of [prices] in
    which every entry is missing or at least zero. *)
Theorem calculate_volatility_never_negative (self : t) (prices : Series) :
  ((lookback self < 1)%Z ->
   calculate_volatility self prices = Raised ValueError) /\
  ((1 <= lookback self)%Z ->
   exists vol,
     calculate_volatility self prices = Returned vol /\
     index vol = index prices /\
     forall ts v, In (ts, v) vol ->
                  isnan v = true \/ fle (Fin 0) v = true).
Proof.
  split; [apply calculate_volatility_invalid|].
  intros H. rewrite (calculate_volatility_unfold _ _ H).
  eexists. split; [reflexivity|]. split.
  - rewrite index_smap. apply index_make_series.
    rewrite length_map, length_ewm_var, length_values.
    rewrite <- (length_index (pct_change prices)), index_pct_change.
    reflexivity.
  - intros ts v Hin. apply in_smap in Hin as (u & Hu & ->).
    apply annualised_nonnegative.
    apply in_make_series_value in Hu. apply in_map_iff in Hu as (x & <- & _).
    apply zsqrt_nonnegative.
Qed.

Lemma calculate_volatility_never_negative_witness :
  calculate_volatility (mk (Fin (25 / 100)) 0) Scenarios.doubling_prices
    = Raised ValueError /\
  exists vol,
    calculate_volatility default Scenarios.doubling_prices = Returned vol /\
    index vol = index Scenarios.doubling_prices /\
    forall ts v, In (ts, v) vol -> isnan v = true \/ fle (Fin 0) v = true.
Proof.
  split.
  - apply (proj1 (calculate_volatility_never_negative
                    (mk (Fin (25 / 100)) 0) Scenarios.doubling_prices)).
    simpl; lia.
  - apply (proj2 (calculate_volatility_never_negative
                    default Scenarios.doubling_prices)).
    simpl; lia.
Defined.

(** *** The warm-up of the volatility estimate *)

Lemma leading_missing_map (f : float -> float) (k : nat) (l : list float) :
  f NaN = NaN -> leading_missing k l -> leading_missing k (map f l).
Proof.
  intros Hf Hl j v Hj Hn. rewrite nth_error_map in Hn.
  destruct (nth_error l j) as [u|] eqn:Hu; [|discriminate].
  injection Hn as <-. rewrite (Hl j u Hj Hu). exact Hf.
Qed.

Lemma leading_missing_weaken (k k' : nat) (l : list float) :
  (k' <= k)%nat -> leading_missing k l -> leading_missing k' l.
Proof. intros Hle Hl j v Hj. apply Hl. lia. Qed.

Lemma leading_missing_cons (k : nat) (l : list float) :
  leading_missing k l -> leading_missing (S k) (NaN :: l).
Proof.
  intros Hl [|j] v Hj; simpl.
  - intros [= <-]. reflexivity.
  - apply Hl. lia.
Qed.

Lemma nth_error_removelast {A : Type} (l : list A) (j : nat) (v : A) :
  nth_error (removelast l) j = Some v -> nth_error l j = Some v.
Proof.
  revert j; induction l as [|x l IH]; intros j; simpl.
  - destruct j; discriminate.
  - destruct l as [|y l].
    + destruct j; discriminate.
    + destruct j as [|j]; [intros H; exact H|].
      simpl. intros H. apply (IH j). exact H.
Qed.

Lemma leading_missing_removelast (k : nat) (l : list float) :
  leading_missing k l -> leading_missing k (removelast l).
Proof.
  intros Hl j v Hj Hn. apply (Hl j v Hj). apply nth_error_removelast, Hn.
Qed.

Lemma length_removelast_cons {A : Type} (x : A) (l : list A) :
  length (removelast (x :: l)) = length l.
Proof.
  rewrite removelast_firstn_len, length_firstn. simpl. lia.
Qed.

Lemma values_shift1 (s : Series) :
  values (shift1 s) =
  match s with [] => [] | _ => NaN :: removelast (values s) end.
Proof.
  unfold shift1. destruct s as [|[t x] s]; [reflexivity|].
  apply values_make_series.
  change (values ((t, x) :: s)) with (x :: values s).
  rewrite length_index. cbn [length].
  rewrite (length_removelast_cons x (values s)), length_values. reflexivity.
Qed.

Lemma leading_missing_shift1 (k : nat) (s : Series) :
  leading_missing k (values s) -> leading_missing (S k) (values (shift1 s)).
Proof.
  intros Hl. rewrite values_shift1. destruct s as [|p s].
  - intros [|j] v _; discriminate.
  - apply leading_missing_cons, leading_missing_removelast, Hl.
Qed.

Lemma nth_error_values_zip_with (f : float -> float -> float) (a b : Series)
      (j : nat) (v : float) :
  nth_error (values (zip_with f a b)) j = Some v ->
  exists x y, nth_error (values a) j = Some x /\
              nth_error (values b) j = Some y /\ v = f x y.
Proof.
  revert b j; induction a as [|[ta x] a IH]; intros [|[tb y] b] j; simpl;
    try (destruct j; discriminate).
  destruct j as [|j]; simpl.
  - intros [= <-]. exists x, y. repeat split.
  - apply IH.
Qed.

Lemma leading_missing_zip_left (f : float -> float -> float) (k : nat)
      (a b : Series) :
  (forall y, f NaN y = NaN) ->
  leading_missing k (values a) ->
  leading_missing k (values (zip_with f a b)).
Proof.
  intros Hf Ha j v Hj Hn.
  apply nth_error_values_zip_with in Hn as (x & y & Hx & _ & ->).
  rewrite (Ha j x Hj Hx). apply Hf.
Qed.

Lemma leading_missing_zip_right (f : float -> float -> float) (k : nat)
      (a b : Series) :
  (forall x, f x NaN = NaN) ->
  leading_missing k (values b) ->
  leading_missing k (values (zip_with f a b)).
Proof.
  intros Hf Hb j v Hj Hn.
  apply nth_error_values_zip_with in Hn as (x & y & _ & Hy & ->).
  rewrite (Hb j y Hj Hy). apply Hf.
Qed.

(** The first daily return of a price series is missing. *)
Lemma pct_change_first_missing (s : Series) :
  leading_missing 1 (values (pct_change s)).
Proof.
  unfold pct_change. rewrite values_smap.
  apply leading_missing_map; [reflexivity|].
  rewrite binop_same_index by (symmetry; apply index_shift1).
  apply leading_missing_zip_right; [apply fdiv_nan_r|].
  apply (leading_missing_shift1 0). intros j v Hj. lia.
Qed.

(** The variance estimate needs two observations: after a missing first
    value its first two outputs are missing. *)
Lemma ewm_var_warm_up (alpha : R) (xs : list float) :
  leading_missing 1 xs -> leading_missing 2 (ewm_var alpha xs).
Proof.
  intros Hx. destruct xs as [|x0 rest].
  - intros [|j] v _; discriminate.
  - assert (E : x0 = NaN) by (apply (Hx 0%nat); [lia | reflexivity]).
    subst x0. intros [|[|j]] v Hj; simpl; try lia.
    + intros [= <-]. reflexivity.
    + destruct rest as [|r1 rest]; [discriminate|]. simpl.
      intros [= <-]. unfold ewm_var_out, ewm_var_step. simpl.
      rewrite Rltb_false by lra.
      destruct (notna r1); reflexivity.
Qed.

Lemma zsqrt_nan : zsqrt NaN = NaN.
Proof. reflexivity. Qed.

Lemma nth_error_make_series_value (idx : list Z) (vals : list float) (j : nat)
      (v : float) :
  nth_error (values (make_series idx vals)) j = Some v ->
  nth_error vals j = Some v.
Proof.
  unfold values. rewrite nth_error_map, nth_error_make_series.
  destruct (nth_error idx j); [|discriminate].
  destruct (nth_error vals j); [|discriminate].
  simpl. intros H; exact H.
Qed.

Lemma leading_missing_make_series (k : nat) (idx : list Z) (vals : list float) :
  leading_missing k vals -> leading_missing k (values (make_series idx vals)).
Proof.
  intros Hl j v Hj Hn. apply (Hl j v Hj).
  apply nth_error_make_series_value in Hn. exact Hn.
Qed.

Lemma calculate_volatility_leading (self : t) (prices vol : Series) :
  calculate_volatility self prices = Returned vol ->
  index vol = index prices /\ leading_missing 2 (values vol).
Proof.
  destruct (Z.ltb_spec (lookback self) 1) as [Hlt | Hge].
  - rewrite (calculate_volatility_invalid _ _ Hlt). discriminate.
  - rewrite (calculate_volatility_unfold _ _ Hge). intros [= <-]. split.
    + rewrite index_smap. apply index_make_series.
      rewrite length_map, length_ewm_var, length_values.
      rewrite <- (length_index (pct_change prices)), index_pct_change.
      reflexivity.
    + rewrite values_smap. apply leading_missing_map; [reflexivity|].
      apply leading_missing_make_series.
      apply leading_missing_map; [apply zsqrt_nan|].
      apply ewm_var_warm_up, pct_change_first_missing.
Qed.

(** X10: whatever the prices and the lookback, the first two entries of
    the series returned by [calculate_volatility] are missing. *)
Theorem calculate_volatility_warm_up (self : t) (prices vol : Series) :
  calculate_volatility self prices = Returned vol ->
  forall k v, (k < 2)%nat -> nth_error (values vol) k = Some v -> v = NaN.
Proof.
  intros H. exact (proj2 (calculate_volatility_leading self prices vol H)).
Qed.

Lemma calculate_volatility_warm_up_witness :
  exists vol,
    calculate_volatility (mk (Fin (25 / 100)) 2)
      [(2%Z, Fin 4); (3%Z, Fin 5); (4%Z, Fin 4); (5%Z, Fin 6)] = Returned vol /\
    forall k v, (k < 2)%nat -> nth_error (values vol) k = Some v -> v = NaN.
Proof.
  destruct week_volatility as (s4 & s5 & _ & _ & H).
  eexists. split; [exact H|].
  exact (calculate_volatility_warm_up _ _ _ H).
Defined.

(** *** Leverage *)

Lemma leverage_value (vt cap sigma p f : R) :
  0 < cap -> 0 < sigma -> 0 < p ->
  Rabs (vt * cap / (sigma * p) * (f / 10) * p) / cap
  = Rabs vt * Rabs f / (10 * sigma).
Proof.
  intros Hc Hs Hp.
  replace (vt * cap / (sigma * p) * (f / 10) * p)
    with (vt * f * (cap / (10 * sigma))) by (field; lra).
  assert (Hq : 0 < cap / (10 * sigma)).
  { apply Rdiv_lt_0_compat; lra. }
  rewrite !Rabs_mult, (Rabs_pos_eq (cap / (10 * sigma))) by lra.
  field; lra.
Qed.

(** X11: where volatility, price and capital are positive and finite, the
    leverage of the position that [get_position_size] returns is
    |vol_target| * |forecast| / (10 * volatility): it depends neither on
    the capital nor on the price. *)
Theorem leverage_of_sized_position
        (self : t) (forecast prices vol : Series) (ts : Z)
        (vt cap sigma p f : R) :
  vol_target self = Fin vt ->
  0 < cap -> 0 < sigma -> 0 < p ->
  calculate_volatility self prices = Returned vol ->
  get ts vol = Some (Fin sigma) ->
  get ts prices = Some (Fin p) ->
  get ts forecast = Some (Fin f) ->
  exists pos,
    get_position_size self forecast prices (Fin cap) = Returned pos /\
    get ts (get_leverage self pos prices (Fin cap)) =
      Some (Fin (Rabs vt * Rabs f / (10 * sigma))).
Proof.
  intros Hvt Hc Hs Hp Hvol Hsig Hprice Hfc.
  destruct (get_position_size_at self forecast prices (Fin cap) vol ts
              (Fin sigma) Hvol Hsig) as (pos & Hpos & Hg).
  exists pos. split; [exact Hpos|].
  unfold get_leverage. rewrite !get_smap.
  rewrite (get_binop_left fmul pos prices ts _ Hg).
  unfold get_or_nan. rewrite get_smap, Hprice, Hfc, Hvt. simpl.
  assert (Hsp : sigma * p <> 0).
  { apply Rgt_not_eq. apply Rmult_lt_0_compat; assumption. }
  rewrite (Reqb_false (sigma * p) 0) by exact Hsp.
  rewrite (Reqb_false 10 0) by lra. simpl.
  rewrite (Reqb_false cap 0) by lra.
  f_equal. f_equal. apply leverage_value; assumption.
Qed.

Lemma leverage_of_sized_position_witness :
  exists (sigma : R) (pos : Series),
    0 < sigma /\
    get_position_size (mk (Fin (25 / 100)) 2)
      [(2%Z, Fin 0); (3%Z, Fin 8); (4%Z, Fin (-5)); (5%Z, Fin (35 / 3))]
      [(2%Z, Fin 4); (3%Z, Fin 5); (4%Z, Fin 4); (5%Z, Fin 6)]
      (Fin 100000) = Returned pos /\
    get 4 (get_leverage (mk (Fin (25 / 100)) 2) pos
             [(2%Z, Fin 4); (3%Z, Fin 5); (4%Z, Fin 4); (5%Z, Fin 6)]
             (Fin 100000)) =
      Some (Fin (Rabs (25 / 100) * Rabs (-5) / (10 * sigma))).
Proof.
  destruct week_volatility as (s4 & s5 & H4 & _ & Hvol).
  destruct (leverage_of_sized_position
              (mk (Fin (25 / 100)) 2)
              [(2%Z, Fin 0); (3%Z, Fin 8); (4%Z, Fin (-5)); (5%Z, Fin (35 / 3))]
              [(2%Z, Fin 4); (3%Z, Fin 5); (4%Z, Fin 4); (5%Z, Fin 6)]
              _ 4%Z (25 / 100) 100000 s4 4 (-5)
              eq_refl ltac:(lra) H4 ltac:(lra) Hvol eq_refl eq_refl eq_refl)
    as (pos & Hpos & Hlev).
  exists s4, pos. split; [exact H4|]. split; [exact Hpos | exact Hlev].
Defined.

End Volatility.

(** ** The forecast generator *)

Section Forecasts.
Import EWMASignal Notions.
Local Open Scope R_scope.

Lemma length_ewma_loop (com alpha : R) (w : float) (old_wt : R)
      (xs : list float) :
  length (ewma_loop com alpha w old_wt xs) = length xs.
Proof.
  revert w old_wt; induction xs as [|x xs IH]; intros w old_wt; simpl;
    [reflexivity|].
  destruct (isnan w); simpl; [rewrite IH; reflexivity|].
  destruct (isnan x); simpl; rewrite IH; reflexivity.
Qed.

Lemma length_ewma (com alpha : R) (xs : list float) :
  length (ewma com alpha xs) = length xs.
Proof.
  destruct xs as [|x xs]; simpl; [reflexivity|].
  rewrite length_ewma_loop. reflexivity.
Qed.

Lemma index_ewm_mean (span : Z) (s r : Series) :
  ewm_mean span s = Returned r -> index r = index s.
Proof.
  unfold ewm_mean. destruct (ewm_alpha span) as [alpha|]; [|discriminate].
  simpl. intros [= <-]. apply index_make_series.
  rewrite length_ewma, length_index, length_values. reflexivity.
Qed.

(** After a missing value the weight of the next observation is
    1 - old_wt for span 3 (center of mass 1) and alpha for other spans. *)
Example ewm_mean_after_gap_span_3 :
  ewm_mean 3 [(0%Z, Fin 4); (1%Z, NaN); (2%Z, Fin 1)]
  = Returned [(0%Z, Fin 4); (1%Z, Fin 4); (2%Z, Fin (7 / 4))].
Proof. unfold ewm_mean, ewm_alpha, ewm_com. feval. fclose. Qed.

Example ewm_mean_after_gap_span_5 :
  ewm_mean 5 [(0%Z, Fin 4); (1%Z, NaN); (2%Z, Fin 1)]
  = Returned [(0%Z, Fin 4); (1%Z, Fin 4); (2%Z, Fin (19 / 7))].
Proof. unfold ewm_mean, ewm_alpha, ewm_com. feval. fclose. Qed.

Lemma ewm_mean_invalid (span : Z) (s : Series) :
  (span < 1)%Z -> ewm_mean span s = Raised ValueError.
Proof.
  intros H. unfold ewm_mean, ewm_alpha.
  destruct (Z.ltb_spec span 1); [reflexivity | lia].
Qed.

Lemma get_forecast_index (self : t) (prices : Series)
      (train_prices : option Series) (fc : Series) :
  get_forecast self prices train_prices = Returned fc ->
  index fc = index prices.
Proof.
  unfold get_forecast, get_forecast_locals. cbv zeta.
  generalize (match train_prices with Some tp => tp | None => prices end).
  intros sd.
  destruct (ewm_mean (fast self) prices) as [fe|] eqn:Hfe; [|discriminate].
  destruct (ewm_mean (slow self) prices) as [se|] eqn:Hse; [|discriminate].
  simpl.
  destruct (ewm_mean (fast self) sd); [|discriminate].
  destruct (ewm_mean (slow self) sd); [|discriminate].
  simpl. intros [= <-]. unfold sclip. rewrite !index_smap.
  apply index_ewm_mean in Hfe, Hse.
  rewrite index_binop_same; rewrite index_binop_same; congruence.
Qed.

Lemma get_forecast_invalid (self : t) (prices : Series)
      (train_prices : option Series) :
  (fast self < 1 \/ slow self < 1)%Z ->
  get_forecast self prices train_prices = Raised ValueError.
Proof.
  intros H. unfold get_forecast, get_forecast_locals.
  destruct (Z.ltb_spec (fast self) 1) as [Hf | Hf].
  - rewrite (ewm_mean_invalid _ prices Hf). reflexivity.
  - rewrite (ewm_mean_valid _ prices Hf). simpl.
    rewrite (ewm_mean_invalid _ prices) by lia. reflexivity.
Qed.

(** X12: [get_forecast] raises ValueError when a span is below 1, and
    otherwise returns a forecast that has exactly the labels of [prices],
    whatever the training series. *)
Theorem get_forecast_labels (self : t) (prices : Series)
        (train_prices : option Series) :
  ((fast self < 1 \/ slow self < 1)%Z ->
   get_forecast self prices train_prices = Raised ValueError) /\
  ((1 <= fast self)%Z -> (1 <= slow self)%Z ->
   exists fc, get_forecast self prices train_prices = Returned fc /\
              index fc = index prices).
Proof.
  split; [apply get_forecast_invalid|].
  intros Hf Hs.
  destruct (get_forecast_returns self prices train_prices Hf Hs) as [fc Hfc].
  exists fc. split; [exact Hfc|].
  exact (get_forecast_index _ _ _ _ Hfc).
Qed.

Lemma get_forecast_labels_witness :
  get_forecast (mk 0 32) Scenarios.week_prices None = Raised ValueError /\
  exists fc, get_forecast (mk 8 32) Scenarios.week_prices
                          (Some Scenarios.doubling_prices) = Returned fc /\
             index fc = index Scenarios.week_prices.
Proof.
  split.
  - apply (proj1 (get_forecast_labels (mk 0 32) Scenarios.week_prices None)).
    left. simpl. lia.
  - apply (proj2 (get_forecast_labels (mk 8 32) Scenarios.week_prices
                    (Some Scenarios.doubling_prices))); simpl; lia.
Defined.


(** *** A change of price unit *)

Section Rescaling.
Variable c : R.
Hypothesis Hc : 0 < c.

Ltac real_cases :=
  repeat match goal with
  | |- context [Reqb ?a ?b] => destruct (Reqb_spec a b)
  | |- context [Rltb ?a ?b] => destruct (Rltb_spec a b)
  end.

Ltac scale_close :=
  lazymatch goal with
  | |- ?x = ?y =>
      first [ constr_eq x y; reflexivity
            | exfalso; nra
            | apply f_equal; first [ ring | field; lra | field; nra ] ]
  end.

Ltac scale_cases :=
  repeat (simpl; unfold signed_inf; progress real_cases); simpl; scale_close.

Lemma scale_nan : fmul (Fin c) NaN = NaN.
Proof. reflexivity. Qed.

Lemma scale_isnan (x : float) : isnan (fmul (Fin c) x) = isnan x.
Proof. destruct x; scale_cases. Qed.

Lemma scale_feqb (x y : float) :
  feqb (fmul (Fin c) x) (fmul (Fin c) y) = feqb x y.
Proof. destruct x, y; scale_cases. Qed.

Lemma scale_fadd (x y : float) :
  fmul (Fin c) (fadd x y) = fadd (fmul (Fin c) x) (fmul (Fin c) y).
Proof. destruct x, y; scale_cases. Qed.

Lemma scale_fsub (x y : float) :
  fmul (Fin c) (fsub x y) = fsub (fmul (Fin c) x) (fmul (Fin c) y).
Proof. unfold fsub. destruct x, y; scale_cases. Qed.

Lemma scale_fmul (a : R) (x : float) :
  fmul (Fin c) (fmul (Fin a) x) = fmul (Fin a) (fmul (Fin c) x).
Proof. destruct x; scale_cases. Qed.

Lemma scale_fdiv (x : float) (d : R) :
  fmul (Fin c) (fdiv x (Fin d)) = fdiv (fmul (Fin c) x) (Fin d).
Proof. destruct x; scale_cases. Qed.

(** The ratio of two prices does not depend on the unit. *)
Lemma scale_ratio (x y : float) :
  fdiv (fmul (Fin c) x) (fmul (Fin c) y) = fdiv x y.
Proof. destruct x, y; scale_cases. Qed.


Lemma ewma_loop_rescaled (com alpha : R) (xs : list float) (w : float)
      (old_wt : R) :
  ewma_loop com alpha (fmul (Fin c) w) old_wt (map (fmul (Fin c)) xs)
  = map (fmul (Fin c)) (ewma_loop com alpha w old_wt xs).
Proof.
  revert w old_wt; induction xs as [|x xs IH]; intros w old_wt;
    [reflexivity|].
  cbn [map ewma_loop]. rewrite !scale_isnan, scale_feqb.
  destruct (isnan w).
  - cbn [map]. rewrite IH. reflexivity.
  - destruct (isnan x).
    + cbn [map]. rewrite IH. reflexivity.
    + destruct (feqb w x).
      * cbn [map]. rewrite IH. reflexivity.
      * cbn [map]. rewrite <- IH.
        rewrite scale_fdiv, scale_fadd, !scale_fmul. reflexivity.
Qed.

Lemma ewma_rescaled (com alpha : R) (xs : list float) :
  ewma com alpha (map (fmul (Fin c)) xs)
  = map (fmul (Fin c)) (ewma com alpha xs).
Proof.
  destruct xs as [|x xs]; [reflexivity|].
  cbn [map ewma]. rewrite ewma_loop_rescaled. reflexivity.
Qed.

Lemma smap_make_series (f : float -> float) (idx : list Z) (vals : list float) :
  smap f (make_series idx vals) = make_series idx (map f vals).
Proof.
  unfold smap, make_series. revert vals.
  induction idx as [|t idx IH]; intros [|v vals]; simpl; try reflexivity.
  rewrite IH. reflexivity.
Qed.

Lemma ewm_mean_rescaled (span : Z) (s : Series) :
  ewm_mean span (rescaled c s)
  = do r <- ewm_mean span s; Returned (rescaled c r).
Proof.
  unfold ewm_mean, rescaled.
  destruct (ewm_alpha span) as [alpha|]; [|reflexivity].
  cbn [bind]. rewrite index_smap, values_smap, ewma_rescaled, smap_make_series.
  reflexivity.
Qed.

Lemma get_or_nan_smap (g : float -> float) (ts : Z) (s : Series) :
  g NaN = NaN -> get_or_nan ts (smap g s) = g (get_or_nan ts s).
Proof.
  intros Hg. unfold get_or_nan. rewrite get_smap.
  destruct (get ts s); simpl; [reflexivity | symmetry; exact Hg].
Qed.

Lemma zip_with_smap (f : float -> float -> float) (g h : float -> float)
      (a b : Series) :
  zip_with f (smap g a) (smap h b) = zip_with (fun x y => f (g x) (h y)) a b.
Proof.
  revert b; induction a as [|[ta x] a IH]; intros [|[tb y] b]; simpl;
    try reflexivity.
  f_equal. apply IH.
Qed.

Lemma binop_smap (f : float -> float -> float) (g h : float -> float)
      (a b : Series) :
  g NaN = NaN -> h NaN = NaN ->
  binop f (smap g a) (smap h b) = binop (fun x y => f (g x) (h y)) a b.
Proof.
  intros Hg Hh. unfold binop. rewrite !index_smap.
  destruct (index_eqb (index a) (index b)).
  - apply zip_with_smap.
  - apply map_ext. intros t.
    rewrite (get_or_nan_smap g t a Hg), (get_or_nan_smap h t b Hh).
    reflexivity.
Qed.

Lemma zip_with_ext (f f' : float -> float -> float) (a b : Series) :
  (forall x y, f x y = f' x y) -> zip_with f a b = zip_with f' a b.
Proof.
  intros H. revert b; induction a as [|[ta x] a IH]; intros [|[tb y] b]; simpl;
    try reflexivity.
  rewrite H, IH. reflexivity.
Qed.

Lemma binop_ext (f f' : float -> float -> float) (a b : Series) :
  (forall x y, f x y = f' x y) -> binop f a b = binop f' a b.
Proof.
  intros H. unfold binop. destruct (index_eqb _ _).
  - apply zip_with_ext, H.
  - apply map_ext. intros t. rewrite H. reflexivity.
Qed.

Lemma smap_zip_with (k : float -> float) (f : float -> float -> float)
      (a b : Series) :
  smap k (zip_with f a b) = zip_with (fun x y => k (f x y)) a b.
Proof.
  revert b; induction a as [|[ta x] a IH]; intros [|[tb y] b]; simpl;
    try reflexivity.
  f_equal. apply IH.
Qed.

Lemma smap_binop (k : float -> float) (f : float -> float -> float)
      (a b : Series) :
  smap k (binop f a b) = binop (fun x y => k (f x y)) a b.
Proof.
  unfold binop. destruct (index_eqb _ _).
  - apply smap_zip_with.
  - unfold smap. rewrite map_map. reflexivity.
Qed.

(** The raw crossover signal is a ratio: the unit cancels. *)
Lemma raw_signal_rescaled (fe se p : Series) :
  binop fdiv (binop fsub (rescaled c fe) (rescaled c se)) (rescaled c p)
  = binop fdiv (binop fsub fe se) p.
Proof.
  unfold rescaled.
  rewrite (binop_smap fsub) by reflexivity.
  rewrite (binop_ext (fun x y => fsub (fmul (Fin c) x) (fmul (Fin c) y))
                     (fun x y => fmul (Fin c) (fsub x y)))
    by (intros x y; symmetry; apply scale_fsub).
  rewrite <- (smap_binop (fun v => fmul (Fin c) v) fsub).
  rewrite (binop_smap fdiv) by reflexivity.
  apply binop_ext. intros x y. apply scale_ratio.
Qed.

Lemma get_forecast_rescaled (self : t) (prices : Series)
      (train_prices : option Series) :
  get_forecast self (rescaled c prices) (option_map (rescaled c) train_prices)
  = get_forecast self prices train_prices.
Proof.
  unfold get_forecast, get_forecast_locals. cbv zeta.
  replace (match option_map (rescaled c) train_prices with
           | Some tp => tp
           | None => rescaled c prices
           end)
    with (rescaled c (match train_prices with
                      | Some tp => tp
                      | None => prices
                      end))
    by (destruct train_prices; reflexivity).
  generalize (match train_prices with Some tp => tp | None => prices end).
  intros sd. rewrite !ewm_mean_rescaled.
  destruct (ewm_mean (fast self) prices) as [fe|]; [|reflexivity].
  destruct (ewm_mean (slow self) prices) as [se|]; [|reflexivity].
  cbn [bind].
  destruct (ewm_mean (fast self) sd) as [fr|]; [|reflexivity].
  destruct (ewm_mean (slow self) sd) as [sr|]; [|reflexivity].
  cbn [bind forecast]. rewrite !raw_signal_rescaled. reflexivity.
Qed.

End Rescaling.

(** X13: quoting all prices (and the training prices) in another unit,
    that is multiplying them by one positive constant, leaves the forecast
    unchanged. *)
Theorem get_forecast_unit_free (c : R) (self : t) (prices : Series)
        (train_prices : option Series) :
  0 < c ->
  get_forecast self (rescaled c prices) (option_map (rescaled c) train_prices)
  = get_forecast self prices train_prices.
Proof. intros Hc. apply get_forecast_rescaled, Hc. Qed.

Lemma get_forecast_unit_free_witness :
  get_forecast (mk 1 3)
    (rescaled 100 [(2%Z, Fin 4); (3%Z, Fin 5); (4%Z, Fin 4); (5%Z, Fin 6)])
    (option_map (rescaled 100) (Some [(0%Z, Fin 1); (1%Z, Fin 2)]))
  = Returned [(2%Z, Fin 0); (3%Z, Fin 8); (4%Z, Fin (-5)); (5%Z, Fin (35 / 3))].
Proof.
  rewrite (get_forecast_unit_free 100 (mk 1 3)) by lra.
  exact week_forecast.
Defined.

End Forecasts.

(** ** The forecast generator with equal spans *)

Section EqualSpans.
Import EWMASignal Notions.
Local Open Scope R_scope.

Lemma zip_with_diag (f : float -> float -> float) (a : Series) :
  zip_with f a a = smap (fun x => f x x) a.
Proof.
  induction a as [|[t x] a IH]; simpl; [reflexivity|].
  rewrite IH. reflexivity.
Qed.

Lemma fsub_self (x : float) : fsub x x = NaN \/ fsub x x = Fin 0.
Proof.
  destruct x as [| | |a]; simpl; auto.
  right. f_equal. ring.
Qed.

(** A zero crossover over any price is zero or undefined. *)
Lemma zero_signal_ratio (x p : float) :
  fdiv (fsub x x) p = NaN \/ fdiv (fsub x x) p = Fin 0.
Proof.
  destruct (fsub_self x) as [-> | ->]; [left; reflexivity|].
  destruct p as [| | |b]; simpl; auto.
  destruct (Reqb_spec b 0) as [Hz | Hnz].
  - left. unfold signed_inf. rewrite Reqb_true by reflexivity. reflexivity.
  - right. f_equal. field. exact Hnz.
Qed.

Lemma equal_spans_raw_signal (fe p : Series) :
  index fe = index p ->
  Forall (fun v => v = NaN \/ v = Fin 0)
         (values (binop fdiv (binop fsub fe fe) p)).
Proof.
  intros Hi. rewrite (binop_same_index fsub fe fe eq_refl), zip_with_diag.
  rewrite binop_same_index by (rewrite index_smap; exact Hi).
  apply Forall_forall. intros v Hv. unfold values in Hv.
  apply in_map_iff in Hv as ([ts v'] & <- & Hin). cbn [snd].
  apply in_zip_with in Hin as (x & y & Hx & ->).
  apply in_smap in Hx as (u & _ & ->).
  apply zero_signal_ratio.
Qed.

Lemma mean_of_present (l : list float) : mean l = mean (present l).
Proof.
  unfold mean, count, sum, present.
  assert (E : filter notna (filter notna l) = filter notna l).
  { induction l as [|x l IH]; simpl; [reflexivity|].
    destruct (notna x) eqn:Hx; simpl; rewrite ?Hx, IH; reflexivity. }
  rewrite E. reflexivity.
Qed.

Lemma mean_zero_or_missing (l : list float) :
  Forall (fun v => v = NaN \/ v = Fin 0) l ->
  mean l = NaN \/ mean l = Fin 0.
Proof.
  intros Hl. rewrite mean_of_present.
  assert (E : present l = repeat (Fin 0) (length (present l))).
  { apply Forall_eq_repeat. apply Forall_forall. intros x Hx.
    unfold present in Hx. apply filter_In in Hx as [Hin Hn].
    rewrite Forall_forall in Hl. destruct (Hl x Hin) as [-> | ->];
      [discriminate | reflexivity]. }
  rewrite E. destruct (length (present l)) as [|n].
  - left; reflexivity.
  - right. apply mean_zeros.
Qed.

Lemma equal_spans_scaling_factor (l : list float) :
  Forall (fun v => v = NaN \/ v = Fin 0) l ->
  fdiv (Fin 10) (mean (map fabs l)) = NaN \/
  fdiv (Fin 10) (mean (map fabs l)) = PInf.
Proof.
  intros Hl.
  assert (Habs : Forall (fun v => v = NaN \/ v = Fin 0) (map fabs l)).
  { apply Forall_forall. intros v Hv. apply in_map_iff in Hv as (u & <- & Hu).
    rewrite Forall_forall in Hl. destruct (Hl u Hu) as [-> | ->].
    - left; reflexivity.
    - right. simpl. rewrite Rabs_R0. reflexivity. }
  destruct (mean_zero_or_missing _ Habs) as [-> | ->].
  - left; reflexivity.
  - right. simpl. rewrite Reqb_true by reflexivity. unfold signed_inf.
    rewrite Reqb_false by lra. rewrite Rltb_true by lra. reflexivity.
Qed.

Lemma equal_spans_forecast_value (v sf : float) :
  v = NaN \/ v = Fin 0 -> sf = NaN \/ sf = PInf ->
  clip (Fin (-20)) (Fin 20) (fmul v sf) = NaN.
Proof.
  intros [-> | ->] [-> | ->]; try reflexivity.
  simpl. unfold signed_inf. rewrite Reqb_true by reflexivity. reflexivity.
Qed.

(** X14: a signal whose fast and slow spans are equal has a crossover of
    zero everywhere: [get_forecast] raises nothing and returns a forecast
    on the labels of [prices] in which every value is missing. *)
Theorem get_forecast_equal_spans (self : t) (prices : Series)
        (train_prices : option Series) :
  fast self = slow self ->
  (1 <= fast self)%Z ->
  exists fc,
    get_forecast self prices train_prices = Returned fc /\
    index fc = index prices /\
    forall ts v, In (ts, v) fc -> v = NaN.
Proof.
  intros Heq Hf.
  assert (Hs : (1 <= slow self)%Z) by (rewrite <- Heq; exact Hf).
  destruct (get_forecast_returns self prices train_prices Hf Hs) as [fc Hfc].
  exists fc. split; [exact Hfc|].
  split; [exact (get_forecast_index _ _ _ _ Hfc)|].
  revert Hfc. unfold get_forecast, get_forecast_locals. cbv zeta.
  generalize (match train_prices with Some tp => tp | None => prices end).
  intros sd. rewrite <- Heq.
  destruct (ewm_mean (fast self) prices) as [fe|] eqn:Hfe; [|discriminate].
  cbn [bind].
  destruct (ewm_mean (fast self) sd) as [fr|] eqn:Hfr; [|discriminate].
  cbn [bind forecast]. intros [= <-] ts v Hin.
  apply index_ewm_mean in Hfe, Hfr.
  unfold sclip in Hin.
  apply in_smap in Hin as (u & Hu & ->).
  apply in_smap in Hu as (w & Hw & ->).
  apply equal_spans_forecast_value.
  - pose proof (equal_spans_raw_signal fe prices Hfe) as Hraw.
    rewrite Forall_forall in Hraw. apply Hraw.
    apply (in_map snd) in Hw. exact Hw.
  - rewrite values_smap. apply equal_spans_scaling_factor.
    apply equal_spans_raw_signal. exact Hfr.
Qed.

Lemma get_forecast_equal_spans_witness :
  exists fc,
    get_forecast (mk 8 8) Scenarios.week_prices None = Returned fc /\
    index fc = index Scenarios.week_prices /\
    forall ts v, In (ts, v) fc -> v = NaN.
Proof.
  apply (get_forecast_equal_spans (mk 8 8) Scenarios.week_prices None).
  - reflexivity.
  - simpl. lia.
Defined.

End EqualSpans.

(** ** The walk-forward engine: rows lost to the warm-up *)

Section WarmUpRows.
Import RollingWindowBacktest Notions.
Local Open Scope Z_scope.

Lemma fmul_nan_l (y : float) : fmul NaN y = NaN.
Proof. destruct y; reflexivity. Qed.

Lemma leading_missing_binop_left (f : float -> float -> float) (k : nat)
      (a b : Series) :
  index a = index b ->
  (forall y, f NaN y = NaN) ->
  leading_missing k (values a) ->
  leading_missing k (values (binop f a b)).
Proof.
  intros Hi Hf Ha. rewrite (binop_same_index f a b Hi).
  apply leading_missing_zip_left; assumption.
Qed.

(** Sized positions carry the labels of the prices and miss their first
    two entries. *)
Lemma get_position_size_leading (siz : VolTargetSizing.t)
      (fc tp : Series) (capital : float) (pos : Series) :
  VolTargetSizing.get_position_size siz fc tp capital = Returned pos ->
  index fc = index tp ->
  index pos = index tp /\ leading_missing 2 (values pos).
Proof.
  unfold VolTargetSizing.get_position_size.
  destruct (VolTargetSizing.calculate_volatility siz tp) as [vol|] eqn:Hvol;
    [|discriminate].
  cbn [bind]. intros [= <-] Hfc.
  destruct (calculate_volatility_leading siz tp vol Hvol) as [Hiv Hlv].
  assert (Hi1 : index (binop fmul vol tp) = index tp).
  { rewrite index_binop_same by exact Hiv. exact Hiv. }
  split.
  - rewrite index_binop_same; rewrite !index_smap; congruence.
  - apply leading_missing_binop_left.
    + rewrite !index_smap. congruence.
    + apply fmul_nan_l.
    + rewrite values_smap. apply leading_missing_map; [apply fdiv_nan_r|].
      apply leading_missing_binop_left; [exact Hiv | apply fmul_nan_l | exact Hlv].
Qed.

Lemma length_dropna_leading (k : nat) (s : Series) :
  leading_missing k (values s) ->
  (length (dropna s) <= length s - k)%nat.
Proof.
  revert s; induction k as [|k IH]; intros s Hl.
  - rewrite Nat.sub_0_r. apply filter_length_le.
  - destruct s as [|[t x] s]; [simpl; lia|].
    assert (E : x = NaN) by (apply (Hl 0%nat); [lia | reflexivity]).
    subst x. simpl. apply IH.
    intros j v Hj Hn. apply (Hl (S j) v); [lia | exact Hn].
Qed.

(** A slice of positive width holds at most that many rows. *)
Lemma length_slice_width {A : Type} (l : list A) (a w : Z) :
  0 < w -> (length (Py.slice l a (a + w)) <= Z.to_nat w)%nat.
Proof.
  intros Hw. unfold Py.slice. rewrite length_firstn.
  apply Nat.le_trans with (1 := Nat.le_min_l _ _).
  set (n := Z.of_nat (length l)).
  assert (H : Py.slice_bound n (a + w) - Py.slice_bound n a <= w).
  { unfold Py.slice_bound.
    destruct (Z.ltb_spec a 0), (Z.ltb_spec (a + w) 0); lia. }
  lia.
Qed.

(** With the repository's position sizer and a signal that keeps the
    labels of the test prices, one pass of the loop stores at most the
    rows of the test window less its first three. *)
Lemma window_rows (sig : signal_obj) (siz : VolTargetSizing.t)
      (train test : Z) (prices : Series) (capital cost : float)
      (acc acc' : accum) (i : Z) :
  index_preserving sig ->
  0 < test ->
  window (mk sig (vol_target_sizing siz) train test) prices capital cost acc i
    = Returned acc' ->
  (length (timestamps acc') <=
   length (timestamps acc) + (Z.to_nat test - 3))%nat.
Proof.
  intros Hsig Htest. unfold window.
  set (tp := test_slice _ prices i).
  cbn [signal sizing vol_target_sizing get_position_size].
  destruct (get_forecast sig [tp] _) as [fc|] eqn:Hfc; [|discriminate].
  cbn [bind]. apply Hsig in Hfc.
  destruct (VolTargetSizing.get_position_size siz fc tp capital) as [pos|]
    eqn:Hpos; [|discriminate].
  cbn [bind].
  destruct (get_position_size_leading siz fc tp capital pos Hpos Hfc)
    as [Hip Hlp].
  set (net := binop fsub _ _).
  destruct (loc fc _) as [f|]; [|discriminate]. cbn [bind].
  destruct (loc pos _) as [p|]; [|discriminate]. cbn [bind].
  destruct (loc net _) as [r|]; [|discriminate]. cbn [bind].
  destruct (loc _ _) as [cs|]; [|discriminate]. cbn [bind].
  intros [= <-]. cbn [timestamps]. rewrite length_app, length_index.
  apply Nat.add_le_mono_l.
  assert (Hstrat : index (binop fmul (shift1 pos) (pct_change tp)) = index tp).
  { rewrite index_binop_same; rewrite index_shift1; [exact Hip|].
    rewrite index_pct_change. exact Hip. }
  assert (Hcosts : index (smap (fun v => fmul v cost) (smap fabs (diff pos)))
                   = index tp).
  { rewrite !index_smap. unfold diff.
    rewrite index_binop_same; [exact Hip | symmetry; apply index_shift1]. }
  assert (Hnet : leading_missing 3 (values net)).
  { unfold net. apply leading_missing_binop_left.
    - congruence.
    - apply fsub_nan_l.
    - apply leading_missing_binop_left.
      + rewrite index_shift1, index_pct_change. exact Hip.
      + apply fmul_nan_l.
      + apply leading_missing_shift1, Hlp. }
  pose proof (length_dropna_leading 3 net Hnet) as Hd.
  assert (Hlen : length net = length tp).
  { rewrite <- (length_index net), <- (length_index tp). unfold net.
    rewrite index_binop_same by congruence. rewrite Hstrat. reflexivity. }
  assert (Htp : (length tp <= Z.to_nat test)%nat).
  { unfold tp, test_slice, iloc. cbn [test_window].
    apply length_slice_width, Htest. }
  lia.
Qed.

Lemma windows_rows (sig : signal_obj) (siz : VolTargetSizing.t)
      (train test : Z) (prices : Series) (capital cost : float)
      (starts : list Z) (acc acc' : accum) :
  index_preserving sig ->
  0 < test ->
  windows (mk sig (vol_target_sizing siz) train test) prices capital cost
          acc starts = Returned acc' ->
  (length (timestamps acc') <=
   length (timestamps acc) + length starts * (Z.to_nat test - 3))%nat.
Proof.
  intros Hsig Htest. revert acc.
  induction starts as [|i starts IH]; intros acc; simpl.
  - intros [= <-]. lia.
  - destruct (window _ prices capital cost acc i) as [acc1|] eqn:Hw;
      [|discriminate].
    cbn [bind]. intros Hrest.
    pose proof (window_rows _ _ _ _ _ _ _ _ _ _ Hsig Htest Hw).
    pose proof (IH acc1 Hrest). lia.
Qed.

(** X15: with the repository's position sizer and a signal whose forecast
    keeps the labels of the test prices, the first three rows of every
    test window are lost to the warm-up of the volatility estimate: a run
    over n windows reports at most n * (test_window - 3) rows, and so none
    at all when test_window is 3 or less. *)
Theorem run_loses_three_rows_per_window
        (sig : signal_obj) (siz : VolTargetSizing.t) (train test : Z)
        (prices : Series) (capital cost : float) (res : result) :
  index_preserving sig ->
  0 < test ->
  run (mk sig (vol_target_sizing siz) train test) prices capital cost
    = Returned res ->
  exists starts,
    cursors (mk sig (vol_target_sizing siz) train test)
            (Z.of_nat (length prices)) = Returned starts /\
    (length (returns res) <= length starts * (Z.to_nat test - 3))%nat.
Proof.
  intros Hsig Htest Hrun.
  destruct (run_inversion _ _ _ _ _ Hrun)
    as (starts & acc & Hc & Hw & Hr & _).
  exists starts. split; [exact Hc|].
  pose proof (windows_rows _ _ _ _ _ _ _ _ _ _ Hsig Htest Hw) as H.
  cbn [timestamps empty_accum length] in H.
  rewrite <- (length_index (returns res)), (index_new_series _ _ _ Hr).
  lia.
Qed.

Lemma train_data_signal_index_preserving (s : EWMASignal.t) :
  index_preserving (Scenarios.train_data_signal s).
Proof.
  intros p kwargs fc. cbn [get_forecast Scenarios.train_data_signal].
  destruct kwargs as [|[k td] [|? ?]]; try discriminate.
  destruct (String.eqb k "train_data"); [|discriminate].
  apply get_forecast_index.
Qed.

Lemma run_loses_three_rows_per_window_witness :
  exists res starts,
    run Scenarios.week_backtest Scenarios.week_prices (Fin 100000)
        (Fin (1 / 10000)) = Returned res /\
    cursors Scenarios.week_backtest
            (Z.of_nat (length Scenarios.week_prices)) = Returned starts /\
    (length (returns res) <= length starts * (Z.to_nat 4 - 3))%nat.
Proof.
  destruct week_run as (res & Hrun & _).
  destruct (run_loses_three_rows_per_window
              (Scenarios.train_data_signal (EWMASignal.mk 1 3))
              (VolTargetSizing.mk (Fin (25 / 100)) 2) 2 4
              Scenarios.week_prices (Fin 100000) (Fin (1 / 10000)) res
              (train_data_signal_index_preserving _) eq_refl Hrun)
    as (starts & Hc & Hlen).
  exists res, starts. split; [exact Hrun|]. split; [exact Hc | exact Hlen].
Defined.

End WarmUpRows.

(** ** Forecast correlations and the diversification multiplier *)

Section Correlations.
Import PortfolioOptimizer Notions.
Local Open Scope R_scope.

Lemma corr_is_square (df : DataFrame) : is_square (corr df) = true.
Proof.
  unfold is_square, corr. apply forallb_forall. intros r Hr.
  apply in_map_iff in Hr as (cx & <- & _).
  rewrite !length_map. apply Nat.eqb_refl.
Qed.

Lemma calculate_fdm_of_correlations (self : t) (d : forecasts_dict) :
  calculate_fdm self (calculate_correlations self d) =
  Returned
    (let avg := np_mean (off_diagonal_from 0 (calculate_correlations self d)) in
     if flt (py_max avg (Fin 0)) (Fin 1)
     then fdiv (Fin 1) (fsqrt (fsub (Fin 1) (py_max avg (Fin 0))))
     else Fin 1).
Proof.
  apply calculate_fdm_unfold, average_correlation_square.
  unfold calculate_correlations. apply corr_is_square.
Qed.

(** X16: the matrix that [calculate_correlations] returns always fits
    [calculate_fdm]: on it the multiplier is computed without an
    exception, for any dictionary of forecasts, and is at least 1. *)
Theorem fdm_of_correlations_returns (self : t) (d : forecasts_dict) :
  exists fdm,
    calculate_fdm self (calculate_correlations self d) = Returned fdm /\
    fle (Fin 1) fdm = true.
Proof.
  rewrite calculate_fdm_of_correlations. eexists. split; [reflexivity|].
  cbv zeta. apply (proj1 (fdm_of_average _)).
Qed.

Lemma off_diagonal_single (x : float) : off_diagonal_from 0 [[x]] = [].
Proof. reflexivity. Qed.

Lemma length_corr (df : DataFrame) :
  length (corr df) = length (df_columns df).
Proof. unfold corr. apply length_map. Qed.

(** X17: with fewer than two forecasts there is no pair to correlate, and
    the diversification multiplier is exactly 1. *)
Theorem fdm_without_pairs (self : t) (d : forecasts_dict) :
  (length d < 2)%nat ->
  calculate_fdm self (calculate_correlations self d) = Returned (Fin 1).
Proof.
  intros Hlen. rewrite calculate_fdm_of_correlations. f_equal. cbv zeta.
  assert (Hoff : off_diagonal_from 0 (calculate_correlations self d) = []).
  { unfold calculate_correlations, corr.
    pose proof (length_frame_columns d) as Hc.
    destruct (df_columns (frame d)) as [|c0 [|c1 cols]]; simpl in Hc.
    - reflexivity.
    - reflexivity.
    - lia. }
  rewrite Hoff. reflexivity.
Qed.

Lemma fdm_without_pairs_witness :
  calculate_fdm Scenarios.default_optimizer
    (calculate_correlations Scenarios.default_optimizer
       [("EWMA_8_32"%string, Scenarios.week_prices)]) = Returned (Fin 1).
Proof.
  apply (fdm_without_pairs Scenarios.default_optimizer
           [("EWMA_8_32"%string, Scenarios.week_prices)]).
  simpl. lia.
Defined.


(** *** Symmetry *)

Lemma welford_step_swap (st : welford) (vx vy : R) :
  welford_step (swap_columns st) vy vx = swap_columns (welford_step st vx vy).
Proof.
  unfold welford_step, swap_columns.
  cbn [w_nobs w_meanx w_meany w_ssqdm_x w_ssqdm_y w_covxy].
  match goal with
  | |- mk_welford ?n ?a ?b ?p ?q ?e = mk_welford ?n ?a ?b ?p ?q ?e' =>
      replace e with e' by ring
  end.
  reflexivity.
Qed.

Lemma welford_loop_swap (xs ys : list float) (st : welford) :
  welford_loop (swap_columns st) ys xs = swap_columns (welford_loop st xs ys).
Proof.
  revert ys st; induction xs as [|x xs IH]; intros [|y ys] st;
    try reflexivity.
  cbn [welford_loop].
  destruct x, y; try apply IH.
  rewrite <- IH, welford_step_swap. reflexivity.
Qed.

Lemma pearson_sym (xs ys : list float) : pearson xs ys = pearson ys xs.
Proof.
  unfold pearson.
  assert (E : welford_loop (mk_welford 0 0 0 0 0 0) ys xs
              = swap_columns (welford_loop (mk_welford 0 0 0 0 0 0) xs ys))
    by exact (welford_loop_swap xs ys (mk_welford 0 0 0 0 0 0)).
  rewrite E.
  generalize (welford_loop (mk_welford 0 0 0 0 0 0) xs ys). intros st.
  unfold swap_columns.
  cbn [w_nobs w_meanx w_meany w_ssqdm_x w_ssqdm_y w_covxy].
  rewrite (Rmult_comm (w_ssqdm_y st) (w_ssqdm_x st)). reflexivity.
Qed.

(** The entry in row [i] and column [j] of the correlation matrix. *)
Lemma corr_entry (df : DataFrame) (i j : nat) :
  nth j (nth i (corr df) []) NaN =
  match nth_error (df_columns df) i, nth_error (df_columns df) j with
  | Some cx, Some cy => pearson (snd cx) (snd cy)
  | _, _ => NaN
  end.
Proof.
  unfold corr. set (cols := df_columns df).
  destruct (nth_error cols i) as [cx|] eqn:Hi.
  - rewrite (nth_error_nth _ _ _ (map_nth_error _ _ _ Hi)).
    destruct (nth_error cols j) as [cy|] eqn:Hj.
    + rewrite (nth_error_nth _ _ _ (map_nth_error _ _ _ Hj)). reflexivity.
    + apply nth_overflow. rewrite length_map. apply nth_error_None, Hj.
  - rewrite (nth_overflow (map _ cols))
      by (rewrite length_map; apply nth_error_None, Hi).
    destruct j; reflexivity.
Qed.

(** X18: the correlation matrix is symmetric: the entry in row i and
    column j equals the entry in row j and column i (an entry outside the
    matrix reading as missing). *)
Theorem correlations_symmetric (self : t) (d : forecasts_dict) (i j : nat) :
  nth j (nth i (calculate_correlations self d) []) NaN =
  nth i (nth j (calculate_correlations self d) []) NaN.
Proof.
  unfold calculate_correlations. rewrite !corr_entry.
  destruct (nth_error _ i) as [cx|], (nth_error _ j) as [cy|];
    try reflexivity.
  apply pearson_sym.
Qed.

(** *** Range *)

Lemma cross_term_bound (A B C x y : R) :
  0 <= A -> 0 <= B -> C * C <= A * B ->
  2 * C * x * y <= A * (y * y) + B * (x * x).
Proof.
  intros HA HB HC.
  set (S := A * (y * y) + B * (x * x)).
  set (P := 2 * C * x * y).
  assert (HS : 0 <= S).
  { unfold S. apply Rplus_le_le_0_compat; apply Rmult_le_pos;
      try assumption; apply Rle_0_sqr. }
  destruct (Rle_lt_dec P S) as [Hle | Hlt]; [exact Hle|].
  exfalso.
  assert (Hsq : 0 <= (x * x) * (y * y)).
  { apply Rmult_le_pos; apply Rle_0_sqr. }
  pose proof (Rmult_le_compat_r _ _ _ Hsq HC) as H1.
  pose proof (Rle_0_sqr (A * (y * y) - B * (x * x))) as H2.
  unfold Rsqr in H2.
  assert (H3 : P * P <= S * S) by (unfold P, S; nra).
  assert (H4 : S * S < P * P) by (apply Rmult_le_0_lt_compat; lra).
  lra.
Qed.

Lemma welford_step_cauchy_schwarz (st : welford) (vx vy : R) :
  cauchy_schwarz st -> cauchy_schwarz (welford_step st vx vy).
Proof.
  intros (HA & HB & HC). unfold cauchy_schwarz, welford_step.
  cbn [w_nobs w_meanx w_meany w_ssqdm_x w_ssqdm_y w_covxy].
  set (k := 1 / INR (S (w_nobs st))).
  set (dx := vx - w_meanx st). set (dy := vy - w_meany st).
  assert (Hk : 0 < k <= 1).
  { unfold k. assert (1 <= INR (S (w_nobs st))).
    { rewrite S_INR. pose proof (pos_INR (w_nobs st)). lra. }
    assert (Hi : / INR (S (w_nobs st)) <= / 1)
      by (apply Rinv_le_contravar; lra).
    rewrite Rinv_1 in Hi.
    assert (0 < / INR (S (w_nobs st))) by (apply Rinv_0_lt_compat; lra).
    unfold Rdiv. lra. }
  replace (vx - (w_meanx st + k * dx)) with ((1 - k) * dx) by (unfold dx; ring).
  replace (vy - (w_meany st + k * dy)) with ((1 - k) * dy) by (unfold dy; ring).
  set (t := 1 - k). assert (Ht : 0 <= t) by (unfold t; lra).
  pose proof (Rle_0_sqr dx) as Hdx. pose proof (Rle_0_sqr dy) as Hdy.
  unfold Rsqr in Hdx, Hdy.
  pose proof (cross_term_bound _ _ _ dx dy HA HB HC) as Hcross.
  repeat split.
  - assert (0 <= t * (dx * dx)) by (apply Rmult_le_pos; assumption). lra.
  - assert (0 <= t * (dy * dy)) by (apply Rmult_le_pos; assumption). lra.
  - set (A := w_ssqdm_x st) in *. set (B := w_ssqdm_y st) in *.
    set (C := w_covxy st) in *.
    assert (H : (C + t * dx * dy) * (C + t * dx * dy)
                <= (A + t * dx * dx) * (B + t * dy * dy)).
    { pose proof (Rmult_le_compat_l t _ _ Ht Hcross) as H1.
      replace ((C + t * dx * dy) * (C + t * dx * dy))
        with (C * C + t * (2 * C * dx * dy) + t * t * (dx * dx) * (dy * dy))
        by ring.
      replace ((A + t * dx * dx) * (B + t * dy * dy))
        with (A * B + t * (A * (dy * dy) + B * (dx * dx))
              + t * t * (dx * dx) * (dy * dy)) by ring.
      lra. }
    lra.
Qed.

Lemma welford_loop_cauchy_schwarz (xs ys : list float) (st : welford) :
  cauchy_schwarz st -> cauchy_schwarz (welford_loop st xs ys).
Proof.
  revert ys st; induction xs as [|x xs IH]; intros [|y ys] st Hst;
    try exact Hst.
  cbn [welford_loop]. destruct x, y; try (apply IH; exact Hst).
  apply IH, welford_step_cauchy_schwarz, Hst.
Qed.

Lemma pearson_range (xs ys : list float) :
  pearson xs ys = NaN \/ exists r, pearson xs ys = Fin r /\ -1 <= r <= 1.
Proof.
  unfold pearson.
  assert (Hcs : cauchy_schwarz (welford_loop (mk_welford 0 0 0 0 0 0) xs ys)).
  { apply welford_loop_cauchy_schwarz. unfold cauchy_schwarz. simpl.
    repeat split; lra. }
  destruct (welford_loop _ xs ys) as [n mx my A B C].
  destruct Hcs as (HA & HB & HC).
  cbn [w_nobs w_meanx w_meany w_ssqdm_x w_ssqdm_y w_covxy] in *.
  destruct (Nat.ltb n 1); [left; reflexivity|].
  destruct (Reqb_spec (sqrt (A * B)) 0) as [Hz | Hnz]; [left; reflexivity|].
  right. exists (C / sqrt (A * B)). split; [reflexivity|].
  assert (HD : 0 < sqrt (A * B)).
  { pose proof (sqrt_pos (A * B)). lra. }
  assert (Habs : Rabs C <= sqrt (A * B)).
  { rewrite <- (sqrt_Rsqr_abs C). apply sqrt_le_1_alt. exact HC. }
  assert (Hinv : 0 < / sqrt (A * B)) by (apply Rinv_0_lt_compat; exact HD).
  assert (Hlo : - sqrt (A * B) <= C /\ C <= sqrt (A * B)).
  { unfold Rabs in Habs. destruct (Rcase_abs C); lra. }
  unfold Rdiv. split.
  - replace (-1) with (- sqrt (A * B) * / sqrt (A * B)) by (field; lra).
    apply Rmult_le_compat_r; lra.
  - replace 1 with (sqrt (A * B) * / sqrt (A * B)) by (field; lra).
    apply Rmult_le_compat_r; lra.
Qed.

(** X19: every entry of the correlation matrix is missing or lies between
    -1 and 1. *)
Theorem correlations_in_range (self : t) (d : forecasts_dict)
        (row : list float) (v : float) :
  In row (calculate_correlations self d) -> In v row ->
  isnan v = true \/ (fle (Fin (-1)) v = true /\ fle v (Fin 1) = true).
Proof.
  unfold calculate_correlations, corr. intros Hrow Hv.
  apply in_map_iff in Hrow as (cx & <- & _).
  apply in_map_iff in Hv as (cy & <- & _).
  destruct (pearson_range (snd cx) (snd cy)) as [-> | (r & -> & Hr)].
  - left; reflexivity.
  - right. split; apply fle_fin; lra.
Qed.


Lemma correlations_in_range_witness :
  exists row v,
    In row (calculate_correlations Scenarios.default_optimizer
              Scenarios.uneven_forecasts) /\
    In v row /\
    (isnan v = true \/ (fle (Fin (-1)) v = true /\ fle v (Fin 1) = true)).
Proof.
  pose proof (length_frame_columns Scenarios.uneven_forecasts) as Hl.
  destruct (df_columns (frame Scenarios.uneven_forecasts)) as [|cx cols] eqn:E;
    [discriminate|].
  assert (Hrow : In (map (fun cy => pearson (snd cx) (snd cy)) (cx :: cols))
                    (calculate_correlations Scenarios.default_optimizer
                       Scenarios.uneven_forecasts)).
  { unfold calculate_correlations, corr. rewrite E. left; reflexivity. }
  assert (Hv : In (pearson (snd cx) (snd cx))
                  (map (fun cy => pearson (snd cx) (snd cy)) (cx :: cols))).
  { left; reflexivity. }
  exists (map (fun cy => pearson (snd cx) (snd cy)) (cx :: cols)),
         (pearson (snd cx) (snd cx)).
  split; [exact Hrow|]. split; [exact Hv|].
  exact (correlations_in_range _ _ _ _ Hrow Hv).
Defined.

(** *** The diagonal *)

Lemma in_fin_app_other (seen : list float) (x : float) (a : R) :
  isfinite x = false -> (In (Fin a) (seen ++ [x]) <-> In (Fin a) seen).
Proof.
  intros Hx. rewrite in_app_iff. split; [|auto].
  intros [H | [H | []]]; [exact H|]. subst x. discriminate.
Qed.

Lemma varies_app (seen more : list float) :
  varies seen -> varies (seen ++ more).
Proof.
  intros (a & b & Ha & Hb & Hab). exists a, b.
  repeat split; try exact Hab; apply in_or_app; left; assumption.
Qed.

Lemma diagonal_state_skip (st : welford) (seen : list float) (x : float) :
  isfinite x = false ->
  diagonal_state st seen -> diagonal_state st (seen ++ [x]).
Proof.
  intros Hx (Hm & Hs & Hc & Hcases).
  split; [exact Hm|]. split; [exact Hs|]. split; [exact Hc|].
  destruct Hcases as [(Hn & Hz & Hnone) | [(Hn & Hz & Hin & Hall) | (Hn & Hp & Hv)]].
  - left. repeat split; try assumption.
    intros a Ha. apply (Hnone a). apply (in_fin_app_other seen x a Hx), Ha.
  - right; left. repeat split; try assumption.
    + apply in_or_app. left. exact Hin.
    + intros a Ha. apply Hall. apply (in_fin_app_other seen x a Hx), Ha.
  - right; right. repeat split; try assumption. apply varies_app, Hv.
Qed.

Lemma diagonal_state_step (st : welford) (seen : list float) (vx : R) :
  diagonal_state st seen ->
  diagonal_state (welford_step st vx vx) (seen ++ [Fin vx]).
Proof.
  intros (Hm & Hs & Hc & Hcases). unfold diagonal_state, welford_step.
  cbn [w_nobs w_meanx w_meany w_ssqdm_x w_ssqdm_y w_covxy].
  set (n := w_nobs st) in *. set (mx := w_meanx st) in *.
  set (k := 1 / INR (S n)). set (dx := vx - mx).
  assert (HS : INR (S n) = INR n + 1) by apply S_INR.
  assert (Hn0 : 0 <= INR n) by apply pos_INR.
  assert (Hkpos : 0 < / INR (S n)) by (apply Rinv_0_lt_compat; lra).
  assert (Hdev : (vx - (mx + k * dx)) * dx = (1 - k) * (dx * dx))
    by (unfold dx; ring).
  pose proof (Rle_0_sqr dx) as Hsq. unfold Rsqr in Hsq.
  rewrite Hm, Hs, Hc. fold mx. fold dx.
  split; [reflexivity|]. split; [reflexivity|]. split; [reflexivity|].
  rewrite Hdev.
  destruct Hcases as [(Hn & Hz & Hnone) | [(Hn & Hz & Hin & Hall) | (Hn & Hp & Hv)]].
  - (* the first finite value *)
    right; left.
    assert (Hk : k = 1).
    { unfold k. rewrite HS. fold n in Hn. rewrite Hn. simpl. field. }
    assert (Hmean : mx + k * dx = vx) by (rewrite Hk; unfold dx; ring).
    rewrite Hmean, Hk, Hz. repeat split.
    + lia.
    + ring.
    + apply in_or_app. right. left. reflexivity.
    + intros a Ha. apply in_app_or in Ha as [Ha | [Ha | []]].
      * destruct (Hnone a Ha).
      * injection Ha as <-. reflexivity.
  - assert (Hk : 0 < 1 - k).
    { unfold k. assert (Hn1 : 1 <= INR n) by (apply (le_INR 1); exact Hn).
      assert (Hi : / INR (S n) <= / 2) by (apply Rinv_le_contravar; lra).
      unfold Rdiv. lra. }
    destruct (Req_dec_T vx mx) as [E | NE].
    + (* one more copy of the same value *)
      right; left.
      assert (Hd0 : dx = 0) by (unfold dx; lra).
      assert (Hmean : mx + k * dx = mx) by (rewrite Hd0; ring).
      rewrite Hmean, Hz, Hd0. repeat split.
      * lia.
      * ring.
      * apply in_or_app. left. exact Hin.
      * intros a Ha. apply in_app_or in Ha as [Ha | [Ha | []]].
        -- apply Hall, Ha.
        -- injection Ha as <-. exact E.
    + (* a second, different value *)
      right; right. rewrite Hz. repeat split.
      * lia.
      * assert (0 < dx * dx).
        { destruct (Rtotal_order dx 0) as [Hlt | [Heq | Hgt]].
          - replace (dx * dx) with ((- dx) * (- dx)) by ring.
            apply Rmult_lt_0_compat; lra.
          - exfalso. unfold dx in Heq. lra.
          - apply Rmult_lt_0_compat; lra. }
        assert (0 < (1 - k) * (dx * dx)) by (apply Rmult_lt_0_compat; lra).
        lra.
      * exists mx, vx. repeat split.
        -- apply in_or_app. left. exact Hin.
        -- apply in_or_app. right. left. reflexivity.
        -- intros E. apply NE. symmetry. exact E.
  - right; right.
    assert (Hk : 0 <= 1 - k).
    { unfold k. assert (Hi : / INR (S n) <= / 1)
        by (apply Rinv_le_contravar; lra).
      rewrite Rinv_1 in Hi. unfold Rdiv. lra. }
    assert (0 <= (1 - k) * (dx * dx)) by (apply Rmult_le_pos; assumption).
    repeat split.
    + lia.
    + lra.
    + apply varies_app, Hv.
Qed.

Lemma welford_loop_diagonal (xs seen : list float) (st : welford) :
  diagonal_state st seen ->
  diagonal_state (welford_loop st xs xs) (seen ++ xs).
Proof.
  revert seen st; induction xs as [|x xs IH]; intros seen st Hst.
  - rewrite app_nil_r. exact Hst.
  - replace (seen ++ x :: xs) with ((seen ++ [x]) ++ xs)
      by (rewrite <- app_assoc; reflexivity).
    cbn [welford_loop].
    destruct x as [| | |vx];
      try (apply IH; apply diagonal_state_skip; [reflexivity | exact Hst]).
    apply IH, diagonal_state_step, Hst.
Qed.

Lemma diagonal_state_initial : diagonal_state (mk_welford 0 0 0 0 0 0) [].
Proof.
  unfold diagonal_state. cbn.
  split; [reflexivity|]. split; [reflexivity|]. split; [reflexivity|].
  left. repeat split. intros a [].
Qed.

(** The correlation of a column with itself. *)
Lemma pearson_diagonal (xs : list float) :
  (varies xs -> pearson xs xs = Fin 1) /\
  (~ varies xs -> pearson xs xs = NaN).
Proof.
  pose proof (welford_loop_diagonal xs [] _ diagonal_state_initial) as H.
  cbn [app] in H. unfold pearson.
  destruct (welford_loop _ xs xs) as [n mx my A B C].
  destruct H as (Hm & Hs & Hc & Hcases).
  cbn [w_nobs w_meanx w_meany w_ssqdm_x w_ssqdm_y w_covxy] in *. subst B C.
  destruct Hcases as [(Hn & Hz & Hnone) | [(Hn & Hz & Hin & Hall) | (Hn & Hp & Hv)]].
  - subst n. cbn [Nat.ltb Nat.leb]. split; [|reflexivity].
    intros (a & b & Ha & _). destruct (Hnone a Ha).
  - assert (Hnv : ~ varies xs).
    { intros (a & b & Ha & Hb & Hab). apply Hab.
      rewrite (Hall a Ha), (Hall b Hb). reflexivity. }
    assert (Hnan : (if Nat.ltb n 1 then NaN
                    else if Reqb (sqrt (A * A)) 0 then NaN
                         else Fin (A / sqrt (A * A))) = NaN).
    { destruct (Nat.ltb n 1); [reflexivity|].
      rewrite Reqb_true; [reflexivity|].
      rewrite Hz, Rmult_0_l. apply sqrt_0. }
    rewrite Hnan. split; [intros Hv; destruct (Hnv Hv) | reflexivity].
  - destruct (Nat.ltb_spec n 1) as [Hlt | _]; [lia|].
    rewrite (sqrt_square A) by lra.
    rewrite Reqb_false by lra.
    split; [|intros Hnv; destruct (Hnv Hv)].
    intros _. f_equal. field. lra.
Qed.

(** X20: the diagonal entry of the correlation matrix for a forecast is
    1.0 when its column of the aligned frame holds two different finite
    values, and missing when it does not (no finite value, or a single
    repeated one). *)
Theorem correlations_diagonal (self : t) (d : forecasts_dict) (i : nat)
        (name : string) (col : list float) :
  nth_error (df_columns (frame d)) i = Some (name, col) ->
  (varies col ->
   nth i (nth i (calculate_correlations self d) []) NaN = Fin 1) /\
  (~ varies col ->
   nth i (nth i (calculate_correlations self d) []) NaN = NaN).
Proof.
  intros Hcol. unfold calculate_correlations. rewrite corr_entry, Hcol.
  cbn [snd]. apply pearson_diagonal.
Qed.

Lemma correlations_diagonal_witness :
  nth 0 (nth 0 (calculate_correlations Scenarios.default_optimizer
                  [("EWMA_8_32"%string, Scenarios.week_prices)]) []) NaN
  = Fin 1.
Proof.
  apply (proj1 (correlations_diagonal Scenarios.default_optimizer
                  [("EWMA_8_32"%string, Scenarios.week_prices)] 0
                  "EWMA_8_32"%string (values Scenarios.week_prices)
                  eq_refl)).
  exists 1, 2. repeat split.
  - left; reflexivity.
  - right; left; reflexivity.
  - lra.
Defined.

End Correlations.

(** ** Combining forecasts *)

Section Combining.
Import PortfolioOptimizer Notions.
Local Open Scope R_scope.

Lemma length_rows (df : DataFrame) : length (rows df) = length (df_index df).
Proof. unfold rows. rewrite length_map, length_seq. reflexivity. Qed.

Lemma index_reduce_rows (f : list float -> float) (df : DataFrame) :
  index (reduce_rows f df) = df_index df.
Proof.
  unfold reduce_rows. apply index_make_series.
  rewrite length_map, length_rows. reflexivity.
Qed.

Lemma index_combine_forecasts (self : t) (d : forecasts_dict)
      (w : option (list (string * float))) :
  index (combine_forecasts self d w) = df_index (frame d).
Proof.
  unfold combine_forecasts, sclip. rewrite index_smap.
  destruct w as [cw|]; rewrite index_reduce_rows; reflexivity.
Qed.

Lemma in_fold_insert_label (x : Z) (l : list Z) :
  In x (fold_right insert_label [] l) <-> In x l.
Proof.
  induction l as [|t l IH]; simpl; [tauto|].
  rewrite in_insert_label, IH. split; intros [H | H]; auto.
Qed.

Lemma in_frame_index (d : forecasts_dict) (ts : Z) :
  In ts (df_index (frame d)) <->
  exists name s, In (name, s) d /\ In ts (index s).
Proof.
  unfold frame. destruct (same_indexes d) eqn:Hsame; cbn [df_index].
  - destruct d as [|[n0 s0] rest].
    + split; [intros [] | intros (? & ? & [] & _)].
    + cbn [same_indexes] in Hsame. rewrite forallb_forall in Hsame. split.
      * intros H. exists n0, s0. split; [left; reflexivity | exact H].
      * intros (name & s & [[= <- <-] | Hin] & Hts); [exact Hts|].
        specialize (Hsame (name, s) Hin). cbn [snd] in Hsame.
        apply index_eqb_eq in Hsame. rewrite Hsame. exact Hts.
  - rewrite in_fold_insert_label, in_concat. split.
    + intros (l & Hl & Hts). apply in_map_iff in Hl as ([name s] & <- & Hin).
      exists name, s. split; assumption.
    + intros (name & s & Hin & Hts). exists (index s). split; [|exact Hts].
      apply in_map_iff. exists (name, s). split; [reflexivity | exact Hin].
Qed.

(** X21: the combined forecast is an outer join: a timestamp is a label of
    the result exactly when it is a label of at least one of the input
    forecasts, with or without weights. *)
Theorem combine_forecasts_labels (self : t) (d : forecasts_dict)
        (w : option (list (string * float))) (ts : Z) :
  In ts (index (combine_forecasts self d w)) <->
  exists name s, In (name, s) d /\ In ts (index s).
Proof. rewrite index_combine_forecasts. apply in_frame_index. Qed.


(** *** A single forecast *)

Lemma mean_single (v : float) : mean [v] = v.
Proof.
  unfold mean, count, sum, present, fsum, of_nat.
  destruct v as [| | |r]; simpl; try reflexivity.
  - rewrite Rltb_false by lra. reflexivity.
  - rewrite Rltb_false by lra. reflexivity.
  - rewrite Reqb_false by lra. f_equal. field.
Qed.

Lemma map_nth_seq {A : Type} (l : list A) (d : A) :
  map (fun i => nth i l d) (seq 0 (length l)) = l.
Proof.
  induction l as [|x l IH]; [reflexivity|].
  cbn [length seq map nth]. f_equal.
  rewrite <- seq_shift, map_map. exact IH.
Qed.

Lemma make_series_index_values (s : Series) :
  make_series (index s) (values s) = s.
Proof.
  unfold make_series, index, values.
  induction s as [|[t v] s IH]; simpl; [reflexivity|].
  rewrite IH. reflexivity.
Qed.

Lemma combine_single_forecast (self : t) (name : string) (s : Series) :
  combine_forecasts self [(name, s)] None = sclip (Fin (-20)) (Fin 20) s.
Proof.
  unfold combine_forecasts, frame. cbn [same_indexes forallb].
  unfold reduce_rows, rows, row_at. cbn [df_index df_columns map fst snd].
  rewrite map_map.
  rewrite (map_ext _ (fun i => nth i (values s) NaN))
    by (intros i; apply mean_single).
  rewrite length_index, <- length_values, map_nth_seq, make_series_index_values.
  reflexivity.
Qed.

Lemma clip_idempotent (lo hi : R) (x : float) :
  lo <= hi ->
  clip (Fin lo) (Fin hi) (clip (Fin lo) (Fin hi) x) = clip (Fin lo) (Fin hi) x.
Proof.
  intros Hle. unfold clip, fgt.
  destruct x as [| | |a]; simpl;
    repeat match goal with
           | |- context [Rltb ?p ?q] => destruct (Rltb_spec p q); simpl
           end;
    first [reflexivity | exfalso; lra].
Qed.

Lemma sclip_idempotent (lo hi : R) (s : Series) :
  lo <= hi ->
  sclip (Fin lo) (Fin hi) (sclip (Fin lo) (Fin hi) s) = sclip (Fin lo) (Fin hi) s.
Proof.
  intros Hle. unfold sclip, smap. rewrite map_map. apply map_ext.
  intros [t v]. cbn [fst snd]. rewrite clip_idempotent by exact Hle.
  reflexivity.
Qed.

(** X22: combining a single forecast produced by [EWMASignal.get_forecast],
    without weights, returns that forecast unchanged. *)
Theorem combine_single_signal_forecast
        (self : t) (sig : EWMASignal.t) (prices : Series)
        (train_prices : option Series) (fc : Series) (name : string) :
  EWMASignal.get_forecast sig prices train_prices = Returned fc ->
  combine_forecasts self [(name, fc)] None = fc.
Proof.
  intros Hfc. rewrite combine_single_forecast.
  unfold EWMASignal.get_forecast in Hfc.
  destruct (EWMASignal.get_forecast_locals sig prices train_prices) as [l|]
    eqn:Hl; [|discriminate].
  cbn [bind] in Hfc. injection Hfc as <-.
  rewrite (get_forecast_locals_forecast _ _ _ _ Hl).
  apply sclip_idempotent. lra.
Qed.

Lemma combine_single_signal_forecast_witness :
  combine_forecasts Scenarios.default_optimizer
    [("EWMA_1_3"%string,
      [(2%Z, Fin 0); (3%Z, Fin 8); (4%Z, Fin (-5)); (5%Z, Fin (35 / 3))])]
    None
  = [(2%Z, Fin 0); (3%Z, Fin 8); (4%Z, Fin (-5)); (5%Z, Fin (35 / 3))].
Proof.
  exact (combine_single_signal_forecast Scenarios.default_optimizer
           (EWMASignal.mk 1 3) _ _ _ "EWMA_1_3"%string week_forecast).
Defined.

(** *** Weights that are all zero *)

Lemma zero_weights_normalized (n : nat) :
  map (fun x => fdiv x (fsum (repeat (Fin 0) n))) (repeat (Fin 0) n)
  = repeat NaN n.
Proof.
  unfold fsum. rewrite fsum_const_fin. rewrite map_repeat. f_equal.
  simpl. rewrite Reqb_true by ring. unfold signed_inf.
  rewrite Reqb_true by reflexivity. reflexivity.
Qed.

Lemma sum_all_missing (row : list float) :
  sum (map (fun v => fmul v NaN) row) = Fin 0.
Proof.
  unfold sum.
  assert (E : present (map (fun v => fmul v NaN) row) = []).
  { induction row as [|v row IH]; [reflexivity|].
    cbn [map present filter]. rewrite fmul_nan_r. exact IH. }
  rewrite E. reflexivity.
Qed.

(** X23: when the weight dictionary gives every forecast the weight 0, the
    normalisation divides 0 by 0 and no exception is raised: the combined
    forecast is 0.0 at every timestamp. *)
Theorem combine_forecasts_zero_weights
        (self : t) (d : forecasts_dict) (cw : list (string * float))
        (ts : Z) (v : float) :
  (forall name, In name (map fst d) -> dict_get cw name (Fin 1) = Fin 0) ->
  In (ts, v) (combine_forecasts self d (Some cw)) ->
  v = Fin 0.
Proof.
  intros Hcw Hin. unfold combine_forecasts in Hin.
  set (cols := df_columns (frame d)) in *.
  assert (Hweights : map (fun col => dict_get cw (fst col) (Fin 1)) cols
                     = repeat (Fin 0) (length cols)).
  { rewrite <- (length_map (fun col => dict_get cw (fst col) (Fin 1)) cols).
    apply Forall_eq_repeat. apply Forall_forall.
    intros x Hx. apply in_map_iff in Hx as (col & <- & Hcol).
    symmetry. apply Hcw. unfold cols in Hcol.
    rewrite <- names_frame_columns. apply in_map, Hcol. }
  rewrite Hweights, zero_weights_normalized in Hin.
  apply in_smap in Hin as (u & Hu & ->).
  unfold reduce_rows in Hu. apply in_make_series_value in Hu.
  apply in_map_iff in Hu as (row & <- & Hrow).
  unfold rows, scale_columns in Hrow. cbn [df_index df_columns] in Hrow.
  apply in_map_iff in Hrow as (i & <- & _).
  fold cols. rewrite row_at_scaled, sum_all_missing.
  unfold clip, fgt. simpl.
  rewrite Rltb_false by lra. rewrite Rltb_false by lra. reflexivity.
Qed.

Lemma in_index_row (ts : Z) (s : Series) :
  In ts (index s) -> exists v, In (ts, v) s.
Proof.
  unfold index. intros H. apply in_map_iff in H as ([t v] & <- & Hin).
  exists v. exact Hin.
Qed.

Lemma combine_forecasts_zero_weights_witness :
  exists v,
    In (1%Z, v)
       (combine_forecasts Scenarios.default_optimizer Scenarios.uneven_forecasts
          (Some [("EWMA_8_32"%string, Fin 0); ("EWMA_16_64"%string, Fin 0)])) /\
    v = Fin 0.
Proof.
  destruct (in_index_row 1
              (combine_forecasts Scenarios.default_optimizer
                 Scenarios.uneven_forecasts
                 (Some [("EWMA_8_32"%string, Fin 0);
                        ("EWMA_16_64"%string, Fin 0)]))) as (v & Hv).
  { rewrite index_combine_forecasts. apply in_frame_index.
    exists "EWMA_8_32"%string, [(1%Z, Fin 10)].
    split; [left; reflexivity | left; reflexivity]. }
  exists v. split; [exact Hv|].
  apply (combine_forecasts_zero_weights Scenarios.default_optimizer
           Scenarios.uneven_forecasts
           [("EWMA_8_32"%string, Fin 0); ("EWMA_16_64"%string, Fin 0)] 1 v);
    [|exact Hv].
  intros name [<- | [<- | []]]; reflexivity.
Defined.

End Combining.

(** ** The procedural backtest of ewma_strategy.py *)

Section ProceduralBacktest.
Import EwmaStrategy Notions.
Local Open Scope Z_scope.

Lemma window_body_get_forecast
      (prices : Series) (fast slow : Z) (vol_target capital : float)
      (train_window test_window i : Z) (l : window_locals) :
  window_body prices fast slow vol_target capital train_window test_window i
    = Returned l ->
  EWMASignal.get_forecast (EWMASignal.mk fast slow)
    (iloc prices i (i + test_window))
    (Some (iloc prices (i - train_window) i))
  = Returned (wl_forecast l).
Proof.
  unfold window_body, EWMASignal.get_forecast, EWMASignal.get_forecast_locals.
  cbn [EWMASignal.fast EWMASignal.slow].
  set (tp := iloc prices i (i + test_window)).
  set (tr := iloc prices (i - train_window) i).
  destruct (ewm_mean fast tr) as [ft|]; [|discriminate].
  destruct (ewm_mean slow tr) as [st|]; [|discriminate].
  cbn [bind].
  destruct (ewm_mean fast tp) as [fe|]; [|discriminate].
  destruct (ewm_mean slow tp) as [se|]; [|discriminate].
  cbn [bind].
  destruct (PandasEwm.ewm_std_adjusted 25 _) as [sd|]; [|discriminate].
  cbn [bind]. intros [= <-]. reflexivity.
Qed.

(** X24: in every pass of its loop, the procedural backtest computes the
    forecast that [EWMASignal.get_forecast] returns for the same spans on
    the test slice, with the training slice as the scaling reference. *)
Theorem window_body_forecast_is_get_forecast
        (prices : Series) (fast slow : Z) (vol_target capital : float)
        (train_window test_window i : Z) (l : window_locals) :
  window_body prices fast slow vol_target capital train_window test_window i
    = Returned l ->
  EWMASignal.get_forecast (EWMASignal.mk fast slow)
    (iloc prices i (i + test_window))
    (Some (iloc prices (i - train_window) i))
  = Returned (wl_forecast l).
Proof. apply window_body_get_forecast. Qed.

Lemma window_body_returns
      (prices : Series) (fast slow : Z) (vol_target capital : float)
      (train_window test_window i : Z) :
  1 <= fast -> 1 <= slow ->
  exists l,
    window_body prices fast slow vol_target capital train_window test_window i
      = Returned l.
Proof.
  intros Hf Hs. unfold window_body.
  rewrite !ewm_mean_valid by assumption. cbn [bind].
  unfold PandasEwm.ewm_std_adjusted.
  rewrite ewm_alpha_valid by lia. cbn [bind].
  eexists; reflexivity.
Qed.

Lemma window_body_forecast_is_get_forecast_witness :
  exists l,
    window_body Scenarios.week_prices 1 3 (Fin (25 / 100)) (Fin 100000) 2 4 2
      = Returned l /\
    EWMASignal.get_forecast (EWMASignal.mk 1 3)
      (iloc Scenarios.week_prices 2 (2 + 4))
      (Some (iloc Scenarios.week_prices (2 - 2) 2))
    = Returned (wl_forecast l).
Proof.
  destruct (window_body_returns Scenarios.week_prices 1 3 (Fin (25 / 100))
              (Fin 100000) 2 4 2) as (l & Hl); [lia | lia |].
  exists l. split; [exact Hl|].
  exact (window_body_forecast_is_get_forecast _ _ _ _ _ _ _ _ l Hl).
Defined.

(** *** Counting what each pass stores *)

Lemma values_dropna (s : Series) : values (dropna s) = present (values s).
Proof.
  unfold values, dropna, present.
  induction s as [|[t v] s IH]; simpl; [reflexivity|].
  destruct (notna v); simpl; rewrite IH; reflexivity.
Qed.

Lemma length_dropna (s : Series) :
  length (dropna s) = length (present (values s)).
Proof. rewrite <- values_dropna, length_values. reflexivity. Qed.

(** If every present entry of [A] sits at a position where [B] has a
    present entry, [B] has at least as many present entries. *)
Lemma present_covered (A B : list float) :
  (forall j a, nth_error A j = Some a -> notna a = true ->
               exists b, nth_error B j = Some b /\ notna b = true) ->
  (length (present A) <= length (present B))%nat.
Proof.
  revert B; induction A as [|a A IH]; intros B H; [simpl; lia|].
  assert (Htl : forall B', (forall j x, nth_error A j = Some x ->
                             notna x = true ->
                             exists b, nth_error B' j = Some b /\
                                       notna b = true) ->
                (length (present A) <= length (present B'))%nat)
    by (intros B'; apply IH).
  destruct B as [|b B].
  - assert (Hnone : forall j x, nth_error (a :: A) j = Some x ->
                                notna x = false).
    { intros j x Hj. destruct (notna x) eqn:Hx; [|reflexivity].
      destruct (H j x Hj Hx) as (b & Hb & _). destruct j; discriminate. }
    assert (E : present (a :: A) = []).
    { clear -Hnone. induction (a :: A) as [|x l IHl]; [reflexivity|].
      cbn [present filter]. rewrite (Hnone 0%nat x eq_refl).
      apply IHl. intros j y Hj. apply (Hnone (S j) y Hj). }
    rewrite E. simpl. lia.
  - assert (Hrest : (length (present A) <= length (present B))%nat).
    { apply Htl. intros j x Hj Hx. exact (H (S j) x Hj Hx). }
    cbn [present filter]. destruct (notna a) eqn:Ha.
    + destruct (H 0%nat a eq_refl Ha) as (b' & [= <-] & Hb).
      rewrite Hb. simpl. fold (present A). fold (present B). lia.
    + fold (present A). destruct (notna b); simpl; fold (present B); lia.
Qed.

Lemma present_last (F : list float) :
  length (present F) =
  (length (present (removelast F))
   + (if notna (last F NaN) then 1 else 0))%nat.
Proof.
  destruct F as [|x F]; [reflexivity|].
  rewrite (app_removelast_last NaN (l := x :: F)) at 1 by discriminate.
  unfold present. rewrite filter_app, length_app. cbn [filter].
  destruct (notna (last (x :: F) NaN)); reflexivity.
Qed.

Lemma nth_error_removelast_some {A : Type} (l : list A) (j : nat) (v : A) :
  nth_error l j = Some v -> (S j < length l)%nat ->
  nth_error (removelast l) j = Some v.
Proof.
  intros Hn Hj. rewrite removelast_firstn_len, nth_error_firstn.
  destruct (Nat.ltb_spec j (Nat.pred (length l))); [exact Hn | lia].
Qed.

Lemma length_ewm_cov_loop (adjust : bool) (alpha : R) (st : ewm_state)
      (xs : list float) :
  length (PandasEwm.ewm_cov_loop adjust alpha st xs) = length xs.
Proof.
  revert st; induction xs as [|x xs IH]; intros st; simpl; [reflexivity|].
  rewrite IH. reflexivity.
Qed.

Lemma index_ewm_std_adjusted (span : Z) (s sd : Series) :
  PandasEwm.ewm_std_adjusted span s = Returned sd -> index sd = index s.
Proof.
  unfold PandasEwm.ewm_std_adjusted.
  destruct (ewm_alpha span) as [alpha|]; [|discriminate].
  cbn [bind]. intros [= <-]. apply index_make_series.
  rewrite length_map, length_index, <- length_values.
  unfold PandasEwm.ewm_var_with. destruct (values s) as [|x xs]; [reflexivity|].
  simpl. rewrite length_ewm_cov_loop. reflexivity.
Qed.

(** What one pass computes, as far as counting needs it. *)
Lemma window_body_shape
      (prices : Series) (fast slow : Z) (vol_target capital : float)
      (train_window test_window i : Z) (l : window_locals) :
  window_body prices fast slow vol_target capital train_window test_window i
    = Returned l ->
  exists notional test_returns : Series,
    index notional = index (wl_forecast l) /\
    index test_returns = index (wl_forecast l) /\
    wl_positions l =
      zip_with fmul notional (smap (fun v => fdiv v (Fin 10)) (wl_forecast l)) /\
    wl_strategy_returns l =
      zip_with fmul (shift1 (wl_positions l)) test_returns.
Proof.
  unfold window_body.
  set (tp := iloc prices i (i + test_window)).
  set (tr := iloc prices (i - train_window) i).
  destruct (ewm_mean fast tr) as [ft|]; [|discriminate].
  destruct (ewm_mean slow tr) as [st|]; [|discriminate].
  cbn [bind].
  destruct (ewm_mean fast tp) as [fe|] eqn:Hfe; [|discriminate].
  destruct (ewm_mean slow tp) as [se|] eqn:Hse; [|discriminate].
  cbn [bind].
  destruct (PandasEwm.ewm_std_adjusted 25 _) as [sd|] eqn:Hsd; [|discriminate].
  cbn [bind]. intros [= <-].
  cbn [wl_forecast wl_positions wl_strategy_returns].
  apply index_ewm_mean in Hfe, Hse. apply index_ewm_std_adjusted in Hsd.
  rewrite index_pct_change in Hsd.
  set (fc := sclip _ _ _).
  assert (Hfc : index fc = index tp).
  { unfold fc, sclip. rewrite !index_smap.
    rewrite index_binop_same; rewrite index_binop_same; congruence. }
  set (notional := smap (fun v => fdiv (fmul vol_target capital) v) _).
  assert (Hnot : index notional = index tp).
  { unfold notional. rewrite index_smap.
    rewrite index_binop_same; rewrite index_smap; congruence. }
  set (pos := binop fmul notional _).
  assert (Hpos : index pos = index tp).
  { unfold pos. rewrite index_binop_same; rewrite ?index_smap; congruence. }
  exists notional, (pct_change tp). repeat split.
  - congruence.
  - rewrite index_pct_change. congruence.
  - unfold pos. apply binop_same_index. rewrite index_smap. congruence.
  - apply binop_same_index. rewrite index_shift1, index_pct_change. exact Hpos.
Qed.

(** One pass stores at least as many forecasts as timestamps, and one
    more when the forecast of the last test day is present. *)
Lemma window_body_counts
      (prices : Series) (fast slow : Z) (vol_target capital : float)
      (train_window test_window i : Z) (l : window_locals) :
  window_body prices fast slow vol_target capital train_window test_window i
    = Returned l ->
  (length (dropna (wl_strategy_returns l))
   + (if notna (last (values (wl_forecast l)) NaN) then 1 else 0)
   <= length (dropna (wl_forecast l)))%nat.
Proof.
  intros Hl.
  destruct (window_body_shape _ _ _ _ _ _ _ _ _ Hl)
    as (notional & rets & Hin & Hir & Hpos & Hstrat).
  rewrite !length_dropna, (present_last (values (wl_forecast l))).
  apply Nat.add_le_mono_r.
  set (F := values (wl_forecast l)). set (P := values (wl_positions l)).
  assert (HPF : forall j v, nth_error P j = Some v -> notna v = true ->
                            exists f, nth_error F j = Some f /\ notna f = true).
  { intros j v Hj Hv. unfold P in Hj. rewrite Hpos in Hj.
    apply nth_error_values_zip_with in Hj as (x & y & _ & Hy & ->).
    rewrite values_smap, nth_error_map in Hy.
    destruct (nth_error (values (wl_forecast l)) j) as [f|] eqn:Hf;
      [|discriminate].
    injection Hy as <-. exists f. split; [exact Hf|].
    destruct f; try reflexivity. rewrite fmul_nan_r in Hv. discriminate. }
  assert (HlenPF : length P = length F).
  { unfold P, F. rewrite !length_values, <- !length_index, Hpos.
    rewrite index_zip_with; rewrite ?index_smap; congruence. }
  apply Nat.le_trans with (length (present (NaN :: removelast F))).
  2:{ cbn [present filter notna isnan negb]. apply Nat.le_refl. }
  apply present_covered. intros j a Hj Ha.
  rewrite Hstrat in Hj.
  apply nth_error_values_zip_with in Hj as (x & y & Hx & _ & ->).
  rewrite values_shift1 in Hx.
  destruct (wl_positions l) as [|p0 ps] eqn:Hps.
  { destruct j; discriminate. }
  fold P in Hx.
  destruct j as [|j]; cbn [nth_error] in Hx.
  - injection Hx as <-. rewrite fmul_nan_l in Ha. discriminate.
  - cbn [nth_error].
    assert (Hxn : notna x = true).
    { destruct x; try reflexivity. rewrite fmul_nan_l in Ha. discriminate. }
    assert (Hjl : (S j < length P)%nat).
    { assert (Hne : nth_error (removelast P) j <> None)
        by (rewrite Hx; discriminate).
      apply nth_error_Some in Hne.
      rewrite removelast_firstn_len, length_firstn in Hne. lia. }
    apply nth_error_removelast in Hx.
    destruct (HPF j x Hx Hxn) as (f & Hf & Hfn).
    exists f. split; [|exact Hfn].
    apply nth_error_removelast_some; [exact Hf | lia].
Qed.


Lemma windows_returns
      (prices : Series) (fast slow : Z) (vol_target capital : float)
      (train_window test_window : Z) (starts : list Z) (acc : accum) :
  1 <= fast -> 1 <= slow ->
  exists acc',
    windows prices fast slow vol_target capital train_window test_window
            acc starts = Returned acc'.
Proof.
  intros Hf Hs. revert acc.
  induction starts as [|i starts IH]; intros acc; simpl.
  - eexists; reflexivity.
  - destruct (window_body_returns prices fast slow vol_target capital
                train_window test_window i Hf Hs) as (l & ->).
    cbn [bind]. apply IH.
Qed.

Lemma windows_counts
      (prices : Series) (fast slow : Z) (vol_target capital : float)
      (train_window test_window : Z) (starts : list Z) (acc acc' : accum) :
  windows prices fast slow vol_target capital train_window test_window
          acc starts = Returned acc' ->
  (length (timestamps acc) <= length (all_forecasts acc))%nat ->
  (length (timestamps acc') <= length (all_forecasts acc'))%nat /\
  ((length (timestamps acc) < length (all_forecasts acc))%nat \/
   (exists i l,
       In i starts /\
       window_body prices fast slow vol_target capital train_window
                   test_window i = Returned l /\
       notna (last (values (wl_forecast l)) NaN) = true) ->
   (length (timestamps acc') < length (all_forecasts acc'))%nat).
Proof.
  revert acc; induction starts as [|i starts IH]; intros acc; simpl.
  - intros [= <-] Hle. split; [exact Hle|].
    intros [Hlt | (i & l & [] & _)]. exact Hlt.
  - destruct (window_body prices fast slow vol_target capital train_window
                test_window i) as [l|] eqn:Hl; [|discriminate].
    cbn [bind]. intros Hrest Hle.
    pose proof (window_body_counts _ _ _ _ _ _ _ _ _ Hl) as Hcount.
    assert (Hst : (length (timestamps (store acc l))
                   + (if notna (last (values (wl_forecast l)) NaN)
                      then 1 else 0)
                   <= length (all_forecasts (store acc l)))%nat).
    { unfold store. cbn [timestamps all_forecasts].
      rewrite !length_app, length_index, length_values. lia. }
    destruct (IH (store acc l) Hrest) as [Hle' Hlt'].
    { lia. }
    split; [exact Hle'|].
    intros [Hlt | (i' & l' & [<- | Hin] & Hl' & Hlast)].
    + apply Hlt'. left.
      unfold store in *. cbn [timestamps all_forecasts] in *.
      rewrite !length_app, length_index, length_values in *.
      destruct (notna (last (values (wl_forecast l)) NaN)); lia.
    + rewrite Hl in Hl'. injection Hl' as <-. rewrite Hlast in Hst.
      apply Hlt'. left. lia.
    + apply Hlt'. right. exists i', l'. repeat split; assumption.
Qed.

(** X25: the procedural backtest stores the forecasts and the timestamps
    of a pass after dropping missing values from two different series.
    Whenever some window ends on a day with a forecast, more forecasts
    than timestamps are collected and building the result raises
    ValueError. *)
Theorem rolling_window_backtest_length_mismatch
        (prices : Series) (fast slow : Z) (vol_target capital : float)
        (train_window test_window : Z) (starts : list Z) (i : Z)
        (fc : Series) :
  Py.range train_window (Z.of_nat (length prices) - test_window) test_window
    = Returned starts ->
  In i starts ->
  EWMASignal.get_forecast (EWMASignal.mk fast slow)
    (iloc prices i (i + test_window))
    (Some (iloc prices (i - train_window) i)) = Returned fc ->
  notna (last (values fc) NaN) = true ->
  rolling_window_backtest prices fast slow vol_target capital
                          train_window test_window = Raised ValueError.
Proof.
  intros Hrange Hin Hfc Hlast.
  assert (Hspans : 1 <= fast /\ 1 <= slow).
  { destruct (Z.ltb_spec fast 1) as [Hf|Hf], (Z.ltb_spec slow 1) as [Hs|Hs];
      try (split; assumption);
      rewrite get_forecast_invalid in Hfc
        by (cbn [EWMASignal.fast EWMASignal.slow]; lia);
      discriminate. }
  destruct Hspans as [Hf Hs].
  unfold rolling_window_backtest. rewrite Hrange. cbn [bind].
  destruct (windows_returns prices fast slow vol_target capital train_window
              test_window starts (mk_accum [] [] [] []) Hf Hs) as (acc & Hacc).
  rewrite Hacc. cbn [bind].
  destruct (window_body_returns prices fast slow vol_target capital
              train_window test_window i Hf Hs) as (l & Hl).
  pose proof (window_body_get_forecast _ _ _ _ _ _ _ _ _ Hl) as Hfl.
  rewrite Hfc in Hfl. injection Hfl as Hfl.
  destruct (windows_counts _ _ _ _ _ _ _ _ _ _ Hacc) as [_ Hlt].
  { simpl. lia. }
  assert (Hneq : (length (timestamps acc) < length (all_forecasts acc))%nat).
  { apply Hlt. right. exists i, l. rewrite <- Hfl.
    repeat split; assumption. }
  unfold RollingWindowBacktest.new_series at 1.
  destruct (Nat.eqb_spec (length (all_forecasts acc)) (length (timestamps acc)));
    [lia | reflexivity].
Qed.

Lemma rolling_window_backtest_length_mismatch_witness :
  rolling_window_backtest Scenarios.week_prices 1 3 (Fin (25 / 100))
                          (Fin 100000) 2 4 = Raised ValueError.
Proof.
  apply (rolling_window_backtest_length_mismatch
           Scenarios.week_prices 1 3 (Fin (25 / 100)) (Fin 100000) 2 4
           [2] 2
           [(2%Z, Fin 0); (3%Z, Fin 8); (4%Z, Fin (-5)); (5%Z, Fin (35 / 3))]).
  - reflexivity.
  - left; reflexivity.
  - exact week_forecast.
  - reflexivity.
Defined.

End ProceduralBacktest.

(** ** The window walk of test_rollingwindow.py *)

Section WindowWalk.
Import TestRollingWindow.
Local Open Scope Z_scope.

Lemma increment_small (end_ : Z) : 0 <= end_ < 20 -> increment end_ = 0.
Proof. intros H. unfold increment. apply Z.div_small. exact H. Qed.

Lemma increment_positive (end_ : Z) : 20 <= end_ -> 0 < increment end_.
Proof.
  intros H. unfold increment. apply Z.div_str_pos. lia.
Qed.

Lemma loop_stuck (end_ : Z) (fuel : nat) (start : Z) :
  0 < end_ < 20 -> loop fuel end_ start 0 = None.
Proof.
  intros H. revert start. induction fuel as [|fuel IH]; intros start.
  - cbn [loop]. rewrite increment_small by lia.
    destruct (Z.ltb_spec 0 (end_ - 0)); [reflexivity | lia].
  - cbn [loop]. unfold pass. rewrite increment_small by lia.
    destruct (Z.ltb_spec 0 (end_ - 0)); [|lia].
    replace (0 + 0) with 0 by lia. rewrite IH. reflexivity.
Qed.

(** X26: on a frame of 1 to 19 rows the increment int(end / 20) is 0, the
    pointer never advances, and [RollingWindow] does not terminate: no
    number of passes reaches the exit of its loop. *)
Theorem RollingWindow_never_exits (end_ : Z) (fuel : nat) :
  0 < end_ < 20 -> RollingWindow fuel end_ = None.
Proof. intros H. unfold RollingWindow. apply loop_stuck, H. Qed.

Lemma RollingWindow_never_exits_witness : RollingWindow 1000 19 = None.
Proof. apply (RollingWindow_never_exits 19 1000). lia. Defined.

Lemma loop_exits (end_ : Z) (fuel : nat) (start curr : Z) :
  20 <= end_ ->
  0 <= start <= curr ->
  end_ - curr <= Z.of_nat fuel ->
  exists ws,
    loop fuel end_ start curr = Some ws /\
    Forall (fun w =>
              0 <= train_idx_front w < train_idx_back w /\
              train_idx_back w < end_ /\
              test_idx_front w = train_idx_back w /\
              test_idx_back w = test_idx_front w + increment end_) ws.
Proof.
  intros Hend. pose proof (increment_positive end_ Hend) as Hinc.
  revert start curr. induction fuel as [|fuel IH]; intros start curr Hs Hf.
  - cbn [loop]. destruct (Z.ltb_spec curr (end_ - increment end_)); [lia|].
    exists []. split; [reflexivity | constructor].
  - cbn [loop]. destruct (Z.ltb_spec curr (end_ - increment end_)) as [Hlt|Hge].
    + unfold pass.
      set (start' := if _ =? desired_window_size then curr else start).
      destruct (IH start' (curr + increment end_)) as (ws & Hws & Hall).
      { unfold start'. destruct (_ =? _); lia. }
      { lia. }
      rewrite Hws. cbn [option_map]. eexists. split; [reflexivity|].
      constructor; [|exact Hall].
      cbn [train_idx_front train_idx_back test_idx_front test_idx_back].
      lia.
    + exists []. split; [reflexivity | constructor].
Qed.

(** X27: on a frame of 20 rows or more [RollingWindow] terminates, within
    as many passes as the frame has rows.  Every window it visits has a
    non-empty training range that starts at or after row 0 and ends before
    the end of the frame, and a test range that begins where the training
    range ends and spans one increment. *)
Theorem RollingWindow_exits (end_ : Z) :
  20 <= end_ ->
  exists ws,
    RollingWindow (Z.to_nat end_) end_ = Some ws /\
    Forall (fun w =>
              0 <= train_idx_front w < train_idx_back w /\
              train_idx_back w < end_ /\
              test_idx_front w = train_idx_back w /\
              test_idx_back w = test_idx_front w + increment end_) ws.
Proof.
  intros H. unfold RollingWindow. apply loop_exits; lia.
Qed.

Lemma RollingWindow_exits_witness :
  exists ws,
    RollingWindow (Z.to_nat 100) 100 = Some ws /\
    Forall (fun w =>
              0 <= train_idx_front w < train_idx_back w /\
              train_idx_back w < 100 /\
              test_idx_front w = train_idx_back w /\
              test_idx_back w = test_idx_front w + increment 100) ws.
Proof. apply (RollingWindow_exits 100). lia. Defined.


Lemma loop_expanding (end_ : Z) (fuel : nat) (curr : Z) (ws : list window) :
  0 < increment end_ ->
  increment end_ <> 1 -> increment end_ <> 2 -> increment end_ <> 5 ->
  (exists k, 0 <= k /\ curr = k * increment end_) ->
  loop fuel end_ 0 curr = Some ws ->
  Forall (fun w => train_idx_front w = 0) ws.
Proof.
  intros Hinc H1 H2 H5. revert curr ws.
  induction fuel as [|fuel IH]; intros curr ws (k & Hk & Hcurr).
  - cbn [loop]. destruct (_ <? _); [discriminate|].
    intros [= <-]. constructor.
  - cbn [loop]. destruct (_ <? _); [|intros [= <-]; constructor].
    unfold pass.
    assert (Hstart : (if curr + increment end_ - 0 =? desired_window_size
                      then curr else 0) = 0).
    { unfold desired_window_size.
      destruct (Z.eqb_spec (curr + increment end_ - 0) 10) as [E|]; [|reflexivity].
      set (inc := increment end_) in *.
      assert (Hle : inc <= 10) by nia.
      assert (Hcases : inc = 3 \/ inc = 4 \/ inc = 6 \/ inc = 7 \/ inc = 8 \/
                       inc = 9 \/ inc = 10) by lia.
      destruct Hcases as [-> | [-> | [-> | [-> | [-> | [-> | ->]]]]]]; lia. }
    rewrite Hstart.
    destruct (loop fuel end_ 0 (curr + increment end_)) as [ws'|] eqn:Hws;
      [|discriminate].
    cbn [option_map]. intros [= <-]. constructor; [reflexivity|].
    apply (IH (curr + increment end_)); [|exact Hws].
    exists (k + 1). split; [lia|]. rewrite Hcurr. ring.
Qed.

(** X28: unless the increment int(end / 20) is 1, 2 or 5, the size test
    against the desired window size of 10 never moves the start pointer:
    every training range begins at row 0, so the training window expands
    throughout instead of rolling. *)
Theorem RollingWindow_expanding (end_ : Z) (fuel : nat) (ws : list window) :
  20 <= end_ ->
  increment end_ <> 1 -> increment end_ <> 2 -> increment end_ <> 5 ->
  RollingWindow fuel end_ = Some ws ->
  Forall (fun w => train_idx_front w = 0) ws.
Proof.
  intros Hend H1 H2 H5. unfold RollingWindow.
  apply loop_expanding; try assumption.
  - apply increment_positive, Hend.
  - exists 0. split; [lia | ring].
Qed.

Lemma RollingWindow_expanding_witness :
  exists ws,
    RollingWindow (Z.to_nat 200) 200 = Some ws /\
    Forall (fun w => train_idx_front w = 0) ws.
Proof.
  destruct (loop_exits 200 (Z.to_nat 200) 0 0) as (ws & Hws & _);
    [lia | lia | lia |].
  exists ws. split; [exact Hws|].
  apply (RollingWindow_expanding 200 (Z.to_nat 200) ws);
    [lia | discriminate | discriminate | discriminate | exact Hws].
Defined.

Lemma loop_rolling (end_ : Z) (fuel : nat) (start curr : Z) (ws : list window) :
  increment end_ = 1 \/ increment end_ = 2 \/ increment end_ = 5 ->
  (exists j, 0 <= j /\ curr - start = j * increment end_) ->
  curr - start < 10 ->
  loop fuel end_ start curr = Some ws ->
  Forall (fun w => train_idx_back w - train_idx_front w <= 10) ws.
Proof.
  intros Hinc. revert start curr ws.
  induction fuel as [|fuel IH]; intros start curr ws (j & Hj & Hdiff) Hlt.
  - cbn [loop]. destruct (_ <? _); [discriminate|].
    intros [= <-]. constructor.
  - cbn [loop]. destruct (_ <? _); [|intros [= <-]; constructor].
    unfold pass, desired_window_size.
    set (inc := increment end_) in *.
    assert (Hsize : curr + inc - start <= 10).
    { destruct Hinc as [E | [E | E]]; rewrite E in *; lia. }
    set (start' := if curr + inc - start =? 10 then curr else start).
    destruct (loop fuel end_ start' (curr + inc)) as [ws'|] eqn:Hws;
      [|discriminate].
    cbn [option_map]. intros [= <-]. constructor.
    + cbn [train_idx_front train_idx_back]. exact Hsize.
    + apply (IH start' (curr + inc)); [| |exact Hws].
      * unfold start'. destruct (Z.eqb_spec (curr + inc - start) 10).
        -- exists 1. split; [lia | ring].
        -- exists (j + 1). split; [lia|].
           replace (curr + inc - start) with (curr - start + inc) by ring.
           rewrite Hdiff. ring.
      * unfold start'. destruct (Z.eqb_spec (curr + inc - start) 10).
        -- destruct Hinc as [E | [E | E]]; rewrite E; lia.
        -- lia.
Qed.

(** X29: when the increment int(end / 20) is 1, 2 or 5 (frames of 20 to 59
    and of 100 to 119 rows, the script's own frame of 100 rows among
    them), no training range is longer than the desired window size of 10
    rows. *)
Theorem RollingWindow_rolling (end_ : Z) (fuel : nat) (ws : list window) :
  increment end_ = 1 \/ increment end_ = 2 \/ increment end_ = 5 ->
  RollingWindow fuel end_ = Some ws ->
  Forall (fun w => train_idx_back w - train_idx_front w <= 10) ws.
Proof.
  intros Hinc. unfold RollingWindow. apply loop_rolling.
  - exact Hinc.
  - exists 0. split; [lia | ring].
  - lia.
Qed.

Lemma RollingWindow_rolling_witness :
  exists ws,
    RollingWindow (Z.to_nat 100) 100 = Some ws /\
    Forall (fun w => train_idx_back w - train_idx_front w <= 10) ws.
Proof.
  destruct (loop_exits 100 (Z.to_nat 100) 0 0) as (ws & Hws & _);
    [lia | lia | lia |].
  exists ws. split; [exact Hws|].
  apply (RollingWindow_rolling 100 (Z.to_nat 100) ws);
    [right; right; reflexivity | exact Hws].
Defined.

End WindowWalk.
